(** * python-fmask: the Sentinel-2 command line driver

    A shallow embedding of [fmask/cmdline/sentinel2Stacked.py] and the
    properties of its input-normalisation pipeline: archive discovery,
    the resample policy, band resampling and stacking, reconciliation of
    the angles raster, and the lifecycle of the temporary files.

    The script is a sequence of calls to the operating system and to
    external tools.  Each Python function becomes a computation in a
    small state-and-exception monad.  The state holds the file system,
    the position in the stream of random names used by [tempfile], and
    the trace of the system calls made so far.  What lies outside the
    script (the external tools, the directory search of [glob], the
    resolution of path names, the failures of [os.remove] and of
    [tempfile]) is a record of functions, universally quantified in
    every general theorem. *)

From Stdlib Require Import List String Ascii ZArith QArith Bool Lia.
From Stdlib Require DecimalString.
Import ListNotations.

Local Open Scope list_scope.
Local Open Scope string_scope.

(** ** Values of the script *)

(** What [rios.fileinfo.ImageInfo] exposes of a raster: the pixel size
    on both axes and the extent.  Pixel sizes are the (finite) floating
    point numbers read from the geotransform; Python compares an [int]
    with such a float exactly, so they are rationals here. *)
Record ImageInfo : Type := mkImageInfo {
  xRes : Q;
  yRes : Q;
  xMin : Q;
  yMin : Q;
  xMax : Q;
  yMax : Q
}.

(** The file system: the paths that exist, in directory-listing order,
    and the rasters that GDAL can open among them. *)
Record FS : Type := mkFS {
  files : list string;
  images : list (string * ImageInfo)
}.

(** A Python [float]: a finite binary64 number, given by its exact
    value, an infinity, or a NaN.  The command line reads its
    thresholds and distances with [type=float], so that [inf] and
    [nan] can be given. *)
Inductive PyFloat : Type :=
| Finite (q : Q)
| Infinity (negative : bool)
| NaN.

(** [config.AnglesFileInfo], [config.FmaskFilenames] and
    [config.FmaskConfig], as far as this script fills them in. *)
Record AnglesFileInfo : Type := mkAnglesFileInfo {
  solarZenithFilename : string;  solarZenithBand : Z;
  solarAzimuthFilename : string; solarAzimuthBand : Z;
  viewZenithFilename : string;   viewZenithBand : Z;
  viewAzimuthFilename : string;  viewAzimuthBand : Z
}.

Record FmaskFilenames : Type := mkFmaskFilenames {
  toaRef : option string;
  outputMask : option string
}.

Record FmaskConfig : Type := mkFmaskConfig {
  anglesInfo : AnglesFileInfo;
  keepIntermediates : bool;
  cfgVerbose : bool;
  cfgTempDir : string;
  TOARefScaling : Q;
  minCloudSize : Z;
  Eqn17CloudProbThresh : PyFloat;
  Eqn20NirSnowThresh : PyFloat;
  Eqn20GreenSnowThresh : PyFloat;
  sen2displacementTest : bool;
  cloudBufferSize : Z;
  shadowBufferSize : Z
}.

(** The [argparse] namespace built by [getCmdargs]. *)
Record Cmdargs : Type := mkCmdargs {
  safedir : option string;
  granuledir : option string;
  toa : option string;
  anglesfile : option string;
  output : option string;
  verbose : bool;
  pixsize : Z;
  keepintermediates : bool;
  tempdir : string;
  mincloudsize : Z;
  cloudbufferdistance : PyFloat;
  shadowbufferdistance : PyFloat;
  cloudprobthreshold : PyFloat;
  nirsnowthreshold : PyFloat;
  greensnowthreshold : PyFloat;
  parallaxtest : bool
}.

Definition set_granuledir (c : Cmdargs) (v : option string) : Cmdargs :=
  mkCmdargs (safedir c) v (toa c) (anglesfile c) (output c) (verbose c)
    (pixsize c) (keepintermediates c) (tempdir c) (mincloudsize c)
    (cloudbufferdistance c) (shadowbufferdistance c) (cloudprobthreshold c)
    (nirsnowthreshold c) (greensnowthreshold c) (parallaxtest c).

Definition set_toa (c : Cmdargs) (v : option string) : Cmdargs :=
  mkCmdargs (safedir c) (granuledir c) v (anglesfile c) (output c) (verbose c)
    (pixsize c) (keepintermediates c) (tempdir c) (mincloudsize c)
    (cloudbufferdistance c) (shadowbufferdistance c) (cloudprobthreshold c)
    (nirsnowthreshold c) (greensnowthreshold c) (parallaxtest c).

Definition set_anglesfile (c : Cmdargs) (v : option string) : Cmdargs :=
  mkCmdargs (safedir c) (granuledir c) (toa c) v (output c) (verbose c)
    (pixsize c) (keepintermediates c) (tempdir c) (mincloudsize c)
    (cloudbufferdistance c) (shadowbufferdistance c) (cloudprobthreshold c)
    (nirsnowthreshold c) (greensnowthreshold c) (parallaxtest c).

(** The exceptions that can leave the script. *)
Inductive Exn : Type :=
| FmaskFileError (msg : string)
| FmaskInstallationError (msg : string)
| CalledProcessError (returncode : Z) (cmd : list string)
| ImageOpenError (path : option string)
| FileExistsError
| FileNotFoundError (path : string)
| PermissionError (path : string)
| TypeError
| ZeroDivisionError
| OverflowError
| ValueError
| SystemExit (code : Z)
| ExternalError (msg : string).

(** The system calls the script makes, in the order it makes them. *)
Inductive Event : Type :=
| EGlob (pattern : string) (found : list string)
| EMkstemp (dir : option string) (prefix suffix path : string)
| ERemove (path : string)
| ECheckCall (argv : list string)
| EMakeAngles (xmlfile anglesfile : string)
| EDoFmask (filenames : FmaskFilenames) (cfg : FmaskConfig)
| EPrint (line : string)
| EPrintHelp.

Record State : Type := mkState {
  fs : FS;
  rng : nat;
  trace : list Event
}.

(** Everything outside the script: the located executables, the
    defaults of [rios], the name generator of [tempfile], the float
    formatter, and the behaviour of the three external tools.  A tool
    receives the file system and returns how it ended together with the
    file system it leaves behind.

    The last six fields are the operating system as the script meets
    it.  [glob_glob pattern f] is the list [glob.glob(pattern)]
    returns on [f].  [path_alias p q] tells that two different strings
    name the same file (doubled or trailing slashes, relative and
    absolute spellings, links).  [remove_error p f] is the error, if
    any, with which [os.remove(p)] fails on [f], and [mkstemp_error d
    f] the error with which a file cannot be created in directory [d]
    (the directory is missing, or not writable).  [abspath_dir d] is
    the absolute spelling of directory [d] with its separator, the
    start of every name that [tempfile] returns for it, and [TMP_MAX]
    the number of names [tempfile] tries. *)
Record Env : Type := mkEnv {
  GDALWARPCMD : string;
  find_executable : string -> option string;
  sys_executable : string;
  DEFAULTDRIVERNAME : string;
  dfltDriverOptions : list (string * list string);
  gettempdir : string;
  randname : nat -> string;
  str_float : Q -> string;
  run_process : list string -> FS -> Z * FS;
  makeAngles : string -> string -> FS -> option Exn * FS;
  doFmask : FmaskFilenames -> FmaskConfig -> FS -> option Exn * FS;
  glob_glob : string -> FS -> list string;
  path_alias : string -> string -> bool;
  remove_error : string -> FS -> option Exn;
  mkstemp_error : string -> FS -> option Exn;
  abspath_dir : string -> string;
  TMP_MAX : nat
}.

(** ** The monad: state that survives an exception *)

Inductive Result (A : Type) : Type :=
| Ok (a : A)
| Raise (e : Exn).
Arguments Ok {A} a.
Arguments Raise {A} e.

Definition M (A : Type) : Type := State -> Result A * State.

Definition ret {A} (a : A) : M A := fun s => (Ok a, s).

Definition bind {A B} (m : M A) (k : A -> M B) : M B :=
  fun s => match m s with
           | (Ok a, s') => k a s'
           | (Raise e, s') => (Raise e, s')
           end.

Definition raise {A} (e : Exn) : M A := fun s => (Raise e, s).

Declare Scope py_scope.
Delimit Scope py_scope with py.
Notation "x <- m ;; k" := (bind m (fun x => k))
  (at level 61, m at next level, right associativity) : py_scope.
Notation "m ;; k" := (bind m (fun _ => k))
  (at level 61, right associativity) : py_scope.

Definition when (b : bool) (m : M unit) : M unit :=
  if b then m else ret tt.

Definition log (e : Event) : M unit :=
  fun s => (Ok tt, mkState (fs s) (rng s) (trace s ++ [e])%list).

(** ** Strings and paths *)

Definition mem (p : string) (l : list string) : bool :=
  existsb (String.eqb p) l.

(** [str(x)] for an argument that may be [None]. *)
Definition fmt (o : option string) : string :=
  match o with
  | Some s => s
  | None => "None"
  end.

(** [str(n)] for an [int]. *)
Definition str_int (n : Z) : string :=
  DecimalString.NilZero.string_of_int (Z.to_int n).

(** [sep.join(l)] *)
Fixpoint join (sep : string) (l : list string) : string :=
  match l with
  | [] => ""
  | [x] => x
  | x :: rest => x ++ sep ++ join sep rest
  end.

(** ** Numbers *)

(** The binary64 number nearest to the positive rational [n/d], ties
    to even: the quotient is cut to 53 bits, or to a multiple of
    [2^-1074] below the normal range, and is infinite from
    [2^1024 - 2^970] on. *)
Definition round64_pos (n d : positive) : PyFloat :=
  let e0 := (Z.log2 (Zpos n) - Z.log2 (Zpos d))%Z in
  let e := if (0 <=? e0)%Z
           then if (Zpos d * 2 ^ e0 <=? Zpos n)%Z then e0 else (e0 - 1)%Z
           else if (Zpos d <=? Zpos n * 2 ^ (- e0))%Z then e0
                else (e0 - 1)%Z in
  let p := Z.max (e - 52) (-1074) in
  let num := if (0 <=? p)%Z then Zpos n else (Zpos n * 2 ^ (- p))%Z in
  let den := if (0 <=? p)%Z then (Zpos d * 2 ^ p)%Z else Zpos d in
  let q := (num / den)%Z in
  let r := (num mod den)%Z in
  let m := match (2 * r ?= den)%Z with
           | Lt => q
           | Gt => (q + 1)%Z
           | Eq => if Z.even q then q else (q + 1)%Z
           end in
  if (0 <=? p)%Z
  then if (2 ^ 1024 <=? m * 2 ^ p)%Z then Infinity false
       else Finite (inject_Z (m * 2 ^ p))
  else Finite (Qmake m (Z.to_pos (2 ^ (- p)))).

Definition float_neg (x : PyFloat) : PyFloat :=
  match x with
  | Finite q => Finite (- q)
  | Infinity b => Infinity (negb b)
  | NaN => NaN
  end.

(** A rational rounded to binary64. *)
Definition round64 (x : Q) : PyFloat :=
  match Qnum x with
  | Z0 => Finite 0
  | Zpos n => round64_pos n (Qden x)
  | Zneg n => float_neg (round64_pos n (Qden x))
  end.

Definition Qnegative (b : Q) : bool :=
  match Qnum b with
  | Zneg _ => true
  | _ => false
  end.

(** [a / b] on floats, for a finite [b] that is not zero: the exact
    quotient, rounded. *)
Definition fdiv (a : PyFloat) (b : Q) : PyFloat :=
  match a with
  | Finite q => round64 (q / b)
  | Infinity neg => Infinity (xorb neg (Qnegative b))
  | NaN => NaN
  end.

(** ** The operating system and the libraries *)

Section Script.

Variable env : Env.

Local Open Scope py_scope.

(** [glob.glob(pattern)]: what the search returns is the system's. *)
Definition glob (pattern : string) : M (list string) :=
  fun s =>
    let found := glob_glob env pattern (fs s) in
    (Ok found, mkState (fs s) (rng s) (trace s ++ [EGlob pattern found])%list).

(** Two strings that name the same file. *)
Definition same_file (p q : string) : bool :=
  String.eqb p q || path_alias env p q.

(** A path exists when the file system lists it, under this spelling
    or another. *)
Definition exists_in (f : FS) (path : string) : bool :=
  existsb (same_file path) (files f).

(** [os.path.exists(path)] *)
Definition path_exists (path : string) : M bool :=
  fun s => (Ok (exists_in (fs s) path), s).

Definition fs_remove (path : string) (f : FS) : FS :=
  mkFS (filter (fun q => negb (same_file path q)) (files f))
       (filter (fun e => negb (same_file path (fst e))) (images f)).

(** [os.remove(path)]: it can fail on a file that exists (no
    permission, a directory, a file in use), and fails on one that
    does not. *)
Definition os_remove (path : string) : M unit :=
  fun s =>
    match remove_error env path (fs s) with
    | Some e => (Raise e, s)
    | None =>
        if exists_in (fs s) path
        then (Ok tt, mkState (fs_remove path (fs s)) (rng s)
                             (trace s ++ [ERemove path])%list)
        else (Raise (FileNotFoundError path), s)
    end.

Fixpoint lookup_image (path : string) (l : list (string * ImageInfo))
  : option ImageInfo :=
  match l with
  | [] => None
  | (q, i) :: rest => if String.eqb path q then Some i else lookup_image path rest
  end.

Definition image_of (f : FS) (path : string) : option ImageInfo :=
  if mem path (files f) then lookup_image path (images f) else None.

(** [fileinfo.ImageInfo(path)]: fails on a path that does not exist or
    is not a raster. *)
Definition ImageInfo_open (path : string) : M ImageInfo :=
  fun s => match image_of (fs s) path with
           | Some i => (Ok i, s)
           | None => (Raise (ImageOpenError (Some path)), s)
           end.

(** [tempfile.mkstemp]: candidate names are drawn from the random
    stream until one does not exist, at most [TMP_MAX] times.  Without
    [dir] the file goes to [tempfile.gettempdir()].  The name returned
    is absolute: the absolute spelling of the directory, the prefix,
    the random part and the suffix.  A directory that is missing or
    not writable ends the call with the error of the system. *)
Definition temp_path (d pre suf : string) (n : nat) : string :=
  abspath_dir env d ++ pre ++ randname env n ++ suf.

Fixpoint mkstemp_try (fuel : nat) (d pre suf : string) (n : nat)
  (f : FS) : option string * nat :=
  match fuel with
  | O => (None, n)
  | S fuel' =>
      let p := temp_path d pre suf n in
      if exists_in f p
      then mkstemp_try fuel' d pre suf (S n) f
      else (Some p, S n)
  end.

Definition mkstemp (dir : option string) (pre suf : string) : M string :=
  fun s =>
    let d := match dir with Some d => d | None => gettempdir env end in
    match mkstemp_error env d (fs s) with
    | Some e => (Raise e, s)
    | None =>
        match mkstemp_try (TMP_MAX env) d pre suf (rng s) (fs s) with
        | (Some p, n) =>
            (Ok p, mkState (mkFS (files (fs s) ++ [p])%list (images (fs s))) n
                           (trace s ++ [EMkstemp dir pre suf p])%list)
        | (None, n) =>
            (Raise FileExistsError, mkState (fs s) n (trace s))
        end
    end.

(** [subprocess.check_call(argv)] *)
Definition check_call (argv : list string) : M unit :=
  fun s =>
    let '(code, f) := run_process env argv (fs s) in
    let s' := mkState f (rng s) (trace s ++ [ECheckCall argv])%list in
    if Z.eqb code 0 then (Ok tt, s')
    else (Raise (CalledProcessError code argv), s').

Definition call_makeAngles (xmlfile out : string) : M unit :=
  fun s =>
    let '(r, f) := makeAngles env xmlfile out (fs s) in
    let s' := mkState f (rng s) (trace s ++ [EMakeAngles xmlfile out])%list in
    match r with
    | None => (Ok tt, s')
    | Some e => (Raise e, s')
    end.

Definition call_doFmask (fn : FmaskFilenames) (cfg : FmaskConfig) : M unit :=
  fun s =>
    let '(r, f) := doFmask env fn cfg (fs s) in
    let s' := mkState f (rng s) (trace s ++ [EDoFmask fn cfg])%list in
    match r with
    | None => (Ok tt, s')
    | Some e => (Raise e, s')
    end.

Definition print (line : string) : M unit := log (EPrint line).

(** Lines 41-45: the creation options handed to the GDAL utilities. *)
Fixpoint dict_get (k : string) (d : list (string * list string))
  : option (list string) :=
  match d with
  | [] => None
  | (k', v) :: rest => if String.eqb k k' then Some v else dict_get k rest
  end.

Definition CMDLINECREATIONOPTIONS : list string :=
  match dict_get (DEFAULTDRIVERNAME env) (dfltDriverOptions env) with
  | Some opts => flat_map (fun opt => ["-co"; opt]) opts
  | None => []
  end.

(** ** The script *)

(** Python's [>] on two finite numbers. *)
Definition Qgtb (a b : Q) : bool :=
  match Qcompare a b with
  | Gt => true
  | _ => false
  end.

(** Lines 237-244: the decision of [chooseResampleMethod] once the
    pixel size of the image is known. *)
Definition resampleFor (outpixsize : Z) (inPixsize : Q) : string :=
  if Qeq_bool (inject_Z outpixsize) inPixsize then "near"
  else if Qgtb (inject_Z outpixsize) inPixsize then "average"
  else "cubic".

(** Lines 230-244. *)
Definition chooseResampleMethod (outpixsize : Z) (inBandImg : string)
  : M string :=
  imginfo <- ImageInfo_open inBandImg ;;
  let inPixsize := xRes imginfo in
  ret (resampleFor outpixsize inPixsize).


(** Lines 247-266. *)
Definition findGranuleDir (safedir : string) : M string :=
  let granuleDirPattern := safedir ++ "/GRANULE/L1C_*" in
  granuleDirList <- glob granuleDirPattern ;;
  match granuleDirList with
  | [] =>
      raise (FmaskFileError
               ("Unable to find GRANULE sub-directory " ++ granuleDirPattern))
  | [granuleDir] => ret granuleDir
  | _ :: _ :: _ =>
      let dirstring := join "," granuleDirList in
      let msg := "Found multiple GRANULE sub-directories: " ++ dirstring in
      raise (FmaskFileError msg)
  end.

(** Lines 269-282. *)
Definition findGranuleXml (granuleDir : string) : M string :=
  let xmlfile := granuleDir ++ "/MTD_TL.xml" in
  present <- path_exists xmlfile ;;
  if negb present then
    let xmlfilePattern := granuleDir ++ "/*.xml" in
    xmlfileList <- glob xmlfilePattern ;;
    match xmlfileList with
    | [found] => ret found
    | _ => raise (FmaskFileError ("Unable to find XML file " ++ xmlfile))
    end
  else ret xmlfile.

(** Lines 136-160. *)
Definition checkAnglesFile (inputAnglesFile toafile : string) : M string :=
  toaImgInfo <- ImageInfo_open toafile ;;
  anglesImgInfo <- ImageInfo_open inputAnglesFile ;;
  if negb (Qeq_bool (xRes toaImgInfo) (xRes anglesImgInfo))
     || negb (Qeq_bool (yRes toaImgInfo) (yRes anglesImgInfo))
  then
    vrtName <- mkstemp None "angles" ".vrt" ;;
    check_call [GDALWARPCMD env; "-q"; "-of"; "VRT"; "-tr";
                str_float env (xRes toaImgInfo); str_float env (yRes toaImgInfo);
                "-te"; str_float env (xMin toaImgInfo);
                str_float env (yMin toaImgInfo); str_float env (xMax toaImgInfo);
                str_float env (yMax toaImgInfo);
                "-r"; "near"; inputAnglesFile; vrtName] ;;
    ret vrtName
  else ret inputAnglesFile.

(** Lines 191-192. *)
Definition bandList : list string :=
  ["B01"; "B02"; "B03"; "B04"; "B05"; "B06"; "B07"; "B08"; "B8A";
   "B09"; "B10"; "B11"; "B12"].

Definition bandPattern (imgDir band : string) : string :=
  imgDir ++ "/*_" ++ band ++ ".jp2".

Definition bandPrefix (band : string) : string := "tmp_" ++ band ++ "_".

(** Lines 196-210: the body of the loop over the bands; it returns the
    name that the loop appends to [resampledBands]. *)
Definition resampleBand (cmdargs : Cmdargs) (imgDir band : string)
  : M string :=
  tmpBand <- mkstemp (Some (tempdir cmdargs)) (bandPrefix band) ".vrt" ;;
  inBandImgList <- glob (bandPattern imgDir band) ;;
  match inBandImgList with
  | [inBandImg] =>
      resampleMethod <- chooseResampleMethod (pixsize cmdargs) inBandImg ;;
      check_call [GDALWARPCMD env; "-q"; "-tr"; str_int (pixsize cmdargs);
                  str_int (pixsize cmdargs); "-co"; "TILED=YES"; "-of"; "VRT";
                  "-r"; resampleMethod; inBandImg; tmpBand] ;;
      ret tmpBand
  | _ => raise (FmaskFileError ("Cannot find input band " ++ band))
  end.

(** Lines 194-210: [for band in bandList], with [resampledBands] as
    the accumulator. *)
Fixpoint resampleBands (cmdargs : Cmdargs) (imgDir : string)
  (bands : list string) (resampledBands : list string) : M (list string) :=
  match bands with
  | [] => ret resampledBands
  | band :: rest =>
      tmpBand <- resampleBand cmdargs imgDir band ;;
      resampleBands cmdargs imgDir rest (resampledBands ++ [tmpBand])%list
  end.

(** Lines 224-225: [for fn in resampledBands: os.remove(fn)]. *)
Fixpoint removeEach (l : list string) : M unit :=
  match l with
  | [] => ret tt
  | fn :: rest => os_remove fn ;; removeEach rest
  end.

(** Lines 163-227.  The function mutates [cmdargs]; the embedding
    returns the namespace as the function leaves it. *)
Definition makeStackAndAngles (cmdargs : Cmdargs)
  : M (list string * Cmdargs) :=
  cmdargs <-
    match granuledir cmdargs, safedir cmdargs with
    | None, Some sd =>
        g <- findGranuleDir sd ;; ret (set_granuledir cmdargs (Some g))
    | _, _ => ret cmdargs
    end ;;
  gdalmergeCmd <-
    match find_executable env "gdal_merge.py" with
    | Some c => ret c
    | None =>
        raise (FmaskInstallationError
          "Unable to find gdal_merge.py command. Check installation of GDAL package. ")
    end ;;
  anglesfile <- mkstemp (Some (tempdir cmdargs)) "angles_tmp_" ".img" ;;
  xmlfile <- findGranuleXml (fmt (granuledir cmdargs)) ;;
  when (verbose cmdargs) (print "Making angles image") ;;
  call_makeAngles xmlfile anglesfile ;;
  let cmdargs := set_anglesfile cmdargs (Some anglesfile) in
  let imgDir := fmt (granuledir cmdargs) ++ "/IMG_DATA" in
  resampledBands <- resampleBands cmdargs imgDir bandList [] ;;
  when (verbose cmdargs)
    (print ("Making stack of all bands, at " ++ str_int (pixsize cmdargs)
            ++ "m pixel size")) ;;
  tmpStack <- mkstemp (Some (tempdir cmdargs)) "tmp_allbands_" ".img" ;;
  let cmdargs := set_toa cmdargs (Some tmpStack) in
  check_call ([sys_executable env; gdalmergeCmd; "-q"; "-of";
               DEFAULTDRIVERNAME env] ++ CMDLINECREATIONOPTIONS
              ++ ["-separate"; "-o"; fmt (toa cmdargs)] ++ resampledBands)%list ;;
  removeEach resampledBands ;;
  ret (resampledBands, cmdargs).

Definition is_some {A} (o : option A) : bool :=
  match o with Some _ => true | None => false end.

(** Lines 119-133: the checks of [getCmdargs] on the parsed namespace.
    The parsing itself is [argparse]'s; its result is the argument. *)
Definition getCmdargs (cmdargs : Cmdargs) : M Cmdargs :=
  let safeDirGiven := is_some (safedir cmdargs) in
  let granuleDirGiven := is_some (granuledir cmdargs) in
  if granuleDirGiven && safeDirGiven then
    print "Only give one of --safedir or --granuledir. The --granuledir is only " ;;
    print "required for multi-tile zipfiles in the old ESA format" ;;
    raise (SystemExit 1)
  else
    let stackAnglesGiven :=
      is_some (toa cmdargs) && is_some (anglesfile cmdargs) in
    let multipleInputGiven :=
      (safeDirGiven || granuleDirGiven) && stackAnglesGiven in
    let inputGiven := safeDirGiven || granuleDirGiven || stackAnglesGiven in
    if negb (is_some (output cmdargs)) || multipleInputGiven || negb inputGiven
    then log EPrintHelp ;; raise (SystemExit 1)
    else ret cmdargs.

(** Lines 326-328: [for fn in ...: if os.path.exists(fn): os.remove(fn)]. *)
Fixpoint removeExisting (l : list string) : M unit :=
  match l with
  | [] => ret tt
  | fn :: rest =>
      present <- path_exists fn ;;
      when present (os_remove fn) ;;
      removeExisting rest
  end.

(** A file name argument that must be a string by the time it is used. *)
Definition the (o : option string) : M string :=
  match o with
  | Some p => ret p
  | None => raise TypeError
  end.

(** [int(x)] on a float: the value cut towards zero; an infinity and
    a NaN have no integer. *)
Definition int_of_float (x : PyFloat) : Result Z :=
  match x with
  | Finite q => Ok (Z.quot (Qnum q) (Zpos (Qden q)))
  | Infinity _ => Raise OverflowError
  | NaN => Raise ValueError
  end.

(** [int(a / b)] for a float [a] and a finite float [b]: a zero
    divisor ends the division, whatever [a] is. *)
Definition int_div (a : PyFloat) (b : Q) : M Z :=
  if Qeq_bool b 0 then raise ZeroDivisionError
  else fun s => (int_of_float (fdiv a b), s).

(** Lines 285-328. *)
Definition mainRoutine (argv : Cmdargs) : M unit :=
  cmdargs <- getCmdargs argv ;;
  let tempStack := is_some (safedir cmdargs) || is_some (granuledir cmdargs) in
  cmdargs <-
    (if tempStack
     then r <- makeStackAndAngles cmdargs ;; ret (snd r)
     else ret cmdargs) ;;
  inputAngles <- the (anglesfile cmdargs) ;;
  toafile <- the (toa cmdargs) ;;
  anglesfile' <- checkAnglesFile inputAngles toafile ;;
  let anglesInfo :=
    mkAnglesFileInfo anglesfile' 3 anglesfile' 2 anglesfile' 1 anglesfile' 0 in
  let fmaskFilenames := mkFmaskFilenames (toa cmdargs) (output cmdargs) in
  toaImgInfo <- ImageInfo_open toafile ;;
  cloudBuf <- int_div (cloudbufferdistance cmdargs) (xRes toaImgInfo) ;;
  shadowBuf <- int_div (shadowbufferdistance cmdargs) (xRes toaImgInfo) ;;
  let fmaskConfig :=
    mkFmaskConfig anglesInfo (keepintermediates cmdargs) (verbose cmdargs)
      (tempdir cmdargs) (10000 # 1)
      (mincloudsize cmdargs) (fdiv (cloudprobthreshold cmdargs) (100 # 1))
      (nirsnowthreshold cmdargs) (greensnowthreshold cmdargs)
      (parallaxtest cmdargs) cloudBuf shadowBuf in
  call_doFmask fmaskFilenames fmaskConfig ;;
  when (negb (String.eqb anglesfile' inputAngles)) (os_remove anglesfile') ;;
  when (tempStack && negb (keepintermediates cmdargs))
    (removeExisting [toafile; inputAngles]).

End Script.

(** ** Reading a trace *)

(** The paths the script itself deleted. *)
Fixpoint removed (tr : list Event) : list string :=
  match tr with
  | [] => []
  | ERemove p :: rest => p :: removed rest
  | _ :: rest => removed rest
  end.

(** The temporary files the script created, with the directory, prefix
    and suffix it asked for. *)
Fixpoint created (tr : list Event) : list Event :=
  match tr with
  | [] => []
  | EMkstemp d pre suf p :: rest => EMkstemp d pre suf p :: created rest
  | _ :: rest => created rest
  end.

Definition event_path (e : Event) : option string :=
  match e with
  | EMkstemp _ _ _ p => Some p
  | ERemove p => Some p
  | _ => None
  end.

Definition is_path (p : string) (e : Event) : bool :=
  match event_path e with
  | Some q => String.eqb p q
  | None => false
  end.

(** The temporary files the script created and has not deleted since:
    a creation enters the list, a later removal of the same path takes
    it out. *)
Fixpoint leftover_from (acc : list Event) (tr : list Event) : list Event :=
  match tr with
  | [] => acc
  | EMkstemp d pre suf p :: rest =>
      leftover_from (acc ++ [EMkstemp d pre suf p])%list rest
  | ERemove p :: rest =>
      leftover_from (filter (fun e => negb (is_path p e)) acc) rest
  | _ :: rest => leftover_from acc rest
  end.

Definition leftover (tr : list Event) : list Event := leftover_from [] tr.

(** The external commands run, in order. *)
Fixpoint calls (tr : list Event) : list (list string) :=
  match tr with
  | [] => []
  | ECheckCall argv :: rest => argv :: calls rest
  | _ :: rest => calls rest
  end.

(** The events a run added to the trace it started from. *)
Definition added (s s' : State) : list Event :=
  skipn (List.length (trace s)) (trace s').

(** ** A concrete scene

    One Sentinel-2 archive in the current single-tile layout, with the
    thirteen bands at their native pixel sizes, and tools that behave:
    every GDAL command writes a raster at 20 m to its output, the angle
    computation writes the 5000 m grid of the metadata. *)
Module Scene.

Fixpoint split_on (sep : ascii) (s : string) : list string :=
  match s with
  | EmptyString => [EmptyString]
  | String c rest =>
      if Ascii.eqb c sep then EmptyString :: split_on sep rest
      else match split_on sep rest with
           | [] => [String c EmptyString]
           | seg :: segs => String c seg :: segs
           end
  end.

(** The directory search of the scene.  Its paths are absolute and
    normalised and its patterns use [*] only, so that a pattern is
    matched component by component, [*] standing for any run of
    characters within one component. *)
Fixpoint wild (p s : string) {struct p} : bool :=
  match p with
  | EmptyString => match s with EmptyString => true | _ => false end
  | String c p' =>
      if Ascii.eqb c "*" then
        (fix star (t : string) : bool :=
           wild p' t || match t with
                        | EmptyString => false
                        | String _ t' => star t'
                        end) s
      else match s with
           | EmptyString => false
           | String d s' =>
               (Ascii.eqb c "?" || Ascii.eqb c d) && wild p' s'
           end
  end.

Definition starts_with_dot (s : string) : bool :=
  match s with
  | String c _ => Ascii.eqb c "."
  | EmptyString => false
  end.

(** A name with a leading dot is only matched by a pattern that has
    one too. *)
Definition segment_match (p s : string) : bool :=
  (negb (starts_with_dot s) || starts_with_dot p) && wild p s.

Fixpoint segments_match (ps ss : list string) : bool :=
  match ps, ss with
  | [], [] => true
  | p :: ps', s :: ss' => segment_match p s && segments_match ps' ss'
  | _, _ => false
  end.

Definition glob_match (pattern path : string) : bool :=
  segments_match (split_on "/" pattern) (split_on "/" path).

(** What [glob.glob] returns in the scene: the listed paths that the
    pattern matches, in listing order. *)
Definition listing (pattern : string) (f : FS) : list string :=
  filter (glob_match pattern) (files f).

Definition grid (res : Z) : ImageInfo :=
  mkImageInfo (inject_Z res) (inject_Z res) 0 0 (109800 # 1) (109800 # 1).

Definition decimal (n : nat) : string :=
  DecimalString.NilZero.string_of_uint (Nat.to_uint n).

Definition granule : string := "/data/S2A.SAFE/GRANULE/L1C_T55HBU".

Definition band_file (band : string) : string :=
  granule ++ "/IMG_DATA/T55HBU_" ++ band ++ ".jp2".

Definition native_size : list (string * Z) :=
  [("B01", 60); ("B02", 10); ("B03", 10); ("B04", 10); ("B05", 20);
   ("B06", 20); ("B07", 20); ("B08", 10); ("B8A", 20); ("B09", 60);
   ("B10", 60); ("B11", 20); ("B12", 20)]%Z.

Definition disk : FS :=
  mkFS (granule :: (granule ++ "/MTD_TL.xml")
          :: map (fun b => band_file (fst b)) native_size)
       (map (fun b => (band_file (fst b), grid (snd b))) native_size).

Definition write_image (out : string) (i : ImageInfo) (f : FS) : FS :=
  mkFS (if mem out (files f) then files f else (files f ++ [out])%list)
       ((out, i) :: images f).

(** The output of a GDAL command line: what follows [-o], else the
    last argument. *)
Fixpoint output_of (argv : list string) : option string :=
  match argv with
  | [] => None
  | x :: rest =>
      match rest with
      | [] => Some x
      | y :: _ => if String.eqb x "-o" then Some y else output_of rest
      end
  end.

Definition gdal (argv : list string) (f : FS) : Z * FS :=
  match output_of argv with
  | Some out => (0%Z, write_image out (grid 20) f)
  | None => (2%Z, f)
  end.

Definition angles_tool (xmlfile out : string) (f : FS) : option Exn * FS :=
  (None, write_image out (grid 5000) f).

Definition fmask_ok (fn : FmaskFilenames) (cfg : FmaskConfig) (f : FS)
  : option Exn * FS :=
  (None, write_image (fmt (outputMask fn)) (grid 20) f).


Definition which (name : string) : option string :=
  Some ("/usr/bin/" ++ name).

(** In the scene every path has one spelling, the temporary
    directories are absolute, exist and are writable, and a file that
    exists can be deleted. *)
Definition env_with (alg : FmaskFilenames -> FmaskConfig -> FS -> option Exn * FS)
  : Env :=
  mkEnv "/usr/bin/gdalwarp" which "/usr/bin/python3" "HFA"
        [("HFA", ["COMPRESSED=TRUE"; "IGNOREUTM=TRUE"])]
        "/tmp" decimal (fun q => str_int (Qnum q)) gdal angles_tool alg
        listing (fun _ _ => false) (fun _ _ => None) (fun _ _ => None)
        (fun d => d ++ "/") (Z.to_nat 10000).

Definition env : Env := env_with fmask_ok.


Definition start (f : FS) : State := mkState f 0 [].

Definition from_safedir : Cmdargs :=
  mkCmdargs (Some "/data/S2A.SAFE") None None None (Some "/out/cloud.img")
            false 20 false "/scratch/run1" 0 (Finite 150) (Finite 300)
            (Finite 20) (round64 (11 # 100)) (round64 (1 # 10)) false.

(** The same archive with a second file for band B02. *)
Definition disk_two_B02 : FS :=
  mkFS (files disk ++ [band_file "copy_B02"])%list (images disk).

(** An archive with two granules. *)
Definition disk_two_granules : FS :=
  mkFS ("/data/S2A.SAFE/GRANULE/L1C_T55HBV" :: files disk) (images disk).

(** A granule of the old layout: no [MTD_TL.xml], one other XML file. *)
Definition disk_old_layout : FS :=
  mkFS [granule; granule ++ "/S2A_OPER_MTD_L1C_TL.xml"] [].

(** A stack and an angles raster supplied by the caller, on the same
    grid, and the same stack with angles on the coarse grid of the
    metadata. *)
Definition supplied : FS :=
  mkFS ["/in/toa.img"; "/in/angles.img"]
       [("/in/toa.img", grid 20); ("/in/angles.img", grid 20)].

Definition supplied_coarse : FS :=
  mkFS ["/in/toa.img"; "/in/angles.img"]
       [("/in/toa.img", grid 20); ("/in/angles.img", grid 5000)].

Definition from_files : Cmdargs :=
  mkCmdargs None None (Some "/in/toa.img") (Some "/in/angles.img")
            (Some "/out/cloud.img") false 20 false "/scratch/run1" 0
            (Finite 150) (Finite 300) (Finite 20) (round64 (11 # 100))
            (round64 (1 # 10)) false.

(** Two rasters with the same x pixel size and different y pixel
    sizes. *)
Definition skewed : FS :=
  mkFS ["/in/square.jp2"; "/in/oblong.jp2"]
       [("/in/square.jp2", mkImageInfo 20 20 0 0 1000 1000);
        ("/in/oblong.jp2", mkImageInfo 20 60 0 0 1000 3000)].

(** The run of [makeStackAndAngles] on the archive, and what it
    returns. *)
Definition built : Result (list string * Cmdargs) * State :=
  makeStackAndAngles env from_safedir (start disk).

Definition built_bands : list string :=
  match fst built with
  | Ok (bands, _) => bands
  | Raise _ => []
  end.

Definition built_args : Cmdargs :=
  match fst built with
  | Ok (_, cmdargs) => cmdargs
  | Raise _ => from_safedir
  end.

(** The tools of the scene on a machine where [gdal_merge.py] is not
    installed. *)
Definition env_without_merge : Env :=
  mkEnv "/usr/bin/gdalwarp" (fun _ => None) "/usr/bin/python3" "HFA"
        [("HFA", ["COMPRESSED=TRUE"; "IGNOREUTM=TRUE"])]
        "/tmp" decimal (fun q => str_int (Qnum q)) gdal angles_tool fmask_ok
        listing (fun _ _ => false) (fun _ _ => None) (fun _ _ => None)
        (fun d => d ++ "/") (Z.to_nat 10000).

(** A supplied stack and angles raster without a geotransform: the
    pixel size reads as zero. *)
Definition supplied_flat : FS :=
  mkFS ["/in/toa.img"; "/in/angles.img"]
       [("/in/toa.img", grid 0); ("/in/angles.img", grid 0)].

(** A command line that names both an archive and a stack with its
    angles. *)
Definition from_both : Cmdargs :=
  mkCmdargs (Some "/data/S2A.SAFE") None (Some "/in/toa.img")
            (Some "/in/angles.img") (Some "/out/cloud.img") false 20 false
            "/scratch/run1" 0 (Finite 150) (Finite 300) (Finite 20)
            (round64 (11 # 100)) (round64 (1 # 10)) false.

End Scene.

(** ** Vocabulary of the statements *)

(** The run from [s] to [s'] appended the events [tr]. *)
Definition extends (s s' : State) (tr : list Event) : Prop :=
  trace s' = (trace s ++ tr)%list.

(** The directory [mkstemp] works in. *)
Definition temp_root (env : Env) (dir : option string) : string :=
  match dir with
  | Some d => d
  | None => gettempdir env
  end.

(** The [gdalwarp] command line of one band (lines 206-208). *)
Definition warp_argv (env : Env) (cmdargs : Cmdargs)
  (resampleMethod inBandImg tmpBand : string) : list string :=
  [GDALWARPCMD env; "-q"; "-tr"; str_int (pixsize cmdargs);
   str_int (pixsize cmdargs); "-co"; "TILED=YES"; "-of"; "VRT";
   "-r"; resampleMethod; inBandImg; tmpBand].

(** The [gdalwarp] command line that reconciles the angles
    (lines 154-157). *)
Definition reconcile_argv (env : Env) (toaImgInfo : ImageInfo)
  (inputAnglesFile vrtName : string) : list string :=
  [GDALWARPCMD env; "-q"; "-of"; "VRT"; "-tr";
   str_float env (xRes toaImgInfo); str_float env (yRes toaImgInfo);
   "-te"; str_float env (xMin toaImgInfo);
   str_float env (yMin toaImgInfo); str_float env (xMax toaImgInfo);
   str_float env (yMax toaImgInfo);
   "-r"; "near"; inputAnglesFile; vrtName].

(** The [gdal_merge.py] command line (lines 220-222). *)
Definition merge_argv (env : Env) (gdalmergeCmd stack : string)
  (resampledBands : list string) : list string :=
  ([sys_executable env; gdalmergeCmd; "-q"; "-of"; DEFAULTDRIVERNAME env]
     ++ CMDLINECREATIONOPTIONS env
     ++ ["-separate"; "-o"; stack] ++ resampledBands)%list.

(** [needle in haystack] *)
Fixpoint contains (needle haystack : string) : bool :=
  String.prefix needle haystack
  || match haystack with
     | EmptyString => false
     | String _ rest => contains needle rest
     end.

(** Two rasters have the same pixel size on both axes. *)
Definition same_pixel_size (a b : ImageInfo) : Prop :=
  (xRes a == xRes b)%Q /\ (yRes a == yRes b)%Q.

(** The exit status of an external command on a file system. *)
Definition exit_code (env : Env) (argv : list string) (f : FS) : Z :=
  fst (run_process env argv f).

(** What a completed pass of the band loop leaves in the trace: for
    each band identifier, in order, the creation of its intermediate in
    the temporary directory of the run, the search that found its one
    source image, and the [gdalwarp] call from that image to that
    intermediate with the method chosen from the pixel size of that
    image. *)
Inductive band_layers (env : Env) (cmdargs : Cmdargs) (imgDir : string)
  : list string -> list string -> list Event -> Prop :=
| layers_nil : band_layers env cmdargs imgDir [] [] []
| layers_cons (band tmpBand inBandImg : string) (k : nat) (f : FS)
    (imginfo : ImageInfo) (bands tmps : list string) (tr : list Event) :
    tmpBand = temp_path env (tempdir cmdargs) (bandPrefix band) ".vrt" k ->
    glob_glob env (bandPattern imgDir band) f = [inBandImg] ->
    image_of f inBandImg = Some imginfo ->
    band_layers env cmdargs imgDir bands tmps tr ->
    band_layers env cmdargs imgDir (band :: bands) (tmpBand :: tmps)
      ([EMkstemp (Some (tempdir cmdargs)) (bandPrefix band) ".vrt" tmpBand;
        EGlob (bandPattern imgDir band) [inBandImg];
        ECheckCall (warp_argv env cmdargs
                      (resampleFor (pixsize cmdargs) (xRes imginfo))
                      inBandImg tmpBand)] ++ tr)%list.

(** What one pass through the loop body for [band] can leave in the
    trace, whatever its outcome [r]: nothing is deleted; a search was
    for this band, and a search that did not find exactly one file
    ended the pass with the error naming the band; a temporary file was
    asked for in the temporary directory of the run, with the prefix of
    the band; a command was a [gdalwarp] of one band; and a pass that
    returns has the shape of [band_layers]. *)
Definition band_facts (env : Env) (cmdargs : Cmdargs) (imgDir band : string)
  (r : Result string) (tr : list Event) : Prop :=
  removed tr = []
  /\ (forall pat found, In (EGlob pat found) tr ->
        pat = bandPattern imgDir band
        /\ (List.length found <> 1%nat ->
            r = Raise (FmaskFileError ("Cannot find input band " ++ band))))
  /\ (forall d pre suf p, In (EMkstemp d pre suf p) tr ->
        d = Some (tempdir cmdargs) /\ pre = bandPrefix band /\ suf = ".vrt")
  /\ (forall argv, In (ECheckCall argv) tr ->
        exists m img tmp, argv = warp_argv env cmdargs m img tmp)
  /\ (forall tmp, r = Ok tmp ->
        band_layers env cmdargs imgDir [band] [tmp] tr).

(** What the band loop leaves in the trace, whatever its outcome. *)
Definition loop_facts (env : Env) (cmdargs : Cmdargs) (imgDir : string)
  (bands acc : list string) (r : Result (list string)) (tr : list Event)
  : Prop :=
  removed tr = []
  /\ (forall pat found, In (EGlob pat found) tr ->
        exists band,
          In band bands /\ pat = bandPattern imgDir band
          /\ (List.length found <> 1%nat ->
              r = Raise (FmaskFileError ("Cannot find input band " ++ band))))
  /\ (forall d pre suf p, In (EMkstemp d pre suf p) tr ->
        exists band,
          In band bands /\ d = Some (tempdir cmdargs)
          /\ pre = bandPrefix band /\ suf = ".vrt")
  /\ (forall argv, In (ECheckCall argv) tr ->
        exists m img tmp, argv = warp_argv env cmdargs m img tmp)
  /\ (forall rs, r = Ok rs ->
        exists new, rs = (acc ++ new)%list
                    /\ band_layers env cmdargs imgDir bands new tr).

(** The events of [makeStackAndAngles] before the band loop that touch
    no temporary file: the searches for the granule and its metadata,
    the angle computation, and messages. *)
Definition quiet_event (e : Event) : Prop :=
  match e with
  | EGlob pat _ => (exists x, pat = x ++ "*") \/ (exists x, pat = x ++ ".xml")
  | EMakeAngles _ _ => True
  | EPrint _ => True
  | _ => False
  end.

(** The events of [makeStackAndAngles] before the band loop: the quiet
    ones and the creation of the angles file. *)
Definition prelude_event (cmdargs : Cmdargs) (e : Event) : Prop :=
  match e with
  | EMkstemp d pre suf _ =>
      d = Some (tempdir cmdargs) /\ pre = "angles_tmp_" /\ suf = ".img"
  | _ => quiet_event e
  end.

Definition print_only (tr : list Event) : Prop :=
  Forall (fun e => exists line, e = EPrint line) tr.

(** The stack and the angles file named in the namespace. *)
Definition own_inputs (cmdargs : Cmdargs) (p : string) : Prop :=
  toa cmdargs = Some p \/ anglesfile cmdargs = Some p.

(** What lines 325-328 do at the end of a run that got there: they
    create nothing; they delete only the stack and the angles file of a
    run that built them and was not asked to keep them; and after them
    neither exists in such a run. *)
Definition cleanup_facts (tempStack : bool) (cmdargs : Cmdargs) (s' : State)
  (tr : list Event) : Prop :=
  created tr = []
  /\ (forall p, In p (removed tr) ->
        tempStack = true /\ keepintermediates cmdargs = false
        /\ own_inputs cmdargs p)
  /\ (tempStack = true -> keepintermediates cmdargs = false ->
      forall p, own_inputs cmdargs p -> mem p (files (fs s')) = false).

(** The namespace [c'] and the state [sS] with which a run of
    [mainRoutine] on [argv] from [s] comes to check the angles: those
    it started with when the files were supplied, those that
    [makeStackAndAngles] left when it built them. *)
Definition comes_to_check (env : Env) (argv : Cmdargs) (s : State)
  (c' : Cmdargs) (sS : State) : Prop :=
  (is_some (safedir argv) || is_some (granuledir argv) = false
   /\ c' = argv /\ sS = s)
  \/ (is_some (safedir argv) || is_some (granuledir argv) = true
      /\ exists rs, makeStackAndAngles env argv s = (Ok (rs, c'), sS)).

(** Deleting a file never fails for a reason other than the file
    not being there. *)
Definition no_remove_errors (env : Env) : Prop :=
  forall p f, remove_error env p f = None.

(** What follows the reconciliation of the angles in [mainRoutine],
    [vrts] being the reconciled angles (none or one).  Nothing is
    created.  What is deleted is the reconciled angles or, in a run
    that built the stack and was not asked to keep it, the stack and
    the angles file.  The events are the call of the algorithm and
    then deletions only.  A run that fails has deleted nothing, unless
    a deletion itself fails on a file that exists.  A run that returns
    has called the algorithm, then deleted the reconciled angles, then
    done the final cleanup. *)
Definition rest_facts (env : Env) (tempStack : bool) (cmdargs : Cmdargs)
  (s' : State) (r : Result unit) (vrts : list string) (tr : list Event)
  : Prop :=
  created tr = []
  /\ (forall p, In p (removed tr) ->
        In p vrts
        \/ (tempStack = true /\ keepintermediates cmdargs = false
            /\ own_inputs cmdargs p))
  /\ (tr = []
      \/ exists fn cfg done, tr = EDoFmask fn cfg :: map ERemove done)
  /\ (forall e, r = Raise e -> no_remove_errors env -> removed tr = [])
  /\ (r = Ok tt ->
      exists fn cfg trX,
        tr = ([EDoFmask fn cfg] ++ map ERemove vrts ++ trX)%list
        /\ cleanup_facts tempStack cmdargs s' trX).

(** ** A logic of traces

    [hoare P m Q]: every event that a run of [m] appends to the trace
    satisfies [P], and a value it returns satisfies [Q]. *)
Definition hoare {A} (P : Event -> Prop) (m : M A) (Q : A -> Prop) : Prop :=
  forall s r s',
    m s = (r, s') ->
    (exists tr, extends s s' tr /\ Forall P tr)
    /\ (forall a, r = Ok a -> Q a).

(** The name of an intermediate of a band: a temporary name in the
    temporary directory of the run, with the prefix of a band of
    [bandList] and the suffix of a virtual raster. *)
Definition band_temp (env : Env) (cmdargs : Cmdargs) (p : string) : Prop :=
  exists band k,
    In band bandList
    /\ p = temp_path env (tempdir cmdargs) (bandPrefix band) ".vrt" k.

(** The two commands of [makeStackAndAngles]: the [gdalwarp] of one
    band, and the merge run through the located [gdal_merge.py]. *)
Definition stack_command (env : Env) (cmdargs : Cmdargs)
  (argv : list string) : Prop :=
  (exists m img tmp, argv = warp_argv env cmdargs m img tmp)
  \/ (exists merge stack bands,
        find_executable env "gdal_merge.py" = Some merge
        /\ argv = merge_argv env merge stack bands).

(** What [makeStackAndAngles] may leave in the trace. *)
Definition stack_event (env : Env) (cmdargs : Cmdargs) (e : Event) : Prop :=
  match e with
  | EGlob _ _ => True
  | EMkstemp d pre suf p =>
      d = Some (tempdir cmdargs)
      /\ exists k, p = temp_path env (tempdir cmdargs) pre suf k
  | ERemove p => band_temp env cmdargs p
  | ECheckCall argv => stack_command env cmdargs argv
  | EMakeAngles _ _ => True
  | EPrint line =>
      verbose cmdargs = true
      /\ (line = "Making angles image"
          \/ line = "Making stack of all bands, at "
                    ++ str_int (pixsize cmdargs) ++ "m pixel size")
  | EDoFmask _ _ => False
  | EPrintHelp => False
  end.

(** What [mainRoutine] may leave in the trace before it calls the
    algorithm: the events of [makeStackAndAngles], the reconciliation
    of the angles, and the usage text. *)
Definition before_event (env : Env) (cmdargs : Cmdargs) (e : Event) : Prop :=
  match e with
  | EMkstemp None pre suf p =>
      pre = "angles" /\ suf = ".vrt"
      /\ exists k, p = temp_path env (gettempdir env) "angles" ".vrt" k
  | ECheckCall argv =>
      stack_command env cmdargs argv
      \/ exists ti a vrt, argv = reconcile_argv env ti a vrt
  | EPrint _ => True
  | EPrintHelp => True
  | _ => stack_event env cmdargs e
  end.

(** The options of the namespace that [makeStackAndAngles] leaves
    alone: every field but [granuledir], [toa] and [anglesfile]. *)
Definition same_options (c c' : Cmdargs) : Prop :=
  safedir c' = safedir c /\ output c' = output c /\ verbose c' = verbose c
  /\ pixsize c' = pixsize c
  /\ keepintermediates c' = keepintermediates c
  /\ tempdir c' = tempdir c /\ mincloudsize c' = mincloudsize c
  /\ cloudbufferdistance c' = cloudbufferdistance c
  /\ shadowbufferdistance c' = shadowbufferdistance c
  /\ cloudprobthreshold c' = cloudprobthreshold c
  /\ nirsnowthreshold c' = nirsnowthreshold c
  /\ greensnowthreshold c' = greensnowthreshold c
  /\ parallaxtest c' = parallaxtest c.

(** What lines 296-317 hand to the algorithm, read off the command
    line [argv]. *)
Definition algorithm_input (argv : Cmdargs) (fn : FmaskFilenames)
  (cfg : FmaskConfig) : Prop :=
  (safedir argv = None -> granuledir argv = None -> toaRef fn = toa argv)
  /\ outputMask fn = output argv
  /\ keepIntermediates cfg = keepintermediates argv
  /\ cfgVerbose cfg = verbose argv
  /\ cfgTempDir cfg = tempdir argv
  /\ TOARefScaling cfg = 10000 # 1
  /\ minCloudSize cfg = mincloudsize argv
  /\ Eqn17CloudProbThresh cfg = fdiv (cloudprobthreshold argv) (100 # 1)
  /\ Eqn20NirSnowThresh cfg = nirsnowthreshold argv
  /\ Eqn20GreenSnowThresh cfg = greensnowthreshold argv
  /\ sen2displacementTest cfg = parallaxtest argv
  /\ (exists anglesfile',
        anglesInfo cfg
        = mkAnglesFileInfo anglesfile' 3 anglesfile' 2 anglesfile' 1
            anglesfile' 0)
  /\ exists xres,
       ~ (xres == 0)%Q
       /\ int_of_float (fdiv (cloudbufferdistance argv) xres)
          = Ok (cloudBufferSize cfg)
       /\ int_of_float (fdiv (shadowbufferdistance argv) xres)
          = Ok (shadowBufferSize cfg).

(** The three ways to name the input of [getCmdargs], and how many of
    them a namespace uses. *)
Definition input_modes (c : Cmdargs) : nat :=
  ((if is_some (safedir c) then 1 else 0)
   + (if is_some (granuledir c) then 1 else 0)
   + (if is_some (toa c) && is_some (anglesfile c) then 1 else 0))%nat.

(** A deletion. *)
Definition is_removal (e : Event) : Prop := exists p, e = ERemove p.

(** A message on the terminal: a printed line or the usage text. *)
Definition is_message (e : Event) : Prop :=
  e = EPrintHelp \/ exists line, e = EPrint line.

(** [two_phase P R m]: the events that a run of [m] appends to the
    trace fall in two parts; every event of the first satisfies [P];
    the second is empty or satisfies [R]; and it is not empty in a run
    that returns. *)
Definition two_phase {A} (P : Event -> Prop) (R : list Event -> Prop)
  (m : M A) : Prop :=
  forall s r s',
    m s = (r, s') ->
    exists before after,
      extends s s' (before ++ after)%list
      /\ Forall P before
      /\ (after = [] \/ R after)
      /\ (forall a, r = Ok a -> after <> []).

(** The second part of a run of [mainRoutine]: the call of the
    algorithm on what lines 296-317 derive from [argv], and then
    deletions only. *)
Definition algorithm_phase (argv : Cmdargs) (after : list Event) : Prop :=
  exists fn cfg rest,
    after = EDoFmask fn cfg :: rest
    /\ algorithm_input argv fn cfg
    /\ Forall is_removal rest.

(** * Properties *)

(** ** The resample policy *)

Lemma Qgtb_true (a b : Q) : Qgtb a b = true <-> (b < a)%Q.
Proof.
  unfold Qgtb. split; intro H.
  - apply Qgt_alt. destruct (Qcompare a b); congruence.
  - apply Qgt_alt in H. rewrite H. reflexivity.
Qed.

Lemma resampleFor_near (outpixsize : Z) (inPixsize : Q) :
  resampleFor outpixsize inPixsize = "near"
  <-> (inject_Z outpixsize == inPixsize)%Q.
Proof.
  unfold resampleFor. rewrite <- Qeq_bool_iff.
  destruct (Qeq_bool (inject_Z outpixsize) inPixsize).
  - tauto.
  - destruct (Qgtb (inject_Z outpixsize) inPixsize); split; discriminate.
Qed.

Lemma resampleFor_average (outpixsize : Z) (inPixsize : Q) :
  resampleFor outpixsize inPixsize = "average"
  <-> (inPixsize < inject_Z outpixsize)%Q.
Proof.
  unfold resampleFor.
  destruct (Qeq_bool (inject_Z outpixsize) inPixsize) eqn:E.
  - apply Qeq_bool_iff in E. split; [discriminate|].
    intro H. rewrite E in H. exfalso. exact (Qlt_irrefl _ H).
  - rewrite <- Qgtb_true.
    destruct (Qgtb (inject_Z outpixsize) inPixsize); split;
      solve [reflexivity | discriminate].
Qed.

Lemma resampleFor_cubic (outpixsize : Z) (inPixsize : Q) :
  resampleFor outpixsize inPixsize = "cubic"
  <-> (inject_Z outpixsize < inPixsize)%Q.
Proof.
  unfold resampleFor.
  destruct (Qeq_bool (inject_Z outpixsize) inPixsize) eqn:E.
  - apply Qeq_bool_iff in E. split; [discriminate|].
    intro H. rewrite E in H. exfalso. exact (Qlt_irrefl _ H).
  - apply Qeq_bool_neq in E.
    destruct (Qgtb (inject_Z outpixsize) inPixsize) eqn:G.
    + apply Qgtb_true in G. split; [discriminate|].
      intro H. exfalso. exact (Qlt_irrefl _ (Qlt_trans _ _ _ H G)).
    + split; [intros _ | reflexivity].
      destruct (Qcompare_spec (inject_Z outpixsize) inPixsize) as [H|H|H].
      * contradiction.
      * exact H.
      * apply Qgtb_true in H. congruence.
Qed.

Lemma resampleFor_cases (outpixsize : Z) (inPixsize : Q) :
  resampleFor outpixsize inPixsize = "near"
  \/ resampleFor outpixsize inPixsize = "average"
  \/ resampleFor outpixsize inPixsize = "cubic".
Proof.
  unfold resampleFor.
  destruct (Qeq_bool _ _); [tauto|]. destruct (Qgtb _ _); tauto.
Qed.

Lemma resampleFor_compat (outpixsize : Z) (a b : Q) :
  (a == b)%Q -> resampleFor outpixsize a = resampleFor outpixsize b.
Proof.
  intro E. unfold resampleFor, Qgtb.
  assert (Hb : Qeq_bool (inject_Z outpixsize) a
               = Qeq_bool (inject_Z outpixsize) b).
  { destruct (Qeq_bool (inject_Z outpixsize) b) eqn:B.
    - apply Qeq_bool_iff. apply Qeq_bool_iff in B. rewrite E. exact B.
    - destruct (Qeq_bool (inject_Z outpixsize) a) eqn:A; [|reflexivity].
      apply Qeq_bool_iff in A. apply Qeq_bool_neq in B.
      rewrite E in A. contradiction. }
  rewrite Hb. rewrite E. reflexivity.
Qed.

Lemma chooseResampleMethod_run (outpixsize : Z) (inBandImg : string)
  (s : State) (imginfo : ImageInfo) :
  image_of (fs s) inBandImg = Some imginfo ->
  chooseResampleMethod outpixsize inBandImg s
  = (Ok (resampleFor outpixsize (xRes imginfo)), s).
Proof.
  intro H. unfold chooseResampleMethod, bind, ImageInfo_open, ret.
  rewrite H. reflexivity.
Qed.

(** C1: for an image whose native pixel size is known, the method
    returned by [chooseResampleMethod] is ["near"] exactly when the
    output size equals the native size, ["average"] exactly when the
    output size is strictly greater, and ["cubic"] exactly when it is
    strictly smaller; one of the three is always returned, and it is
    determined by the requested size and that one image alone. *)
Theorem chooseResampleMethod_partition :
  forall (outpixsize : Z) (inBandImg : string) (s : State)
         (imginfo : ImageInfo),
    image_of (fs s) inBandImg = Some imginfo ->
    exists method : string,
      chooseResampleMethod outpixsize inBandImg s = (Ok method, s)
      /\ (method = "near" <-> (inject_Z outpixsize == xRes imginfo)%Q)
      /\ (method = "average" <-> (xRes imginfo < inject_Z outpixsize)%Q)
      /\ (method = "cubic" <-> (inject_Z outpixsize < xRes imginfo)%Q)
      /\ (method = "near" \/ method = "average" \/ method = "cubic").
Proof.
  intros outpixsize inBandImg s imginfo H.
  exists (resampleFor outpixsize (xRes imginfo)).
  split; [apply chooseResampleMethod_run; exact H|].
  split; [apply resampleFor_near|].
  split; [apply resampleFor_average|].
  split; [apply resampleFor_cubic|].
  apply resampleFor_cases.
Qed.

Lemma chooseResampleMethod_partition_witness :
  image_of Scene.disk (Scene.band_file "B02") = Some (Scene.grid 10)
  /\ exists method : string,
      chooseResampleMethod 20 (Scene.band_file "B02") (Scene.start Scene.disk)
      = (Ok method, Scene.start Scene.disk)
      /\ (method = "near" <-> (inject_Z 20 == xRes (Scene.grid 10))%Q)
      /\ (method = "average" <-> (xRes (Scene.grid 10) < inject_Z 20)%Q)
      /\ (method = "cubic" <-> (inject_Z 20 < xRes (Scene.grid 10))%Q)
      /\ (method = "near" \/ method = "average" \/ method = "cubic").
Proof.
  split; [reflexivity|].
  apply (chooseResampleMethod_partition 20 (Scene.band_file "B02")
           (Scene.start Scene.disk) (Scene.grid 10)).
  reflexivity.
Defined.

(** The scenario of the specification: with 20 m requested, the 10 m
    bands are averaged, the 20 m bands taken as they are, the 60 m
    bands interpolated. *)
Example resample_scenario_20m :
  map (fun b => resampleFor 20 (inject_Z (snd b))) Scene.native_size
  = ["cubic"; "average"; "average"; "average"; "near"; "near"; "near";
     "average"; "near"; "cubic"; "cubic"; "near"; "near"].
Proof. reflexivity. Qed.

(** C10: the method depends on the x pixel size only.  Two rasters
    with the same x pixel size get the same method whatever their y
    pixel sizes, and a raster whose x pixel size equals the requested
    size gets ["near"] whatever its y pixel size. *)
Theorem chooseResampleMethod_ignores_yRes :
  forall (outpixsize : Z) (img1 img2 : string) (s1 s2 : State)
         (i1 i2 : ImageInfo),
    image_of (fs s1) img1 = Some i1 ->
    image_of (fs s2) img2 = Some i2 ->
    (xRes i1 == xRes i2)%Q ->
    fst (chooseResampleMethod outpixsize img1 s1)
    = fst (chooseResampleMethod outpixsize img2 s2)
    /\ ((inject_Z outpixsize == xRes i1)%Q ->
        fst (chooseResampleMethod outpixsize img1 s1) = Ok "near").
Proof.
  intros outpixsize img1 img2 s1 s2 i1 i2 H1 H2 E.
  rewrite (chooseResampleMethod_run _ _ _ _ H1).
  rewrite (chooseResampleMethod_run _ _ _ _ H2).
  simpl. split.
  - f_equal. apply resampleFor_compat. exact E.
  - intro N. f_equal. apply resampleFor_near. exact N.
Qed.

(** ** Strings *)

Lemma append_assoc (a b c : string) : (a ++ b) ++ c = a ++ (b ++ c).
Proof. induction a as [|x a IH]; simpl; [reflexivity | now rewrite IH]. Qed.

Lemma length_append (a b : string) :
  String.length (a ++ b) = (String.length a + String.length b)%nat.
Proof. induction a as [|x a IH]; simpl; [reflexivity | now rewrite IH]. Qed.

(** Two strings that end in tails of the same length agree on the
    tails and on what comes before. *)
Lemma append_cancel_r (a b x y : string) :
  a ++ x = b ++ y -> String.length x = String.length y -> a = b /\ x = y.
Proof.
  revert b. induction a as [|c a IH]; intros b E L.
  - destruct b as [|d b]; simpl in E.
    + split; [reflexivity | exact E].
    + exfalso. apply (f_equal String.length) in E. simpl in E.
      rewrite length_append in E. lia.
  - destruct b as [|d b]; simpl in E.
    + exfalso. apply (f_equal String.length) in E. simpl in E.
      rewrite length_append in E. lia.
    + injection E as -> E. destruct (IH b E L) as [-> ->]. now split.
Qed.

Lemma suffix_clash (a b x y : string) :
  String.length x = String.length y -> x <> y -> a ++ x <> b ++ y.
Proof.
  intros L N E. destruct (append_cancel_r a b x y E L) as [_ F]. contradiction.
Qed.

Lemma mem_true (p : string) (l : list string) : mem p l = true <-> In p l.
Proof.
  unfold mem. rewrite existsb_exists. split.
  - intros [q [I E]]. apply String.eqb_eq in E. now subst.
  - intro I. exists p. split; [exact I | apply String.eqb_refl].
Qed.

(** ** Traces *)

Lemma removed_app (a b : list Event) :
  removed (a ++ b) = (removed a ++ removed b)%list.
Proof.
  induction a as [|e a IH]; simpl; [reflexivity|].
  destruct e; simpl; rewrite IH; reflexivity.
Qed.

Lemma created_app (a b : list Event) :
  created (a ++ b) = (created a ++ created b)%list.
Proof.
  induction a as [|e a IH]; simpl; [reflexivity|].
  destruct e; simpl; rewrite IH; reflexivity.
Qed.

Lemma calls_app (a b : list Event) :
  calls (a ++ b) = (calls a ++ calls b)%list.
Proof.
  induction a as [|e a IH]; simpl; [reflexivity|].
  destruct e; simpl; rewrite IH; reflexivity.
Qed.

Lemma removed_map_ERemove (l : list string) : removed (map ERemove l) = l.
Proof. induction l as [|p l IH]; simpl; [reflexivity | now rewrite IH]. Qed.

Lemma created_map_ERemove (l : list string) : created (map ERemove l) = [].
Proof. induction l as [|p l IH]; simpl; [reflexivity | exact IH]. Qed.

(** The events a run appends are what [added] reads back. *)
Lemma added_app (s s' : State) (tr : list Event) :
  trace s' = (trace s ++ tr)%list -> added s s' = tr.
Proof.
  intro E. unfold added. rewrite E. clear E.
  induction (trace s) as [|e l IH]; simpl; [reflexivity | exact IH].
Qed.

(** ** The primitives *)

Lemma extends_refl (s : State) : extends s s [].
Proof. unfold extends. now rewrite app_nil_r. Qed.

Lemma extends_trans (s s1 s2 : State) (t1 t2 : list Event) :
  extends s s1 t1 -> extends s1 s2 t2 -> extends s s2 (t1 ++ t2).
Proof. unfold extends. intros E1 E2. rewrite E2, E1. now rewrite app_assoc. Qed.

Lemma bind_inv {A B} (m : M A) (k : A -> M B) (s s' : State) (r : Result B) :
  bind m k s = (r, s') ->
  (exists a s1, m s = (Ok a, s1) /\ k a s1 = (r, s'))
  \/ (exists e, m s = (Raise e, s') /\ r = Raise e).
Proof.
  unfold bind. destruct (m s) as [[a|e] s1]; intro H.
  - left. now exists a, s1.
  - right. injection H as <- <-. now exists e.
Qed.

Lemma bind_ok {A B} (m : M A) (k : A -> M B) (s s1 : State) (a : A) :
  m s = (Ok a, s1) -> bind m k s = k a s1.
Proof. unfold bind. now intros ->. Qed.

Lemma bind_raise {A B} (m : M A) (k : A -> M B) (s s1 : State) (e : Exn) :
  m s = (Raise e, s1) -> bind m k s = (Raise e, s1).
Proof. unfold bind. now intros ->. Qed.

Section Primitives.

Variable env : Env.

Lemma glob_run (pattern : string) (s : State) :
  glob env pattern s
  = (Ok (glob_glob env pattern (fs s)),
     mkState (fs s) (rng s)
       (trace s ++ [EGlob pattern (glob_glob env pattern (fs s))])).
Proof. reflexivity. Qed.

Lemma same_file_refl (p : string) : same_file env p p = true.
Proof. unfold same_file. now rewrite String.eqb_refl. Qed.

(** A path that is listed exists. *)
Lemma mem_exists_in (f : FS) (p : string) :
  mem p (files f) = true -> exists_in env f p = true.
Proof.
  unfold mem, exists_in. rewrite !existsb_exists.
  intros (q & I & E). apply String.eqb_eq in E. subst q.
  exists p. split; [exact I | apply same_file_refl].
Qed.

Lemma exists_in_false (f : FS) (p : string) :
  exists_in env f p = false -> mem p (files f) = false.
Proof.
  intro E. destruct (mem p (files f)) eqn:M; [|reflexivity].
  apply mem_exists_in in M. congruence.
Qed.

Lemma mkstemp_try_fresh (fuel : nat) (d pre suf : string) (n m : nat)
  (f : FS) (p : string) :
  mkstemp_try env fuel d pre suf n f = (Some p, m) ->
  exists_in env f p = false /\ exists k, p = temp_path env d pre suf k.
Proof.
  revert n. induction fuel as [|fuel IH]; simpl; intros n H; [discriminate|].
  destruct (exists_in env f (temp_path env d pre suf n)) eqn:E.
  - exact (IH _ H).
  - injection H as <- _. split; [exact E | now exists n].
Qed.

Lemma mkstemp_inv (dir : option string) (pre suf : string) (s s' : State)
  (r : Result string) :
  mkstemp env dir pre suf s = (r, s') ->
  (exists p, r = Ok p
     /\ extends s s' [EMkstemp dir pre suf p]
     /\ mem p (files (fs s)) = false
     /\ files (fs s') = (files (fs s) ++ [p])%list
     /\ images (fs s') = images (fs s)
     /\ exists k, p = temp_path env (temp_root env dir) pre suf k)
  \/ (exists e, r = Raise e /\ extends s s' [] /\ fs s' = fs s).
Proof.
  unfold mkstemp. fold (temp_root env dir).
  destruct (mkstemp_error env (temp_root env dir) (fs s)) as [e|].
  { intro H. injection H as <- <-. right. exists e.
    split; [reflexivity|]. split; [apply extends_refl | reflexivity]. }
  destruct (mkstemp_try env (TMP_MAX env) (temp_root env dir) pre suf (rng s)
              (fs s)) as [[p|] n] eqn:E; intro H;
    injection H as <- <-.
  - left. exists p. destruct (mkstemp_try_fresh _ _ _ _ _ _ _ _ E) as [F K].
    apply exists_in_false in F.
    repeat split; try assumption.
  - right. exists FileExistsError. repeat split.
    unfold extends. simpl. now rewrite app_nil_r.
Qed.

Lemma check_call_inv (argv : list string) (s s' : State) (r : Result unit) :
  check_call env argv s = (r, s') ->
  extends s s' [ECheckCall argv]
  /\ (r = Ok tt
      \/ exists code, r = Raise (CalledProcessError code argv)).
Proof.
  unfold check_call. destruct (run_process env argv (fs s)) as [code f].
  destruct (Z.eqb code 0); intro H; injection H as <- <-.
  - split; [reflexivity | now left].
  - split; [reflexivity | right; now exists code].
Qed.

Lemma os_remove_inv (path : string) (s s' : State) (r : Result unit) :
  os_remove env path s = (r, s') ->
  (r = Ok tt /\ extends s s' [ERemove path]
   /\ fs s' = fs_remove env path (fs s))
  \/ (exists e, r = Raise e /\ s' = s).
Proof.
  unfold os_remove. destruct (remove_error env path (fs s)) as [e|].
  { intro H. injection H as <- <-. right. now exists e. }
  destruct (exists_in env (fs s) path); intro H; injection H as <- <-.
  - left. repeat split.
  - right. eexists. now split.
Qed.

(** A file that exists can be deleted where deleting does not fail. *)
Lemma os_remove_ok (path : string) (s : State) :
  no_remove_errors env -> exists_in env (fs s) path = true ->
  os_remove env path s
  = (Ok tt, mkState (fs_remove env path (fs s)) (rng s)
              (trace s ++ [ERemove path])).
Proof. intros N E. unfold os_remove. now rewrite (N path (fs s)), E. Qed.

Lemma ImageInfo_open_inv (path : string) (s s' : State)
  (r : Result ImageInfo) :
  ImageInfo_open path s = (r, s') ->
  s' = s
  /\ ((exists i, r = Ok i /\ image_of (fs s) path = Some i)
      \/ (r = Raise (ImageOpenError (Some path))
          /\ image_of (fs s) path = None)).
Proof.
  unfold ImageInfo_open. destruct (image_of (fs s) path) as [i|] eqn:E;
    intro H; injection H as <- <-; split; try reflexivity.
  - left. now exists i.
  - right. now split.
Qed.

Lemma image_of_exists (f : FS) (path : string) (i : ImageInfo) :
  image_of f path = Some i -> mem path (files f) = true.
Proof. unfold image_of. now destruct (mem path (files f)). Qed.

Lemma call_makeAngles_inv (xmlfile out : string) (s s' : State)
  (r : Result unit) :
  call_makeAngles env xmlfile out s = (r, s') ->
  extends s s' [EMakeAngles xmlfile out].
Proof.
  unfold call_makeAngles. destruct (makeAngles env xmlfile out (fs s)) as [[e|] f];
    intro H; injection H as <- <-; reflexivity.
Qed.

Lemma call_doFmask_inv (fn : FmaskFilenames) (cfg : FmaskConfig)
  (s s' : State) (r : Result unit) :
  call_doFmask env fn cfg s = (r, s') ->
  extends s s' [EDoFmask fn cfg].
Proof.
  unfold call_doFmask. destruct (doFmask env fn cfg (fs s)) as [[e|] f];
    intro H; injection H as <- <-; reflexivity.
Qed.

End Primitives.

(** ** Archive discovery *)

Lemma findGranuleDir_run (env : Env) (safedir : string) (s : State) :
  findGranuleDir env safedir s
  = (match glob_glob env (safedir ++ "/GRANULE/L1C_*") (fs s) with
     | [] => Raise (FmaskFileError
                      ("Unable to find GRANULE sub-directory "
                       ++ (safedir ++ "/GRANULE/L1C_*")))
     | [g] => Ok g
     | l => Raise (FmaskFileError
                     ("Found multiple GRANULE sub-directories: " ++ join "," l))
     end,
     mkState (fs s) (rng s)
       (trace s ++ [EGlob (safedir ++ "/GRANULE/L1C_*")
                      (glob_glob env (safedir ++ "/GRANULE/L1C_*") (fs s))])).
Proof.
  unfold findGranuleDir, bind. rewrite glob_run.
  destruct (glob_glob _ _ _) as [|g [|g' l]]; reflexivity.
Qed.

Lemma getCmdargs_archive (argv : Cmdargs) (sd : string) (s : State) :
  safedir argv = Some sd ->
  granuledir argv = None ->
  is_some (output argv) = true ->
  is_some (toa argv) && is_some (anglesfile argv) = false ->
  getCmdargs argv s = (Ok argv, s).
Proof.
  intros Hs Hg Ho Ht. unfold getCmdargs. rewrite Hs, Hg, Ho, Ht. reflexivity.
Qed.

(** C4: granule discovery is decided by the number of paths that the
    search for the tile pattern under [GRANULE] returns, [found] being
    what [glob.glob] returns for that pattern, whatever the system
    makes of the pattern.  One path is returned as the granule; none
    fails with the message that no granule sub-directory was found;
    two or more fail with a message that lists every candidate.
    Discovery itself writes nothing, and when it fails the whole run
    stops there: the file system and the name generator are untouched
    and the only system call made is the directory search, so neither
    the angle computation nor any resampling was attempted. *)
Theorem findGranuleDir_total :
  forall (env : Env) (sd : string) (s : State),
    let pattern := sd ++ "/GRANULE/L1C_*" in
    let found := glob_glob env pattern (fs s) in
    (forall g, found = [g] -> fst (findGranuleDir env sd s) = Ok g)
    /\ (found = [] ->
        fst (findGranuleDir env sd s)
        = Raise (FmaskFileError
                   ("Unable to find GRANULE sub-directory " ++ pattern)))
    /\ ((2 <= List.length found)%nat ->
        fst (findGranuleDir env sd s)
        = Raise (FmaskFileError
                   ("Found multiple GRANULE sub-directories: "
                    ++ join "," found)))
    /\ snd (findGranuleDir env sd s)
       = mkState (fs s) (rng s) (trace s ++ [EGlob pattern found])
    /\ (forall argv : Cmdargs,
          safedir argv = Some sd ->
          granuledir argv = None ->
          is_some (output argv) = true ->
          is_some (toa argv) && is_some (anglesfile argv) = false ->
          List.length found <> 1%nat ->
          exists e,
            fst (findGranuleDir env sd s) = Raise e
            /\ mainRoutine env argv s
               = (Raise e,
                  mkState (fs s) (rng s) (trace s ++ [EGlob pattern found]))).
Proof.
  intros env sd s pattern found.
  pose proof (findGranuleDir_run env sd s) as R.
  fold pattern in R. fold found in R.
  repeat split.
  - intros g E. rewrite R, E. reflexivity.
  - intro E. rewrite R, E. reflexivity.
  - intro L. rewrite R. destruct found as [|g [|g' l]]; simpl in L; try lia.
    reflexivity.
  - rewrite R. reflexivity.
  - intros argv Hs Hg Ho Ht L.
    assert (F : exists e, fst (findGranuleDir env sd s) = Raise e).
    { rewrite R. destruct found as [|g [|g' l]]; simpl in *;
        solve [eexists; reflexivity | congruence]. }
    destruct F as [e F]. exists e. split; [exact F|].
    rewrite R in F. cbn [fst] in F. rewrite F in R.
    unfold mainRoutine.
    rewrite (bind_ok _ _ _ _ _ (getCmdargs_archive argv sd s Hs Hg Ho Ht)).
    rewrite Hs. cbn [is_some orb].
    apply bind_raise. apply bind_raise.
    unfold makeStackAndAngles. rewrite Hs, Hg.
    apply bind_raise. apply bind_raise.
    exact R.
Qed.

Lemma findGranuleXml_run (env : Env) (granuleDir : string) (s : State) :
  findGranuleXml env granuleDir s
  = if exists_in env (fs s) (granuleDir ++ "/MTD_TL.xml")
    then (Ok (granuleDir ++ "/MTD_TL.xml"), s)
    else (match glob_glob env (granuleDir ++ "/*.xml") (fs s) with
          | [x] => Ok x
          | _ => Raise (FmaskFileError
                          ("Unable to find XML file "
                           ++ (granuleDir ++ "/MTD_TL.xml")))
          end,
          mkState (fs s) (rng s)
            (trace s ++ [EGlob (granuleDir ++ "/*.xml")
                           (glob_glob env (granuleDir ++ "/*.xml") (fs s))])).
Proof.
  unfold findGranuleXml, bind, path_exists. cbv beta iota.
  destruct (exists_in _ _ _); cbn [negb]; [reflexivity|].
  rewrite glob_run. destruct (glob_glob _ _ _) as [|x [|x' l]]; reflexivity.
Qed.

(** C7: the metadata file is [MTD_TL.xml] of the granule directory
    when [os.path.exists] finds that file, under this spelling or
    another, and then no search is made.  Only when it is absent are
    the XML files of the directory searched, [found] being what
    [glob.glob] returns for [*.xml] there: a single path is the
    result, and none or several fail with an error that names the
    [MTD_TL.xml] it could not find.  Nothing is written either way. *)
Theorem findGranuleXml_canonical_first :
  forall (env : Env) (granuleDir : string) (s : State),
    let xmlfile := granuleDir ++ "/MTD_TL.xml" in
    let pattern := granuleDir ++ "/*.xml" in
    let found := glob_glob env pattern (fs s) in
    (exists_in env (fs s) xmlfile = true ->
     findGranuleXml env granuleDir s = (Ok xmlfile, s))
    /\ (exists_in env (fs s) xmlfile = false ->
        snd (findGranuleXml env granuleDir s)
        = mkState (fs s) (rng s) (trace s ++ [EGlob pattern found])
        /\ (forall x, found = [x] ->
              fst (findGranuleXml env granuleDir s) = Ok x)
        /\ (List.length found <> 1%nat ->
            fst (findGranuleXml env granuleDir s)
            = Raise (FmaskFileError ("Unable to find XML file " ++ xmlfile)))).
Proof.
  intros env granuleDir s xmlfile pattern found.
  pose proof (findGranuleXml_run env granuleDir s) as R.
  fold xmlfile in R. fold pattern in R. fold found in R.
  split; intro E; rewrite E in R; [exact R|].
  rewrite R. repeat split.
  - intros x F. cbn [fst]. rewrite F. reflexivity.
  - intro L. cbn [fst]. destruct found as [|x [|x' l]]; cbn [List.length] in L;
      solve [reflexivity | congruence].
Qed.

(** ** Reconciling the angles *)

Ltac step H :=
  let a := fresh "a" in
  let s1 := fresh "s" in
  let e := fresh "e" in
  let Hm := fresh "Hm" in
  let Hr := fresh "Hr" in
  apply bind_inv in H;
  destruct H as [(a & s1 & Hm & H) | (e & Hm & Hr)];
  [ | match type of Hr with
      | ?x = _ =>
          first [ is_var x; subst x | discriminate Hr
                | injection Hr as Hr; subst e | idtac ]
      end ].

Lemma grid_test (ti ai : ImageInfo) :
  negb (Qeq_bool (xRes ti) (xRes ai)) || negb (Qeq_bool (yRes ti) (yRes ai))
  = false <-> same_pixel_size ti ai.
Proof.
  unfold same_pixel_size. rewrite <- !Qeq_bool_iff.
  destruct (Qeq_bool (xRes ti) (xRes ai)), (Qeq_bool (yRes ti) (yRes ai));
    cbn; intuition congruence.
Qed.

Lemma checkAnglesFile_same (env : Env) (a t : string) (s : State)
  (ti ai : ImageInfo) :
  image_of (fs s) t = Some ti ->
  image_of (fs s) a = Some ai ->
  same_pixel_size ti ai ->
  checkAnglesFile env a t s = (Ok a, s).
Proof.
  intros Ht Ha G. apply grid_test in G.
  unfold checkAnglesFile, bind, ImageInfo_open.
  rewrite Ht, Ha, G. reflexivity.
Qed.

Lemma checkAnglesFile_differ (env : Env) (a t : string) (s s' : State)
  (ti ai : ImageInfo) (r : Result string) :
  image_of (fs s) t = Some ti ->
  image_of (fs s) a = Some ai ->
  ~ same_pixel_size ti ai ->
  checkAnglesFile env a t s = (r, s') ->
  ((exists e, r = Raise e
              /\ mkstemp env None "angles" ".vrt" s = (Raise e, s'))
   /\ extends s s' [])
  \/ exists vrt,
       vrt <> a /\ vrt <> t
       /\ mem vrt (files (fs s)) = false
       /\ (exists k, vrt = temp_path env (gettempdir env) "angles" ".vrt" k)
       /\ extends s s' [EMkstemp None "angles" ".vrt" vrt;
                        ECheckCall (reconcile_argv env ti a vrt)]
       /\ let code :=
            exit_code env (reconcile_argv env ti a vrt)
              (mkFS (files (fs s) ++ [vrt]) (images (fs s))) in
          (code = 0%Z /\ r = Ok vrt)
          \/ (code <> 0%Z
              /\ r = Raise (CalledProcessError code
                              (reconcile_argv env ti a vrt))).
Proof.
  intros Ht Ha G H.
  assert (B : negb (Qeq_bool (xRes ti) (xRes ai))
              || negb (Qeq_bool (yRes ti) (yRes ai)) = true).
  { destruct (negb _ || negb _) eqn:E; [reflexivity|].
    apply grid_test in E. contradiction. }
  unfold checkAnglesFile in H.
  rewrite (bind_ok _ _ s s ti) in H
    by (unfold ImageInfo_open; now rewrite Ht).
  rewrite (bind_ok _ _ s s ai) in H
    by (unfold ImageInfo_open; now rewrite Ha).
  rewrite B in H.
  step H.
  - apply mkstemp_inv in Hm.
    destruct Hm as [(p & Ep & X & F & Fs & Im & K) | (e & Ep & _)];
      [|discriminate].
    injection Ep as ->. right. exists p.
    assert (Na : p <> a).
    { intros ->. apply image_of_exists in Ha. congruence. }
    assert (Nt : p <> t).
    { intros ->. apply image_of_exists in Ht. congruence. }
    split; [exact Na|]. split; [exact Nt|]. split; [exact F|].
    split; [exact K|].
    fold (reconcile_argv env ti a p) in H.
    unfold bind, check_call, ret in H. unfold exit_code.
    assert (Efs : fs s0 = mkFS (files (fs s) ++ [p]) (images (fs s))).
    { destruct (fs s0) as [fl im]. cbn in Fs, Im. now subst. }
    rewrite <- Efs.
    destruct (run_process env (reconcile_argv env ti a p) (fs s0))
      as [code f] eqn:R.
    cbn [fst]. destruct (Z.eqb code 0) eqn:C; injection H as <- <-.
    + split.
      * unfold extends in *. cbn [trace]. rewrite X.
        now rewrite <- app_assoc.
      * left. split; [now apply Z.eqb_eq | reflexivity].
    + split.
      * unfold extends in *. cbn [trace]. rewrite X.
        now rewrite <- app_assoc.
      * right. split; [now apply Z.eqb_neq | reflexivity].
  - pose proof (mkstemp_inv _ _ _ _ _ _ _ Hm) as Hi.
    destruct Hi as [(p & Ep & _) | (e' & Ep & X & _)]; [discriminate|].
    injection Ep as <-. left. split; [|exact X].
    exists e. split; [reflexivity | exact Hm].
Qed.

(** ** The band loop *)

Ltac in_cases H :=
  repeat (destruct H as [H|H]); try discriminate H; try contradiction H.

Section Bands.

Variable env : Env.
Variable cmdargs : Cmdargs.
Variable imgDir : string.

Lemma band_facts_nil (band : string) (e : Exn) :
  band_facts env cmdargs imgDir band (Raise e) [].
Proof.
  unfold band_facts. split; [reflexivity|].
  split; [intros pat found []|]. split; [intros d pre suf p []|].
  split; [intros argv []|]. intros tmp H. discriminate H.
Qed.

Lemma band_facts_search (band p : string) (found : list string) (e : Exn) :
  (List.length found <> 1%nat ->
   e = FmaskFileError ("Cannot find input band " ++ band)) ->
  band_facts env cmdargs imgDir band (Raise e)
    [EMkstemp (Some (tempdir cmdargs)) (bandPrefix band) ".vrt" p;
     EGlob (bandPattern imgDir band) found].
Proof.
  intro L. unfold band_facts. split; [reflexivity|].
  split; [|split; [|split]].
  - intros pat fnd H. in_cases H. injection H as <- <-.
    split; [reflexivity|]. intro N. now rewrite (L N).
  - intros d pre suf q H. in_cases H. now injection H.
  - intros argv H. in_cases H.
  - intros tmp H. discriminate H.
Qed.

Lemma band_facts_warp (band p img : string) (k : nat) (f : FS)
  (i : ImageInfo) (r : Result string) :
  p = temp_path env (tempdir cmdargs) (bandPrefix band) ".vrt" k ->
  glob_glob env (bandPattern imgDir band) f = [img] ->
  image_of f img = Some i ->
  (forall tmp, r = Ok tmp -> tmp = p) ->
  band_facts env cmdargs imgDir band r
    [EMkstemp (Some (tempdir cmdargs)) (bandPrefix band) ".vrt" p;
     EGlob (bandPattern imgDir band) [img];
     ECheckCall (warp_argv env cmdargs
                   (resampleFor (pixsize cmdargs) (xRes i)) img p)].
Proof.
  intros K G I R. unfold band_facts. split; [reflexivity|].
  split; [|split; [|split]].
  - intros pat fnd H. in_cases H. injection H as <- <-.
    split; [reflexivity|]. intro N. now contradiction N.
  - intros d pre suf q H. in_cases H. now injection H.
  - intros argv H. in_cases H. injection H as <-. now eexists _, _, _.
  - intros tmp H. rewrite (R tmp H).
    apply (layers_cons env cmdargs imgDir band p img k f i [] [] []);
      auto. constructor.
Qed.

Lemma resampleBand_facts (band : string) (s s' : State) (r : Result string) :
  resampleBand env cmdargs imgDir band s = (r, s') ->
  exists tr, extends s s' tr /\ band_facts env cmdargs imgDir band r tr.
Proof.
  intro H. unfold resampleBand in H. step H.
  2:{ apply mkstemp_inv in Hm.
      destruct Hm as [(p & Ep & _) | (e' & Ep & X & _)]; [discriminate|].
      exists []. split; [exact X | apply band_facts_nil]. }
  apply mkstemp_inv in Hm.
  destruct Hm as [(p & Ep & X & F & Fs & Im & K) | (e' & Ep & _)];
    [|discriminate].
  injection Ep as ->. destruct K as [k K]. cbn [temp_root] in K.
  step H; rewrite glob_run in Hm; [|discriminate Hm].
  injection Hm as <- <-.
  assert (X2 : forall found,
             extends s
               (mkState (fs s0) (rng s0)
                  (trace s0 ++ [EGlob (bandPattern imgDir band) found]))
               [EMkstemp (Some (tempdir cmdargs)) (bandPrefix band) ".vrt" p;
                EGlob (bandPattern imgDir band) found]).
  { intro found. unfold extends in *. cbn [trace]. rewrite X.
    now rewrite <- app_assoc. }
  destruct (glob_glob env (bandPattern imgDir band) (fs s0))
    as [|img [|img' rest]] eqn:Hfound.
  - injection H as <- <-. eexists. split; [apply X2|].
    apply band_facts_search. reflexivity.
  - step H.
    + unfold chooseResampleMethod in Hm. step Hm.
      apply ImageInfo_open_inv in Hm0. destruct Hm0 as [-> Hi].
      destruct Hi as [(i & Ei & Hi) | (Ei & _)]; [|discriminate].
      injection Ei as ->. unfold ret in Hm. injection Hm as <- <-.
      fold (warp_argv env cmdargs (resampleFor (pixsize cmdargs) (xRes i))
              img p) in H.
      assert (X3 : forall t, extends
                     (mkState (fs s0) (rng s0)
                        (trace s0 ++ [EGlob (bandPattern imgDir band) [img]])) t
                     [ECheckCall (warp_argv env cmdargs
                        (resampleFor (pixsize cmdargs) (xRes i)) img p)] ->
                   extends s t
                     [EMkstemp (Some (tempdir cmdargs)) (bandPrefix band) ".vrt" p;
                      EGlob (bandPattern imgDir band) [img];
                      ECheckCall (warp_argv env cmdargs
                        (resampleFor (pixsize cmdargs) (xRes i)) img p)]).
      { intros t Xt. exact (extends_trans _ _ _ _ _ (X2 [img]) Xt). }
      step H.
      * apply check_call_inv in Hm. destruct Hm as [Xc _].
        unfold ret in H. injection H as <- <-.
        eexists. split; [apply (X3 _ Xc)|].
        apply (band_facts_warp band p img k (fs s0) i _ K Hfound Hi).
        intros tmp E. now injection E.
      * apply check_call_inv in Hm. destruct Hm as [Xc _].
        eexists. split; [apply (X3 _ Xc)|].
        apply (band_facts_warp band p img k (fs s0) i _ K Hfound Hi).
        intros tmp E. discriminate E.
    + unfold chooseResampleMethod in Hm. step Hm; [discriminate|].
      apply ImageInfo_open_inv in Hm0. destruct Hm0 as [-> _].
      eexists. split; [apply X2|].
      apply band_facts_search. intro N. now contradiction N.
  - injection H as <- <-. eexists. split; [apply X2|].
    apply band_facts_search. reflexivity.
Qed.

End Bands.

Section BandLoop.

Variable env : Env.
Variable cmdargs : Cmdargs.
Variable imgDir : string.

Lemma band_layers_app (b1 b2 t1 t2 : list string) (tr1 tr2 : list Event) :
  band_layers env cmdargs imgDir b1 t1 tr1 ->
  band_layers env cmdargs imgDir b2 t2 tr2 ->
  band_layers env cmdargs imgDir (b1 ++ b2) (t1 ++ t2) (tr1 ++ tr2).
Proof.
  intros L1 L2. induction L1 as [|band tmp img k f i bands tmps tr K G I L IH].
  - exact L2.
  - rewrite <- app_assoc.
    apply (layers_cons env cmdargs imgDir band tmp img k f i); assumption.
Qed.

Lemma band_layers_length (bands tmps : list string) (tr : list Event) :
  band_layers env cmdargs imgDir bands tmps tr ->
  List.length tmps = List.length bands.
Proof.
  induction 1; cbn [List.length]; [reflexivity | now f_equal].
Qed.

(** Every intermediate of a completed loop was created by the loop,
    for a band of the list, with the suffix of a virtual raster. *)
Lemma band_layers_created (bands tmps : list string) (tr : list Event) :
  band_layers env cmdargs imgDir bands tmps tr ->
  forall p, In p tmps ->
    exists band k,
      In band bands
      /\ p = temp_path env (tempdir cmdargs) (bandPrefix band) ".vrt" k
      /\ In (EMkstemp (Some (tempdir cmdargs)) (bandPrefix band) ".vrt" p) tr.
Proof.
  induction 1 as [|band tmp img k f i bands tmps tr K G I L IH];
    intros p Hp; [contradiction|].
  destruct Hp as [<-|Hp].
  - exists band, k. split; [now left|]. split; [exact K|]. now left.
  - destruct (IH p Hp) as (b & k' & Hb & Kp & Hin).
    exists b, k'. split; [now right|]. split; [exact Kp|].
    right. right. right. exact Hin.
Qed.

(** Conversely every temporary file the loop created is one of the
    intermediates it returns. *)
Lemma band_layers_mkstemp (bands tmps : list string) (tr : list Event) :
  band_layers env cmdargs imgDir bands tmps tr ->
  forall d pre suf p, In (EMkstemp d pre suf p) tr ->
    In p tmps /\ suf = ".vrt".
Proof.
  induction 1 as [|band tmp img k f i bands tmps tr K G I L IH];
    intros d pre suf p Hp; [contradiction|].
  destruct Hp as [Hp|[Hp|[Hp|Hp]]]; try discriminate Hp.
  - injection Hp as _ _ <- <-. split; [now left | reflexivity].
  - destruct (IH _ _ _ _ Hp) as [Hin Hs]. split; [now right | exact Hs].
Qed.

Lemma resampleBands_facts (bands acc : list string) (s s' : State)
  (r : Result (list string)) :
  resampleBands env cmdargs imgDir bands acc s = (r, s') ->
  exists tr,
    extends s s' tr /\ loop_facts env cmdargs imgDir bands acc r tr.
Proof.
  unfold loop_facts.
  revert acc s. induction bands as [|band rest IH]; intros acc s H.
  - cbn [resampleBands] in H. unfold ret in H. injection H as <- <-.
    exists []. split; [apply extends_refl|]. split; [reflexivity|].
    split; [intros pat found []|]. split; [intros d pre suf p []|].
    split; [intros argv []|].
    intros rs E. injection E as <-. exists []. split.
    + now rewrite app_nil_r.
    + constructor.
  - cbn [resampleBands] in H. step H.
    + apply resampleBand_facts in Hm.
      destruct Hm as (tr1 & X1 & R1 & G1 & M1 & C1 & L1).
      destruct (IH _ _ H) as (tr2 & X2 & R2 & G2 & M2 & C2 & L2).
      exists (tr1 ++ tr2)%list.
      split; [exact (extends_trans _ _ _ _ _ X1 X2)|].
      split; [rewrite removed_app, R1, R2; reflexivity|].
      split; [|split; [|split]].
      * intros pat found Hin. apply in_app_or in Hin.
        destruct Hin as [Hin|Hin].
        -- destruct (G1 _ _ Hin) as [Ep N]. exists band.
           split; [now left|]. split; [exact Ep|].
           intro L. specialize (N L). discriminate N.
        -- destruct (G2 _ _ Hin) as (b & Hb & Ep & N). exists b.
           split; [now right|]. now split.
      * intros d pre suf p Hin. apply in_app_or in Hin.
        destruct Hin as [Hin|Hin].
        -- destruct (M1 _ _ _ _ Hin) as (Ed & Epre & Es). exists band.
           split; [now left|]. now repeat split.
        -- destruct (M2 _ _ _ _ Hin) as (b & Hb & Ed & Epre & Es). exists b.
           split; [now right|]. now repeat split.
      * intros argv Hin. apply in_app_or in Hin.
        destruct Hin as [Hin|Hin]; [exact (C1 _ Hin) | exact (C2 _ Hin)].
      * intros rs E. destruct (L2 rs E) as (new & Ers & Lnew).
        exists (a :: new). split.
        -- rewrite Ers. rewrite <- app_assoc. reflexivity.
        -- apply (band_layers_app [band] rest [a] new tr1 tr2);
             [apply L1; reflexivity | exact Lnew].
    + apply resampleBand_facts in Hm.
      destruct Hm as (tr1 & X1 & R1 & G1 & M1 & C1 & L1).
      exists tr1. split; [exact X1|]. split; [exact R1|].
      split; [|split; [|split]].
      * intros pat found Hin. destruct (G1 _ _ Hin) as [Ep N]. exists band.
        split; [now left|]. split; [exact Ep|].
        intro L. specialize (N L). injection N as ->. reflexivity.
      * intros d pre suf p Hin.
        destruct (M1 _ _ _ _ Hin) as (Ed & Epre & Es). exists band.
        split; [now left|]. now repeat split.
      * exact C1.
      * intros rs E. discriminate E.
Qed.

End BandLoop.

(** ** Building the stack *)

Lemma prelude_app (c : Cmdargs) (a b : list Event) :
  Forall (prelude_event c) a -> Forall (prelude_event c) b ->
  Forall (prelude_event c) (a ++ b).
Proof. intros A B. apply Forall_app. now split. Qed.

Lemma prelude_removed (c : Cmdargs) (tr : list Event) :
  Forall (prelude_event c) tr -> removed tr = [].
Proof.
  induction 1 as [|e tr He _ IH]; [reflexivity|].
  destruct e; cbn in He |- *; solve [contradiction | exact IH].
Qed.

Lemma prelude_calls (c : Cmdargs) (tr : list Event) (argv : list string) :
  Forall (prelude_event c) tr -> ~ In (ECheckCall argv) tr.
Proof.
  intros F I. rewrite Forall_forall in F. exact (F _ I).
Qed.

Lemma prelude_mkstemp (c : Cmdargs) (tr : list Event) (d : option string)
  (pre suf p : string) :
  Forall (prelude_event c) tr -> In (EMkstemp d pre suf p) tr ->
  d = Some (tempdir c) /\ pre = "angles_tmp_" /\ suf = ".img".
Proof.
  intros F I. rewrite Forall_forall in F. exact (F _ I).
Qed.

Lemma prelude_glob (c : Cmdargs) (tr : list Event) (pat : string)
  (found : list string) :
  Forall (prelude_event c) tr -> In (EGlob pat found) tr ->
  (exists x, pat = x ++ "*") \/ (exists x, pat = x ++ ".xml").
Proof.
  intros F I. rewrite Forall_forall in F. exact (F _ I).
Qed.

Lemma print_only_In (tr : list Event) (e : Event) :
  print_only tr -> In e tr -> exists line, e = EPrint line.
Proof. unfold print_only. rewrite Forall_forall. auto. Qed.

Lemma print_only_removed (tr : list Event) : print_only tr -> removed tr = [].
Proof.
  induction 1 as [|e tr [line ->] _ IH]; [reflexivity | exact IH].
Qed.

Lemma print_only_quiet (tr : list Event) :
  print_only tr -> Forall quiet_event tr.
Proof.
  unfold print_only. apply Forall_impl. intros e [line ->]. exact I.
Qed.

Lemma quiet_prelude (c : Cmdargs) (tr : list Event) :
  Forall quiet_event tr -> Forall (prelude_event c) tr.
Proof.
  apply Forall_impl. intros e Q. destruct e; cbn in Q |- *;
    solve [exact Q | contradiction].
Qed.

Lemma quiet_mkstemp (tr : list Event) (d : option string)
  (pre suf p : string) :
  Forall quiet_event tr -> ~ In (EMkstemp d pre suf p) tr.
Proof.
  intros F I. rewrite Forall_forall in F. exact (F _ I).
Qed.

Lemma when_print_only (b : bool) (line : string) (s s' : State)
  (r : Result unit) :
  when b (print line) s = (r, s') ->
  r = Ok tt /\ exists tr, extends s s' tr /\ print_only tr.
Proof.
  destruct b; cbn [when]; unfold print, log, ret; intro H;
    injection H as <- <-; split; try reflexivity.
  - exists [EPrint line]. split; [reflexivity|].
    constructor; [now exists line | constructor].
  - exists []. split; [apply extends_refl | constructor].
Qed.

Lemma removeEach_inv (env : Env) (l : list string) (s s' : State)
  (r : Result unit) :
  removeEach env l s = (r, s') ->
  exists done,
    extends s s' (map ERemove done)
    /\ (forall p, In p done -> In p l)
    /\ (r = Ok tt -> done = l).
Proof.
  revert s. induction l as [|fn rest IH]; intros s H.
  - cbn [removeEach] in H. unfold ret in H. injection H as <- <-.
    exists []. split; [apply extends_refl|]. split; [intros p []|reflexivity].
  - cbn [removeEach] in H. step H.
    + apply os_remove_inv in Hm.
      destruct Hm as [(_ & X & _) | (e' & E & _)]; [|discriminate E].
      destruct (IH _ H) as (done & X2 & Sub & Ok2).
      exists (fn :: done). split; [exact (extends_trans _ _ _ _ _ X X2)|].
      split.
      * intros p [<-|Hp]; [now left | right; now apply Sub].
      * intro E. now rewrite (Ok2 E).
    + apply os_remove_inv in Hm.
      destruct Hm as [(E & _) | (e' & _ & ->)]; [discriminate E|].
      exists []. split; [apply extends_refl|].
      split; [intros p []|]. intro E. discriminate E.
Qed.

Lemma findGranuleXml_inv (env : Env) (granuleDir : string) (s s' : State)
  (r : Result string) :
  findGranuleXml env granuleDir s = (r, s') ->
  extends s s' []
  \/ exists found, extends s s' [EGlob (granuleDir ++ "/*.xml") found].
Proof.
  rewrite findGranuleXml_run. destruct (exists_in _ _ _); intro H;
    injection H as <- <-.
  - left. apply extends_refl.
  - right. eexists. reflexivity.
Qed.

Lemma resolve_granule_inv (env : Env) (c : Cmdargs) (s s' : State)
  (r : Result Cmdargs) :
  match granuledir c, safedir c with
  | None, Some sd =>
      bind (findGranuleDir env sd) (fun g => ret (set_granuledir c (Some g)))
  | _, _ => ret c
  end s = (r, s') ->
  (extends s s' []
   \/ exists sd found, extends s s' [EGlob (sd ++ "/GRANULE/L1C_*") found])
  /\ (forall c1, r = Ok c1 -> c1 = c \/ exists g, c1 = set_granuledir c (Some g)).
Proof.
  destruct (granuledir c) as [g|]; [|destruct (safedir c) as [sd|]].
  - unfold ret. intro H. injection H as <- <-. split.
    + left. apply extends_refl.
    + intros c1 E. left. now injection E.
  - intro H. step H.
    + rewrite findGranuleDir_run in Hm. injection Hm as _ <-.
      unfold ret in H. injection H as <- <-. split.
      * right. eexists _, _. reflexivity.
      * intros c1 E. right. exists a. now injection E.
    + rewrite findGranuleDir_run in Hm. injection Hm as _ <-. split.
      * right. eexists _, _. reflexivity.
      * intros c1 E. discriminate E.
  - unfold ret. intro H. injection H as <- <-. split.
    + left. apply extends_refl.
    + intros c1 E. left. now injection E.
Qed.

Lemma makeStackAndAngles_inv (env : Env) (c : Cmdargs) (s s' : State)
  (r : Result (list string * Cmdargs)) :
  makeStackAndAngles env c s = (r, s') ->
  exists c1 trA,
    (c1 = c \/ exists g, c1 = set_granuledir c (Some g))
    /\ Forall (prelude_event c) trA
    /\ ((exists e, r = Raise e /\ extends s s' trA)
        \/ exists angles ka trL rl,
             angles = temp_path env (tempdir c) "angles_tmp_" ".img" ka
             /\ In (EMkstemp (Some (tempdir c)) "angles_tmp_" ".img" angles) trA
             /\ (forall d pre suf p, In (EMkstemp d pre suf p) trA -> p = angles)
             /\ loop_facts env (set_anglesfile c1 (Some angles))
                  (fmt (granuledir c1) ++ "/IMG_DATA") bandList [] rl trL
             /\ ((exists e, rl = Raise e /\ r = Raise e
                            /\ extends s s' (trA ++ trL))
                 \/ exists rs trP,
                      rl = Ok rs /\ print_only trP
                      /\ ((exists e, r = Raise e
                                      /\ extends s s' (trA ++ trL ++ trP))
                          \/ exists stack ks merge done,
                               stack = temp_path env (tempdir c)
                                         "tmp_allbands_" ".img" ks
                               /\ extends s s'
                                    (trA ++ trL ++ trP
                                     ++ [EMkstemp (Some (tempdir c))
                                           "tmp_allbands_" ".img" stack;
                                         ECheckCall
                                           (merge_argv env merge stack rs)]
                                     ++ map ERemove done)
                               /\ (forall p, In p done -> In p rs)
                               /\ (forall res, r = Ok res ->
                                     done = rs
                                     /\ res = (rs,
                                               set_toa
                                                 (set_anglesfile c1
                                                    (Some angles))
                                                 (Some stack)))))).
Proof.
  intro H. unfold makeStackAndAngles in H.
  (* the granule directory *)
  step H.
  2:{ apply resolve_granule_inv in Hm. destruct Hm as [X _].
      exists c. destruct X as [X | (sd & found & X)].
      - exists []. split; [now left|]. split; [constructor|].
        left. now exists e.
      - exists [EGlob (sd ++ "/GRANULE/L1C_*") found].
        split; [now left|]. split.
        + constructor; [|constructor]. cbn [prelude_event quiet_event].
          left. exists (sd ++ "/GRANULE/L1C_"). now rewrite append_assoc.
        + left. exists e. split; [reflexivity | exact X]. }
  apply resolve_granule_inv in Hm. destruct Hm as [X0 C1].
  specialize (C1 a eq_refl). rename a into c1.
  assert (P0 : exists tr0, extends s s0 tr0 /\ Forall quiet_event tr0).
  { destruct X0 as [X | (sd & found & X)].
    - exists []. split; [exact X | constructor].
    - exists [EGlob (sd ++ "/GRANULE/L1C_*") found].
      split; [exact X|]. constructor; [|constructor].
      cbn [quiet_event].
      left. exists (sd ++ "/GRANULE/L1C_"). now rewrite append_assoc. }
  clear X0. destruct P0 as (tr0 & X0 & F0).
  assert (Td : tempdir c1 = tempdir c).
  { destruct C1 as [->|[g ->]]; reflexivity. }
  exists c1.
  (* gdal_merge.py *)
  step H.
  2:{ destruct (find_executable env "gdal_merge.py"); [discriminate Hm|].
      unfold raise in Hm. injection Hm as _ <-.
      exists tr0. split; [exact C1|]. split; [now apply quiet_prelude|].
      left. now exists e. }
  assert (Es1 : s1 = s0).
  { destruct (find_executable env "gdal_merge.py"); [|discriminate Hm].
    unfold ret in Hm. now injection Hm. }
  subst s1. clear Hm. rename a into merge.
  (* the angles file *)
  step H.
  2:{ apply mkstemp_inv in Hm.
      destruct Hm as [(p & Ep & _) | (e' & _ & X & _)]; [discriminate Ep|].
      exists tr0. split; [exact C1|]. split; [now apply quiet_prelude|].
      left. exists e. split; [reflexivity|].
      pose proof (extends_trans _ _ _ _ _ X0 X) as XX.
      now rewrite app_nil_r in XX. }
  apply mkstemp_inv in Hm.
  destruct Hm as [(p & Ep & X1 & _ & _ & _ & ka & K) | (e' & Ep & _)];
    [|discriminate Ep].
  injection Ep as ->. rename p into angles.
  cbn [temp_root] in K. rewrite Td in K, X1.
  set (mkA := EMkstemp (Some (tempdir c)) "angles_tmp_" ".img" angles) in *.
  assert (PX : forall t tr, extends s1 t tr -> Forall quiet_event tr ->
               exists trA, extends s t trA /\ Forall (prelude_event c) trA
                           /\ In mkA trA
                           /\ forall d pre suf p,
                                In (EMkstemp d pre suf p) trA -> p = angles).
  { intros t tr Xt Ft. exists (tr0 ++ [mkA] ++ tr)%list.
    split; [exact (extends_trans _ _ _ _ _ X0 (extends_trans _ _ _ _ _ X1 Xt))|].
    split.
    { apply prelude_app; [now apply quiet_prelude|].
      apply prelude_app; [|now apply quiet_prelude].
      constructor; [|constructor]. cbn [prelude_event mkA]. now repeat split. }
    split; [apply in_or_app; right; now left|].
    intros d pre suf p Hin. apply in_app_or in Hin.
    destruct Hin as [Hin|[Hin|Hin]].
    - exfalso. exact (quiet_mkstemp _ _ _ _ _ F0 Hin).
    - now injection Hin.
    - exfalso. exact (quiet_mkstemp _ _ _ _ _ Ft Hin). }
  (* the metadata file *)
  assert (QX : forall gd t (rr : Result string),
             findGranuleXml env gd s1 = (rr, t) ->
             exists tr, extends s1 t tr /\ Forall quiet_event tr).
  { intros gd t rr E. apply findGranuleXml_inv in E.
    destruct E as [E | (found & E)].
    - exists []. split; [exact E | constructor].
    - exists [EGlob (gd ++ "/*.xml") found].
      split; [exact E|]. constructor; [|constructor].
      cbn [quiet_event]. right. exists (gd ++ "/*"). now rewrite append_assoc. }
  step H.
  2:{ destruct (QX _ _ _ Hm) as (tx & Xx & Fx).
      destruct (PX _ _ Xx Fx) as (trA & XA & FA & _).
      exists trA. split; [exact C1|]. split; [exact FA|].
      left. now exists e. }
  destruct (QX _ _ _ Hm) as (tx & Xx & Fx). clear QX Hm. rename a into xmlfile.
  (* the message *)
  step H.
  2:{ apply when_print_only in Hm. destruct Hm as [E _]. discriminate E. }
  apply when_print_only in Hm. destruct Hm as (_ & tp & Xp & Fp).
  apply print_only_quiet in Fp.
  (* the angle computation *)
  assert (FM : forall t, extends s3 t [EMakeAngles xmlfile angles] ->
               exists tr, extends s1 t tr /\ Forall quiet_event tr).
  { intros t Xt. exists (tx ++ tp ++ [EMakeAngles xmlfile angles])%list.
    split; [exact (extends_trans _ _ _ _ _ Xx (extends_trans _ _ _ _ _ Xp Xt))|].
    apply Forall_app. split; [exact Fx|]. apply Forall_app. split; [exact Fp|].
    constructor; [exact I | constructor]. }
  step H.
  2:{ apply call_makeAngles_inv in Hm. destruct (FM _ Hm) as (tq & Xq & Fq).
      destruct (PX _ _ Xq Fq) as (trA & XA & FA & _).
      exists trA. split; [exact C1|]. split; [exact FA|].
      left. now exists e. }
  apply call_makeAngles_inv in Hm. destruct (FM _ Hm) as (tq & Xq & Fq).
  destruct (PX _ _ Xq Fq) as (trA & XA & FA & InA & OnlyA).
  clear PX FM Hm Xq Fq Xx Fx Xp Fp X0 X1 F0.
  exists trA. split; [exact C1|]. split; [exact FA|]. right.
  exists angles, ka.
  (* the band loop *)
  cbv zeta in H.
  change (granuledir (set_anglesfile c1 (Some angles))) with (granuledir c1)
    in H.
  step H.
  2:{ apply resampleBands_facts in Hm. destruct Hm as (trL & XL & LF).
      exists trL, (Raise e).
      split; [exact K|]. split; [exact InA|]. split; [exact OnlyA|].
      split; [exact LF|]. left. exists e.
      split; [reflexivity|]. split; [reflexivity|].
      exact (extends_trans _ _ _ _ _ XA XL). }
  apply resampleBands_facts in Hm. destruct Hm as (trL & XL & LF).
  match type of LF with
  | loop_facts _ _ _ _ _ (Ok ?x) _ => rename x into rs
  end.
  exists trL, (Ok rs).
  split; [exact K|]. split; [exact InA|]. split; [exact OnlyA|].
  split; [exact LF|]. right. exists rs.
  (* the message *)
  step H.
  2:{ apply when_print_only in Hm. destruct Hm as [E _]. discriminate E. }
  apply when_print_only in Hm. destruct Hm as (_ & trP & XP & FP).
  exists trP. split; [reflexivity|]. split; [exact FP|].
  pose proof (extends_trans _ _ _ _ _ XA (extends_trans _ _ _ _ _ XL XP)) as X5.
  (* the stack file *)
  step H.
  2:{ apply mkstemp_inv in Hm.
      destruct Hm as [(p & Ep & _) | (e' & _ & X & _)]; [discriminate Ep|].
      left. exists e. split; [reflexivity|].
      pose proof (extends_trans _ _ _ _ _ X5 X) as XX.
      now rewrite !app_nil_r in XX. }
  apply mkstemp_inv in Hm.
  destruct Hm as [(p & Ep & X6 & _ & _ & _ & ks & Ks) | (e' & Ep & _)];
    [|discriminate Ep].
  injection Ep as ->. rename p into stack.
  cbn [temp_root tempdir set_anglesfile] in Ks, X6. rewrite Td in Ks, X6.
  right. exists stack, ks, merge.
  cbv zeta in H.
  change (fmt (toa (set_toa (set_anglesfile c1 (Some angles)) (Some stack))))
    with stack in H.
  fold (merge_argv env merge stack rs) in H.
  assert (X7 : forall t done,
             extends s7 t (ECheckCall (merge_argv env merge stack rs)
                             :: map ERemove done) ->
             extends s t
               (trA ++ trL ++ trP
                ++ [EMkstemp (Some (tempdir c)) "tmp_allbands_" ".img" stack;
                    ECheckCall (merge_argv env merge stack rs)]
                ++ map ERemove done)).
  { intros t done Xt.
    pose proof (extends_trans _ _ _ _ _ X5 (extends_trans _ _ _ _ _ X6 Xt))
      as XX.
    rewrite <- !app_assoc in XX. exact XX. }
  (* gdal_merge.py *)
  step H.
  2:{ apply check_call_inv in Hm. destruct Hm as [Xc _].
      exists []. split; [exact Ks|]. split; [apply (X7 _ [] Xc)|].
      split; [intros p []|]. intros res E. discriminate E. }
  apply check_call_inv in Hm. destruct Hm as [Xc _].
  (* the intermediates *)
  step H.
  2:{ apply removeEach_inv in Hm. destruct Hm as (done & Xd & Sub & _).
      exists done. split; [exact Ks|].
      split; [apply X7; exact (extends_trans _ _ _ _ _ Xc Xd)|].
      split; [exact Sub|]. intros res E. discriminate E. }
  apply removeEach_inv in Hm. destruct Hm as (done & Xd & Sub & Ok2).
  assert (E : done = rs).
  { apply Ok2. match goal with |- Ok ?u = _ => now destruct u end. }
  subst done.
  unfold ret in H. injection H as <- <-.
  exists rs. split; [exact Ks|].
  split; [apply X7; exact (extends_trans _ _ _ _ _ Xc Xd)|].
  split; [exact Sub|]. intros res E. injection E as <-. now split.
Qed.

(** ** Names that cannot be confused *)

Lemma temp_path_suffix (env : Env) (d pre suf : string) (k : nat) :
  temp_path env d pre suf k
  = (abspath_dir env d ++ pre ++ randname env k) ++ suf.
Proof. unfold temp_path. now rewrite !append_assoc. Qed.

Lemma temp_path_clash (env : Env) (d1 d2 p1 p2 suf1 suf2 : string)
  (k1 k2 : nat) :
  String.length suf1 = String.length suf2 -> suf1 <> suf2 ->
  temp_path env d1 p1 suf1 k1 <> temp_path env d2 p2 suf2 k2.
Proof.
  intros L N. rewrite !temp_path_suffix. now apply suffix_clash.
Qed.

Lemma band_length (band : string) :
  In band bandList -> String.length band = 3%nat.
Proof.
  unfold bandList. intro H.
  repeat (destruct H as [<-|H]; [reflexivity|]). contradiction.
Qed.

Lemma bandPattern_suffix (imgDir band : string) :
  bandPattern imgDir band = (imgDir ++ "/*_") ++ (band ++ ".jp2").
Proof. unfold bandPattern. now rewrite !append_assoc. Qed.

(** The pattern of a band is the pattern of no other band. *)
Lemma bandPattern_inj (d1 d2 b1 b2 : string) :
  In b1 bandList -> In b2 bandList ->
  bandPattern d1 b1 = bandPattern d2 b2 -> b1 = b2.
Proof.
  intros H1 H2 E. rewrite !bandPattern_suffix in E.
  apply append_cancel_r in E.
  - destruct E as [_ E].
    apply (append_cancel_r b1 b2 ".jp2" ".jp2") in E; [tauto | reflexivity].
  - rewrite !length_append, (band_length _ H1), (band_length _ H2).
    reflexivity.
Qed.

(** The pattern of a band is neither the pattern of the granule search
    nor that of the metadata search. *)
Lemma bandPattern_not_quiet (imgDir band : string) :
  ~ ((exists x, bandPattern imgDir band = x ++ "*")
     \/ (exists x, bandPattern imgDir band = x ++ ".xml")).
Proof.
  assert (E1 : bandPattern imgDir band
               = (imgDir ++ "/*_" ++ band ++ ".jp") ++ "2").
  { unfold bandPattern. now rewrite !append_assoc. }
  assert (E2 : bandPattern imgDir band = (imgDir ++ "/*_" ++ band) ++ ".jp2").
  { unfold bandPattern. now rewrite !append_assoc. }
  intros [[x E]|[x E]].
  - rewrite E1 in E. revert E. apply suffix_clash; [reflexivity | discriminate].
  - rewrite E2 in E. revert E. apply suffix_clash; [reflexivity | discriminate].
Qed.

Lemma prelude_no_band_glob (c : Cmdargs) (tr : list Event)
  (imgDir band : string) (found : list string) :
  Forall (prelude_event c) tr ->
  ~ In (EGlob (bandPattern imgDir band) found) tr.
Proof.
  intros F I. apply (bandPattern_not_quiet imgDir band).
  exact (prelude_glob _ _ _ _ F I).
Qed.

(** ** A band that cannot be found *)

Lemma warp_argv_pixsize (env : Env) (c c' : Cmdargs) (m img tmp : string) :
  pixsize c' = pixsize c ->
  warp_argv env c' m img tmp = warp_argv env c m img tmp.
Proof. unfold warp_argv. now intros ->. Qed.

Lemma resolved_pixsize (c c1 : Cmdargs) (angles : option string) :
  c1 = c \/ (exists g, c1 = set_granuledir c (Some g)) ->
  pixsize (set_anglesfile c1 angles) = pixsize c.
Proof. intros [->|[g ->]]; reflexivity. Qed.

Lemma resolved_tempdir (c c1 : Cmdargs) (angles : option string) :
  c1 = c \/ (exists g, c1 = set_granuledir c (Some g)) ->
  tempdir (set_anglesfile c1 angles) = tempdir c.
Proof. intros [->|[g ->]]; reflexivity. Qed.

Lemma In_map_ERemove (e : Event) (l : list string) :
  In e (map ERemove l) -> exists p, e = ERemove p.
Proof.
  intro H. apply in_map_iff in H. destruct H as (p & <- & _). now exists p.
Qed.

(** C5, as the code has it: when the search for the source image of a
    band finds no file or more than one, [makeStackAndAngles] fails
    with [FmaskFileError "Cannot find input band <band>"], the same
    message in both cases; no stack file is created and no command
    other than the [gdalwarp] of single bands has been run. *)
Theorem band_search_must_find_one :
  forall (env : Env) (c : Cmdargs) (s s' : State)
         (r : Result (list string * Cmdargs))
         (imgDir band : string) (found : list string),
    makeStackAndAngles env c s = (r, s') ->
    In band bandList ->
    In (EGlob (bandPattern imgDir band) found) (added s s') ->
    List.length found <> 1%nat ->
    r = Raise (FmaskFileError ("Cannot find input band " ++ band))
    /\ (forall d p, ~ In (EMkstemp d "tmp_allbands_" ".img" p) (added s s'))
    /\ (forall argv, In (ECheckCall argv) (added s s') ->
          exists m img tmp, argv = warp_argv env c m img tmp).
Proof.
  intros env c s s' r imgDir band found H Hb Hin L.
  apply makeStackAndAngles_inv in H.
  destruct H as (c1 & trA & C1 & FA & H).
  destruct H as [(e & -> & X) | (angles & ka & trL & rl & K & InA & OnlyA
                                 & LF & H)].
  { rewrite (added_app _ _ _ X) in Hin.
    exfalso. exact (prelude_no_band_glob _ _ _ _ _ FA Hin). }
  destruct LF as (RL & GL & ML & CL & OL).
  destruct H as [(e & -> & -> & X) | (rs & trP & -> & FP & H)].
  - rewrite (added_app _ _ _ X) in *.
    apply in_app_or in Hin. destruct Hin as [Hin|Hin].
    { exfalso. exact (prelude_no_band_glob _ _ _ _ _ FA Hin). }
    destruct (GL _ _ Hin) as (b & Hb' & Ep & N).
    assert (Eb : band = b) by exact (bandPattern_inj _ _ _ _ Hb Hb' Ep).
    subst b. specialize (N L). injection N as ->.
    split; [reflexivity|]. split.
    + intros d p I. apply in_app_or in I. destruct I as [I|I].
      * destruct (prelude_mkstemp _ _ _ _ _ _ FA I) as (_ & E & _).
        discriminate E.
      * destruct (ML _ _ _ _ I) as (b & _ & _ & _ & E). discriminate E.
    + intros argv I. apply in_app_or in I. destruct I as [I|I].
      * exfalso. exact (prelude_calls _ _ _ FA I).
      * destruct (CL _ I) as (m & img & tmp & ->).
        exists m, img, tmp. apply warp_argv_pixsize.
        now apply resolved_pixsize.
  - exfalso.
    assert (NL : ~ In (EGlob (bandPattern imgDir band) found) trL).
    { intro I. destruct (GL _ _ I) as (b & _ & _ & N).
      specialize (N L). discriminate N. }
    assert (NP : ~ In (EGlob (bandPattern imgDir band) found) trP).
    { intro I. destruct (print_only_In _ _ FP I) as [line E]. discriminate E. }
    destruct H as [(e & -> & X) | (stack & ks & merge & done & Ks & X & _)];
      rewrite (added_app _ _ _ X) in Hin.
    + apply in_app_or in Hin. destruct Hin as [Hin|Hin].
      { exact (prelude_no_band_glob _ _ _ _ _ FA Hin). }
      apply in_app_or in Hin. tauto.
    + apply in_app_or in Hin. destruct Hin as [Hin|Hin].
      { exact (prelude_no_band_glob _ _ _ _ _ FA Hin). }
      apply in_app_or in Hin. destruct Hin as [Hin|Hin]; [tauto|].
      apply in_app_or in Hin. destruct Hin as [Hin|Hin]; [tauto|].
      apply in_app_or in Hin. destruct Hin as [Hin|Hin].
      * in_cases Hin.
      * apply In_map_ERemove in Hin. destruct Hin as [p E]. discriminate E.
Qed.

(** ** The order of the stack *)

Lemma prelude_no_calls (c : Cmdargs) (tr : list Event) :
  Forall (prelude_event c) tr -> calls tr = [].
Proof.
  induction 1 as [|e tr He _ IH]; [reflexivity|].
  destruct e; cbn in He |- *; solve [contradiction | exact IH].
Qed.

Lemma print_only_calls (tr : list Event) : print_only tr -> calls tr = [].
Proof.
  induction 1 as [|e tr [line ->] _ IH]; [reflexivity | exact IH].
Qed.

Lemma calls_map_ERemove (l : list string) : calls (map ERemove l) = [].
Proof. induction l as [|p l IH]; [reflexivity | exact IH]. Qed.

Lemma band_layers_nth (env : Env) (c : Cmdargs) (imgDir : string)
  (bands tmps : list string) (tr : list Event) :
  band_layers env c imgDir bands tmps tr ->
  forall n band, nth_error bands n = Some band ->
    exists tmp img f i,
      nth_error tmps n = Some tmp
      /\ glob_glob env (bandPattern imgDir band) f = [img]
      /\ image_of f img = Some i
      /\ In (EMkstemp (Some (tempdir c)) (bandPrefix band) ".vrt" tmp) tr
      /\ In (EGlob (bandPattern imgDir band) [img]) tr
      /\ In (ECheckCall
               (warp_argv env c (resampleFor (pixsize c) (xRes i)) img tmp)) tr.
Proof.
  induction 1 as [|band0 tmp0 img0 k f i bands tmps tr K G I L IH];
    intros n band Hn.
  - destruct n; discriminate Hn.
  - destruct n as [|n]; cbn [nth_error] in Hn.
    + injection Hn as <-. exists tmp0, img0, f, i.
      split; [reflexivity|]. split; [exact G|]. split; [exact I|].
      split; [now left|]. split; [right; now left | right; right; now left].
    + destruct (IH n band Hn) as (tmp & img & f' & i' & E & G' & I' & A & B & C).
      exists tmp, img, f', i'. split; [exact E|]. split; [exact G'|].
      split; [exact I'|].
      split; [|split]; right; right; right; assumption.
Qed.

(** C8: when [makeStackAndAngles] returns, the last command it ran is
    the merge, whose input list is the list of intermediates it
    returns; that list has one entry per band of [bandList], and its
    N-th entry is the intermediate created for the N-th band and
    written by the [gdalwarp] of the one image that the search for
    that band returned, with the method chosen from the pixel size of
    that image.  This holds on every file system, whatever the search
    returns and in whatever order its files are listed. *)
Theorem stack_follows_bandList :
  forall (env : Env) (c c' : Cmdargs) (s s' : State) (bands : list string),
    makeStackAndAngles env c s = (Ok (bands, c'), s') ->
    exists imgDir merge stack,
      toa c' = Some stack
      /\ List.length bands = List.length bandList
      /\ last (calls (added s s')) [] = merge_argv env merge stack bands
      /\ (forall n band, nth_error bandList n = Some band ->
            exists tmp img f i,
              nth_error bands n = Some tmp
              /\ glob_glob env (bandPattern imgDir band) f = [img]
              /\ image_of f img = Some i
              /\ In (EMkstemp (Some (tempdir c)) (bandPrefix band) ".vrt" tmp)
                    (added s s')
              /\ In (EGlob (bandPattern imgDir band) [img]) (added s s')
              /\ In (ECheckCall
                       (warp_argv env c (resampleFor (pixsize c) (xRes i))
                          img tmp))
                    (added s s')).
Proof.
  intros env c c' s s' bands H.
  apply makeStackAndAngles_inv in H.
  destruct H as (c1 & trA & C1 & FA & H).
  destruct H as [(e & E & _) | (angles & ka & trL & rl & K & InA & OnlyA
                                 & LF & H)]; [discriminate E|].
  destruct LF as (RL & GL & ML & CL & OL).
  destruct H as [(e & _ & E & _) | (rs & trP & -> & FP & H)];
    [discriminate E|].
  destruct H as [(e & E & _) | (stack & ks & merge & done & Ks & X & _ & R)];
    [discriminate E|].
  destruct (R _ eq_refl) as [-> E]. injection E as -> ->.
  destruct (OL _ eq_refl) as (new & En & LY). cbn [app] in En. subst new.
  rewrite (added_app _ _ _ X).
  exists (fmt (granuledir c1) ++ "/IMG_DATA"), merge, stack.
  split; [reflexivity|].
  split; [exact (band_layers_length _ _ _ _ _ _ LY)|].
  split.
  - rewrite !calls_app, (prelude_no_calls _ _ FA), (print_only_calls _ FP),
      calls_map_ERemove.
    cbn [calls app]. apply last_last.
  - intros n band Hn.
    destruct (band_layers_nth _ _ _ _ _ _ LY n band Hn)
      as (tmp & img & f & i & E & G & I & A & B & C).
    rewrite (resolved_tempdir c c1 (Some angles) C1) in A.
    rewrite (resolved_pixsize c c1 (Some angles) C1) in C.
    rewrite (warp_argv_pixsize env c (set_anglesfile c1 (Some angles)))
      in C by now apply resolved_pixsize.
    exists tmp, img, f, i. split; [exact E|]. split; [exact G|].
    split; [exact I|].
    split; [|split]; apply in_or_app; right; apply in_or_app; left;
      assumption.
Qed.

(** ** The main routine *)

Lemma getCmdargs_inv (argv : Cmdargs) (s s' : State) (r : Result Cmdargs) :
  getCmdargs argv s = (r, s') ->
  (r = Ok argv /\ s' = s)
  \/ (r = Raise (SystemExit 1)
      /\ exists tr, extends s s' tr /\ removed tr = [] /\ created tr = []).
Proof.
  unfold getCmdargs.
  destruct (is_some (granuledir argv) && is_some (safedir argv)).
  - intro H. unfold bind, print, log, raise in H. injection H as <- <-.
    right. split; [reflexivity|]. eexists. split; [|split].
    + unfold extends. cbn [trace]. rewrite <- app_assoc. reflexivity.
    + reflexivity.
    + reflexivity.
  - destruct (negb (is_some (output argv))
              || (is_some (safedir argv) || is_some (granuledir argv))
                 && (is_some (toa argv) && is_some (anglesfile argv))
              || negb (is_some (safedir argv) || is_some (granuledir argv)
                       || is_some (toa argv) && is_some (anglesfile argv))).
    + intro H. unfold bind, log, raise in H. injection H as <- <-.
      right. split; [reflexivity|]. exists [EPrintHelp].
      split; [reflexivity|]. now split.
    + intro H. unfold ret in H. injection H as <- <-. now left.
Qed.

Lemma int_div_inv (a : PyFloat) (b : Q) (s s' : State) (r : Result Z) :
  int_div a b s = (r, s') -> s' = s.
Proof.
  unfold int_div. destruct (Qeq_bool b 0); unfold raise; intro H;
    now injection H.
Qed.

Lemma the_inv (o : option string) (s s' : State) (r : Result string) :
  the o s = (r, s') -> s' = s /\ forall p, r = Ok p -> o = Some p.
Proof.
  destruct o as [q|]; unfold the, ret, raise; intro H; injection H as <- <-.
  - split; [reflexivity|]. intros p E. now injection E as ->.
  - split; [reflexivity|]. intros p E. discriminate E.
Qed.

Lemma mem_fs_remove (env : Env) (p q : string) (f : FS) :
  mem p (files (fs_remove env q f)) = true -> mem p (files f) = true /\ p <> q.
Proof.
  unfold fs_remove. cbn [files]. rewrite !mem_true. intro H.
  apply filter_In in H. destruct H as [I N]. split; [exact I|].
  intros ->. rewrite same_file_refl in N. discriminate N.
Qed.

(** The final cleanup, whatever its outcome: it brings no file into
    existence and deletes only files of its list; when it returns none
    of them exists any more; and it returns unless a deletion fails on
    a file that exists. *)
Lemma removeExisting_inv (env : Env) (l : list string) (s s' : State)
  (r : Result unit) :
  removeExisting env l s = (r, s') ->
  (forall p, mem p (files (fs s')) = true -> mem p (files (fs s)) = true)
  /\ (exists done, extends s s' (map ERemove done)
                   /\ forall p, In p done -> In p l)
  /\ (r = Ok tt -> forall p, In p l -> mem p (files (fs s')) = false)
  /\ (no_remove_errors env -> r = Ok tt).
Proof.
  revert s. induction l as [|fn rest IH]; intros s H.
  - cbn [removeExisting] in H. unfold ret in H. injection H as <- <-.
    split; [auto|]. split.
    + exists []. split; [apply extends_refl | intros p []].
    + split; [intros _ p [] | reflexivity].
  - cbn [removeExisting] in H. unfold bind at 1 in H. unfold path_exists in H.
    destruct (exists_in env (fs s) fn) eqn:E; cbn [when] in H.
    + step H.
      * apply os_remove_inv in Hm.
        destruct Hm as [(_ & X & F) | (e' & E' & _)]; [|discriminate E'].
        destruct (IH _ H) as (Mono & (done & Xd & Sub) & Gone & Fine).
        split; [|split; [|split]].
        -- intros p Hp. specialize (Mono p Hp). rewrite F in Mono.
           now apply mem_fs_remove in Mono.
        -- exists (fn :: done).
           split; [exact (extends_trans _ _ _ _ _ X Xd)|].
           intros p [<-|Hp]; [now left | right; now apply Sub].
        -- intros Er p [<-|Hp]; [|now apply Gone].
           destruct (mem fn (files (fs s'))) eqn:M; [|reflexivity].
           specialize (Mono fn M). rewrite F in Mono.
           apply mem_fs_remove in Mono. now destruct Mono.
        -- exact Fine.
      * split; [|split; [|split]].
        -- pose proof (os_remove_inv _ _ _ _ _ Hm) as Hi.
           destruct Hi as [(E' & _) | (e' & _ & ->)]; [discriminate E'|].
           auto.
        -- pose proof (os_remove_inv _ _ _ _ _ Hm) as Hi.
           destruct Hi as [(E' & _) | (e' & _ & ->)]; [discriminate E'|].
           exists []. split; [apply extends_refl | intros p []].
        -- intro Er. discriminate Er.
        -- intro N. rewrite (os_remove_ok env fn s N E) in Hm.
           discriminate Hm.
    + unfold bind at 1 in H. unfold ret at 1 in H.
      destruct (IH _ H) as (Mono & (done & Xd & Sub) & Gone & Fine).
      split; [exact Mono|]. split; [|split].
      * exists done. split; [exact Xd|]. intros p Hp. right. now apply Sub.
      * intros Er p [<-|Hp]; [|now apply Gone].
        destruct (mem fn (files (fs s'))) eqn:M; [|reflexivity].
        specialize (Mono fn M). apply exists_in_false in E. congruence.
      * exact Fine.
Qed.

Lemma checkAnglesFile_inv (env : Env) (a t : string) (s s' : State)
  (r : Result string) :
  checkAnglesFile env a t s = (r, s') ->
  (forall ti ai, image_of (fs s) t = Some ti -> image_of (fs s) a = Some ai ->
                 same_pixel_size ti ai -> r = Ok a /\ s' = s)
  /\ (((r = Ok a \/ exists e, r = Raise e) /\ extends s s' [])
      \/ exists ti vrt k,
           vrt <> a /\ vrt <> t
           /\ vrt = temp_path env (gettempdir env) "angles" ".vrt" k
           /\ extends s s' [EMkstemp None "angles" ".vrt" vrt;
                            ECheckCall (reconcile_argv env ti a vrt)]
           /\ (r = Ok vrt \/ exists e, r = Raise e)).
Proof.
  intro H.
  destruct (image_of (fs s) t) as [ti|] eqn:Et.
  2:{ unfold checkAnglesFile, bind, ImageInfo_open in H. rewrite Et in H.
      injection H as <- <-. split; [intros ti ai E; discriminate E|].
      left. split; [right; now eexists | apply extends_refl]. }
  destruct (image_of (fs s) a) as [ai|] eqn:Ea.
  2:{ unfold checkAnglesFile, bind, ImageInfo_open in H. rewrite Et, Ea in H.
      injection H as <- <-. split; [intros ti' ai' _ E; discriminate E|].
      left. split; [right; now eexists | apply extends_refl]. }
  destruct (negb (Qeq_bool (xRes ti) (xRes ai))
            || negb (Qeq_bool (yRes ti) (yRes ai))) eqn:B.
  - assert (G : ~ same_pixel_size ti ai).
    { intro G. apply grid_test in G. congruence. }
    split.
    { intros ti' ai' E1 E2 G'. injection E1 as <-. injection E2 as <-.
      contradiction. }
    destruct (checkAnglesFile_differ env a t s s' ti ai r Et Ea G H)
      as [((e & -> & _) & X) | (vrt & Na & Nt & _ & (k & K) & X & C)].
    + left. split; [right; now eexists | exact X].
    + right. exists ti, vrt, k. repeat (split; [assumption|]).
      cbv zeta in C. destruct C as [(_ & ->) | (_ & ->)];
        [now left | right; now eexists].
  - apply grid_test in B.
    rewrite (checkAnglesFile_same env a t s ti ai Et Ea B) in H.
    injection H as <- <-. split; [now intros|].
    left. split; [now left | apply extends_refl].
Qed.

Lemma mainRoutine_inv (env : Env) (argv : Cmdargs) (s s' : State)
  (r : Result unit) :
  mainRoutine env argv s = (r, s') ->
  let tempStack := is_some (safedir argv) || is_some (granuledir argv) in
  (r = Raise (SystemExit 1)
   /\ exists tr, extends s s' tr /\ removed tr = [] /\ created tr = [])
  \/ (tempStack = true
      /\ exists e, r = Raise e
                   /\ makeStackAndAngles env argv s = (Raise e, s'))
  \/ exists c' sS,
       ((tempStack = false /\ c' = argv /\ sS = s)
        \/ (tempStack = true
            /\ exists rs,
                 makeStackAndAngles env argv s = (Ok (rs, c'), sS)))
       /\ exists trR trRest,
            extends sS s' (trR ++ trRest)
            /\ (forall a t ti ai,
                  anglesfile c' = Some a -> toa c' = Some t ->
                  image_of (fs sS) t = Some ti ->
                  image_of (fs sS) a = Some ai ->
                  same_pixel_size ti ai -> trR = [])
            /\ ((trR = [] /\ rest_facts env tempStack c' s' r [] trRest)
                \/ exists a t vrt k ti,
                     anglesfile c' = Some a /\ toa c' = Some t
                     /\ vrt <> a /\ vrt <> t
                     /\ vrt = temp_path env (gettempdir env) "angles" ".vrt" k
                     /\ trR = [EMkstemp None "angles" ".vrt" vrt;
                               ECheckCall (reconcile_argv env ti a vrt)]
                     /\ rest_facts env tempStack c' s' r [vrt] trRest).
Proof.
  intros H tempStack. unfold mainRoutine in H.
  step H.
  2:{ apply getCmdargs_inv in Hm. destruct Hm as [(E & _) | (E & tr & X)];
        [discriminate E|].
      injection E as ->. left. split; [reflexivity|]. now exists tr. }
  apply getCmdargs_inv in Hm. destruct Hm as [(E & ->) | (E & _)];
    [|discriminate E].
  injection E as ->. cbv zeta in H. fold tempStack in H.
  right.
  step H.
  2:{ left. destruct tempStack; [|discriminate Hm].
      split; [reflexivity|]. exists e. split; [reflexivity|].
      step Hm; [discriminate Hm | exact Hm0]. }
  right. rename a into c'. rename s0 into sS. exists c', sS.
  assert (S1 : (tempStack = false /\ c' = argv /\ sS = s)
               \/ (tempStack = true
                   /\ exists rs,
                        makeStackAndAngles env argv s = (Ok (rs, c'), sS))).
  { destruct tempStack.
    - right. split; [reflexivity|]. step Hm.
      unfold ret in Hm. injection Hm as <- <-. destruct a as [rs cc].
      now exists rs.
    - left. unfold ret in Hm. injection Hm as <- <-. now repeat split. }
  split; [exact S1|]. clear S1 Hm.
  assert (RF0 : forall e vrts,
             rest_facts env tempStack c' s' (Raise e) vrts []).
  { intros e vrts. split; [reflexivity|]. split; [intros p []|].
    split; [now left|]. split; [reflexivity|].
    intro E. discriminate E. }
  assert (RF1 : forall e vrts fn cfg,
             rest_facts env tempStack c' s' (Raise e) vrts [EDoFmask fn cfg]).
  { intros e vrts fn cfg. split; [reflexivity|]. split; [intros p []|].
    split; [right; now exists fn, cfg, []|]. split; [reflexivity|].
    intro E. discriminate E. }
  (* the two file names *)
  step H.
  2:{ apply the_inv in Hm. destruct Hm as [-> _].
      exists [], []. split; [apply extends_refl|]. split; [reflexivity|].
      left. split; [reflexivity | apply RF0]. }
  apply the_inv in Hm. destruct Hm as [-> Ea]. specialize (Ea _ eq_refl).
  step H.
  2:{ apply the_inv in Hm. destruct Hm as [-> _].
      exists [], []. split; [apply extends_refl|]. split; [reflexivity|].
      left. split; [reflexivity | apply RF0]. }
  apply the_inv in Hm. destruct Hm as [-> Et]. specialize (Et _ eq_refl).
  rename a into inputAngles. rename a0 into toafile.
  (* what follows the reconciliation *)
  match type of H with
  | bind _ ?k _ = _ => set (K := k) in H
  end.
  assert (REST : forall af sR vrts,
             (vrts = [] /\ af = inputAngles)
             \/ (vrts = [af] /\ af <> inputAngles) ->
             K af sR = (r, s') ->
             exists trRest, extends sR s' trRest
                            /\ rest_facts env tempStack c' s' r vrts trRest).
  { clear H. intros af sR vrts V H. subst K. cbv beta zeta in H.
    step H.
    2:{ apply ImageInfo_open_inv in Hm. destruct Hm as [-> _].
        exists []. split; [apply extends_refl | apply RF0]. }
    apply ImageInfo_open_inv in Hm. destruct Hm as [-> _].
    step H.
    2:{ apply int_div_inv in Hm. subst.
        exists []. split; [apply extends_refl | apply RF0]. }
    apply int_div_inv in Hm. subst.
    step H.
    2:{ apply int_div_inv in Hm. subst.
        exists []. split; [apply extends_refl | apply RF0]. }
    apply int_div_inv in Hm. subst.
    step H.
    2:{ apply call_doFmask_inv in Hm. eexists. split; [exact Hm|].
        apply RF1. }
    apply call_doFmask_inv in Hm.
    match type of Hm with
    | extends _ _ [EDoFmask ?f ?g] => set (fn := f) in *; set (cfg := g) in *
    end.
    (* the reconciled angles *)
    step H.
    2:{ exists [EDoFmask fn cfg]. split; [|apply RF1].
        destruct V as [(-> & ->) | (-> & N)].
        - rewrite String.eqb_refl in Hm0. discriminate Hm0.
        - apply String.eqb_neq in N. rewrite N in Hm0.
          cbn [negb when] in Hm0. apply os_remove_inv in Hm0.
          destruct Hm0 as [(E & _) | (e' & _ & ->)];
            [discriminate E | exact Hm]. }
    assert (XV : extends sR s1 ([EDoFmask fn cfg] ++ map ERemove vrts)).
    { destruct V as [(-> & ->) | (-> & N)].
      - rewrite String.eqb_refl in Hm0. cbn [negb when] in Hm0.
        unfold ret in Hm0. injection Hm0 as _ <-. exact Hm.
      - apply String.eqb_neq in N. rewrite N in Hm0. cbn [negb when] in Hm0.
        apply os_remove_inv in Hm0.
        destruct Hm0 as [(_ & X & _) | (e' & E & _)]; [|discriminate E].
        exact (extends_trans _ _ _ _ _ Hm X). }
    clear Hm Hm0.
    (* the stack and the angles file *)
    destruct (tempStack && negb (keepintermediates c')) eqn:C;
      cbn [when] in H.
    - apply removeExisting_inv in H.
      destruct H as (_ & (done & Xd & Sub) & Gone & Fine).
      apply andb_true_iff in C. destruct C as [C1 C2].
      apply negb_true_iff in C2.
      assert (Own : forall p, In p done -> own_inputs c' p).
      { intros p Hp.
        destruct (Sub p Hp) as [<-|[<-|[]]]; [now left | now right]. }
      exists (([EDoFmask fn cfg] ++ map ERemove vrts) ++ map ERemove done)%list.
      split; [exact (extends_trans _ _ _ _ _ XV Xd)|].
      split; [now rewrite !created_app, !created_map_ERemove|].
      split.
      { intros p Hp. rewrite !removed_app, !removed_map_ERemove in Hp.
        cbn [removed app] in Hp. apply in_app_or in Hp.
        destruct Hp as [Hp|Hp]; [now left | right].
        split; [exact C1|]. split; [exact C2 | now apply Own]. }
      split.
      { right. exists fn, cfg, (vrts ++ done)%list.
        cbn [app]. now rewrite map_app. }
      split.
      { intros e E N. rewrite (Fine N) in E. discriminate E. }
      intros Er. exists fn, cfg, (map ERemove done).
      split; [now rewrite <- app_assoc|].
      split; [apply created_map_ERemove|]. split.
      + intros p Hp. rewrite removed_map_ERemove in Hp.
        split; [exact C1|]. split; [exact C2 | now apply Own].
      + intros _ _ p [Hp|Hp]; apply (Gone Er).
        * rewrite Et in Hp. injection Hp as <-. now left.
        * rewrite Ea in Hp. injection Hp as <-. right. now left.
    - unfold ret in H. injection H as <- <-.
      exists ([EDoFmask fn cfg] ++ map ERemove vrts)%list.
      split; [exact XV|].
      split; [now rewrite !created_app, !created_map_ERemove|].
      split.
      { intros p Hp. rewrite removed_app, removed_map_ERemove in Hp.
        now left. }
      split; [right; now exists fn, cfg, vrts|].
      split; [intros e E; discriminate E|].
      intros _. exists fn, cfg, []. split; [now rewrite app_nil_r|].
      split; [reflexivity|]. split; [intros p []|].
      intros T Kp. rewrite T, Kp in C. discriminate C. }
  (* the reconciliation *)
  step H.
  - apply checkAnglesFile_inv in Hm.
    destruct Hm as (Same & [(Er & X) | (ti & vrt & k & Na & Nt & Kv & X & Er)]).
    + assert (a = inputAngles).
      { destruct Er as [E|[e E]]; [now injection E | discriminate E]. }
      subst a.
      destruct (REST inputAngles _ [] (or_introl (conj eq_refl eq_refl)) H)
        as (trRest & XR & RF).
      exists [], trRest. split; [exact (extends_trans _ _ _ _ _ X XR)|].
      split; [reflexivity|]. left. now split.
    + assert (a = vrt).
      { destruct Er as [E|[e E]]; [now injection E | discriminate E]. }
      subst a.
      destruct (REST vrt _ [vrt] (or_intror (conj eq_refl Na)) H)
        as (trRest & XR & RF).
      eexists _, trRest. split; [exact (extends_trans _ _ _ _ _ X XR)|].
      split.
      * intros a t ti' ai Ha Ht Hti Hai G.
        rewrite Ea in Ha. injection Ha as <-.
        rewrite Et in Ht. injection Ht as <-.
        destruct (Same _ _ Hti Hai G) as [E _]. injection E as E.
        contradiction.
      * right. exists inputAngles, toafile, vrt, k, ti.
        repeat (split; [assumption || reflexivity|]). exact RF.
  - apply checkAnglesFile_inv in Hm.
    destruct Hm as (Same & [(Er & X) | (ti & vrt & k & Na & Nt & Kv & X & Er)]).
    + exists [], []. split; [exact X|]. split; [reflexivity|].
      left. split; [reflexivity | apply RF0].
    + eexists _, []. split; [rewrite app_nil_r; exact X|].
      split.
      * intros a t ti' ai Ha Ht Hti Hai G.
        rewrite Ea in Ha. injection Ha as <-.
        rewrite Et in Ht. injection Ht as <-.
        destruct (Same _ _ Hti Hai G) as [E _]. discriminate E.
      * right. exists inputAngles, toafile, vrt, k, ti.
        repeat (split; [assumption || reflexivity|]). apply RF0.
Qed.

(** ** What is left behind *)

Lemma created_path (tr : list Event) (d : option string)
  (pre suf p : string) :
  In (EMkstemp d pre suf p) tr -> In (EMkstemp d pre suf p) (created tr).
Proof.
  induction tr as [|e tr IH]; [contradiction|].
  intros [->|H]; [now left|].
  destruct e; cbn [created]; try (apply IH; exact H).
  right. apply IH. exact H.
Qed.

Lemma In_nil_eq {A} (l : list A) : (forall x, ~ In x l) -> l = [].
Proof.
  destruct l as [|x l]; [reflexivity|]. intro H. exfalso.
  apply (H x). now left.
Qed.

Lemma leftover_from_app (acc a b : list Event) :
  leftover_from acc (a ++ b) = leftover_from (leftover_from acc a) b.
Proof.
  revert acc. induction a as [|e a IH]; intro acc; [reflexivity|].
  destruct e; cbn [app leftover_from]; apply IH.
Qed.

Lemma leftover_from_quiet (acc tr : list Event) :
  removed tr = [] -> leftover_from acc tr = (acc ++ created tr)%list.
Proof.
  revert acc. induction tr as [|e tr IH]; intros acc R.
  - cbn. now rewrite app_nil_r.
  - destruct e; cbn [removed] in R; try discriminate R;
      cbn [leftover_from created]; rewrite IH by exact R; try reflexivity.
    now rewrite <- app_assoc.
Qed.

Lemma leftover_from_removals (acc : list Event) (l : list string)
  (e : Event) :
  In e acc -> (forall q, In q l -> is_path q e = false) ->
  In e (leftover_from acc (map ERemove l)).
Proof.
  revert acc. induction l as [|q l IH]; intros acc I N; [exact I|].
  cbn [map leftover_from]. apply IH.
  - apply filter_In. split; [exact I|]. rewrite (N q); [reflexivity|now left].
  - intros q' Hq. apply N. now right.
Qed.


Lemma is_path_mkstemp (q p : string) (d : option string) (pre suf : string) :
  q <> p -> is_path q (EMkstemp d pre suf p) = false.
Proof. intro N. unfold is_path. cbn. now apply String.eqb_neq. Qed.

(** ** What [makeStackAndAngles] leaves in the trace *)

(** Whatever its outcome: it deletes only intermediates of bands that
    it created; it creates its temporary files in the temporary
    directory of the run; and the stack and the angles file, once
    created, are not deleted by it. *)
Lemma stack_any_facts (env : Env) (c : Cmdargs) (s sS : State)
  (r : Result (list string * Cmdargs)) :
  makeStackAndAngles env c s = (r, sS) ->
  exists trS,
    extends s sS trS
    /\ (forall p, In p (removed trS) ->
          exists band,
            In band bandList
            /\ In (EMkstemp (Some (tempdir c)) (bandPrefix band) ".vrt" p) trS)
    /\ (forall d pre suf p, In (EMkstemp d pre suf p) trS ->
          d = Some (tempdir c))
    /\ (forall d pre p, In (EMkstemp d pre ".img" p) trS ->
          In (EMkstemp d pre ".img" p) (leftover trS)).
Proof.
  intro H. apply makeStackAndAngles_inv in H.
  destruct H as (c1 & trA & C1 & FA & H).
  assert (QUIET : forall tr,
             removed tr = [] ->
             (forall d pre suf p, In (EMkstemp d pre suf p) tr ->
                d = Some (tempdir c)) ->
             (forall p, In p (removed tr) ->
                exists band,
                  In band bandList
                  /\ In (EMkstemp (Some (tempdir c)) (bandPrefix band) ".vrt" p)
                        tr)
             /\ (forall d pre suf p, In (EMkstemp d pre suf p) tr ->
                   d = Some (tempdir c))
             /\ (forall d pre p, In (EMkstemp d pre ".img" p) tr ->
                   In (EMkstemp d pre ".img" p) (leftover tr))).
  { intros tr R D. split; [rewrite R; intros p []|]. split; [exact D|].
    intros d pre p I. unfold leftover.
    rewrite leftover_from_quiet by exact R. now apply created_path. }
  assert (DA : forall d pre suf p, In (EMkstemp d pre suf p) trA ->
               d = Some (tempdir c)).
  { intros d pre suf p I. now destruct (prelude_mkstemp _ _ _ _ _ _ FA I). }
  destruct H as [(e & -> & X) | (angles & ka & trL & rl & K & InA & OnlyA
                                 & LF & H)].
  { exists trA. split; [exact X|].
    apply QUIET; [now apply (prelude_removed c) | exact DA]. }
  destruct LF as (RL & GL & ML & CL & OL).
  assert (DL : forall d pre suf p, In (EMkstemp d pre suf p) trL ->
               d = Some (tempdir c) /\ suf = ".vrt").
  { intros d pre suf p I. destruct (ML _ _ _ _ I) as (b & _ & E & _ & E2).
    rewrite (resolved_tempdir c c1 (Some angles) C1) in E. now split. }
  destruct H as [(e & -> & -> & X) | (rs & trP & -> & FP & H)].
  { exists (trA ++ trL)%list. split; [exact X|]. apply QUIET.
    - now rewrite removed_app, (prelude_removed c trA FA), RL.
    - intros d pre suf p I. apply in_app_or in I. destruct I as [I|I];
        [exact (DA _ _ _ _ I) | now destruct (DL _ _ _ _ I)]. }
  assert (DP : forall d pre suf p, ~ In (EMkstemp d pre suf p) trP).
  { intros d pre suf p I. destruct (print_only_In _ _ FP I) as [l E].
    discriminate E. }
  destruct H as [(e & -> & X) | (stack & ks & merge & done & Ks & X & Sub & _)].
  { exists (trA ++ trL ++ trP)%list. split; [exact X|]. apply QUIET.
    - now rewrite !removed_app, (prelude_removed c trA FA), RL,
        (print_only_removed _ FP).
    - intros d pre suf p I. apply in_app_or in I. destruct I as [I|I];
        [exact (DA _ _ _ _ I)|].
      apply in_app_or in I. destruct I as [I|I];
        [now destruct (DL _ _ _ _ I) | now destruct (DP _ _ _ _ I)]. }
  destruct (OL _ eq_refl) as (new & En & LY). cbn [app] in En. subst new.
  set (mkS := EMkstemp (Some (tempdir c)) "tmp_allbands_" ".img" stack) in *.
  set (call := ECheckCall (merge_argv env merge stack rs)) in *.
  set (X0 := (trA ++ trL ++ trP ++ [mkS; call])%list).
  assert (EX : (trA ++ trL ++ trP ++ [mkS; call] ++ map ERemove done
                = X0 ++ map ERemove done)%list).
  { unfold X0. now rewrite <- !app_assoc. }
  rewrite EX in X. clear EX.
  assert (RX : removed X0 = []).
  { unfold X0. now rewrite !removed_app, (prelude_removed c trA FA), RL,
      (print_only_removed _ FP). }
  assert (DX : forall d pre suf p, In (EMkstemp d pre suf p) X0 ->
               d = Some (tempdir c)
               /\ ((suf = ".img" /\ (p = angles \/ p = stack))
                   \/ suf = ".vrt")).
  { intros d pre suf p I. unfold X0 in I.
    apply in_app_or in I. destruct I as [I|I].
    { split; [exact (DA _ _ _ _ I)|]. left.
      destruct (prelude_mkstemp _ _ _ _ _ _ FA I) as (_ & _ & E).
      split; [exact E|]. left. exact (OnlyA _ _ _ _ I). }
    apply in_app_or in I. destruct I as [I|I].
    { destruct (DL _ _ _ _ I) as [E1 E2]. split; [exact E1 | now right]. }
    apply in_app_or in I. destruct I as [I|I];
      [now destruct (DP _ _ _ _ I)|].
    in_cases I. injection I as <- _ <- <-. split; [reflexivity|].
    left. split; [reflexivity | now right]. }
  exists (X0 ++ map ERemove done)%list. split; [exact X|].
  split; [|split].
  - intros p Hp. rewrite removed_app, RX, removed_map_ERemove in Hp.
    cbn [app] in Hp.
    destruct (band_layers_created _ _ _ _ _ _ LY p (Sub p Hp))
      as (band & k & Hb & _ & I).
    rewrite (resolved_tempdir c c1 (Some angles) C1) in I.
    exists band. split; [exact Hb|].
    apply in_or_app. left. unfold X0.
    apply in_or_app. right. apply in_or_app. now left.
  - intros d pre suf p I. apply in_app_or in I. destruct I as [I|I].
    + now destruct (DX _ _ _ _ I).
    + apply In_map_ERemove in I. destruct I as [q E]. discriminate E.
  - intros d pre p I. apply in_app_or in I. destruct I as [I|I].
    2:{ apply In_map_ERemove in I. destruct I as [q E]. discriminate E. }
    unfold leftover. rewrite leftover_from_app.
    apply leftover_from_removals.
    + rewrite leftover_from_quiet by exact RX. now apply created_path.
    + intros q Hq. apply is_path_mkstemp.
      destruct (band_layers_created _ _ _ _ _ _ LY q (Sub q Hq))
        as (band & k & _ & -> & _).
      destruct (DX _ _ _ _ I) as (_ & [(_ & [->| ->]) | E]);
        [| | discriminate E].
      * rewrite K. apply temp_path_clash; [reflexivity | discriminate].
      * rewrite Ks. apply temp_path_clash; [reflexivity | discriminate].
Qed.

(** When it returns: the trace ends with the merge and the deletion of
    every intermediate; before that nothing was deleted, and the
    temporary files created are the angles file, the stack, and the
    intermediates. *)
Lemma stack_success_facts (env : Env) (c c' : Cmdargs) (s sS : State)
  (rs : list string) :
  makeStackAndAngles env c s = (Ok (rs, c'), sS) ->
  exists angles stack ka ks merge pre,
    extends s sS
      (pre ++ [ECheckCall (merge_argv env merge stack rs)] ++ map ERemove rs)
    /\ anglesfile c' = Some angles /\ toa c' = Some stack
    /\ keepintermediates c' = keepintermediates c
    /\ angles = temp_path env (tempdir c) "angles_tmp_" ".img" ka
    /\ stack = temp_path env (tempdir c) "tmp_allbands_" ".img" ks
    /\ removed pre = []
    /\ (forall p, In p rs ->
          exists band k,
            In band bandList
            /\ p = temp_path env (tempdir c) (bandPrefix band) ".vrt" k
            /\ In (EMkstemp (Some (tempdir c)) (bandPrefix band) ".vrt" p) pre)
    /\ (forall d pr suf p, In (EMkstemp d pr suf p) pre ->
          d = Some (tempdir c)
          /\ ((suf = ".img" /\ (p = angles \/ p = stack))
              \/ (suf = ".vrt" /\ In p rs)))
    /\ List.length rs = List.length bandList
    /\ In (EMkstemp (Some (tempdir c)) "angles_tmp_" ".img" angles) pre
    /\ In (EMkstemp (Some (tempdir c)) "tmp_allbands_" ".img" stack) pre.
Proof.
  intro H. apply makeStackAndAngles_inv in H.
  destruct H as (c1 & trA & C1 & FA & H).
  destruct H as [(e & E & _) | (angles & ka & trL & rl & K & InA & OnlyA
                                 & LF & H)]; [discriminate E|].
  destruct LF as (RL & GL & ML & CL & OL).
  destruct H as [(e & _ & E & _) | (rs' & trP & -> & FP & H)];
    [discriminate E|].
  destruct H as [(e & E & _) | (stack & ks & merge & done & Ks & X & _ & R)];
    [discriminate E|].
  destruct (R _ eq_refl) as [-> E]. injection E as -> ->.
  destruct (OL _ eq_refl) as (new & En & LY). cbn [app] in En. subst new.
  set (mkS := EMkstemp (Some (tempdir c)) "tmp_allbands_" ".img" stack) in *.
  exists angles, stack, ka, ks, merge, (trA ++ trL ++ trP ++ [mkS])%list.
  split.
  { rewrite <- !app_assoc. exact X. }
  split; [reflexivity|]. split; [reflexivity|].
  split; [destruct C1 as [->|[g ->]]; reflexivity|].
  split; [exact K|]. split; [exact Ks|].
  split.
  { now rewrite !removed_app, (prelude_removed c trA FA), RL,
      (print_only_removed _ FP). }
  split.
  { intros p Hp.
    destruct (band_layers_created _ _ _ _ _ _ LY p Hp)
      as (band & k & Hb & Ep & I).
    rewrite (resolved_tempdir c c1 (Some angles) C1) in I, Ep.
    exists band, k. split; [exact Hb|]. split; [exact Ep|].
    apply in_or_app. right. apply in_or_app. now left. }
  split.
  { intros d pr suf p I.
    apply in_app_or in I. destruct I as [I|I].
    { destruct (prelude_mkstemp _ _ _ _ _ _ FA I) as (E1 & _ & E2).
      split; [exact E1|]. left. split; [exact E2|]. left.
      exact (OnlyA _ _ _ _ I). }
    apply in_app_or in I. destruct I as [I|I].
    { destruct (ML _ _ _ _ I) as (b & _ & E & _ & E2).
      rewrite (resolved_tempdir c c1 (Some angles) C1) in E.
      split; [exact E|]. right. split; [exact E2|].
      now destruct (band_layers_mkstemp _ _ _ _ _ _ LY _ _ _ _ I). }
    apply in_app_or in I. destruct I as [I|I].
    { destruct (print_only_In _ _ FP I) as [l E]. discriminate E. }
    in_cases I. injection I as <- _ <- <-. split; [reflexivity|].
    left. split; [reflexivity | now right]. }
  split; [exact (band_layers_length _ _ _ _ _ _ LY)|].
  split.
  - apply in_or_app. left. exact InA.
  - apply in_or_app. right. apply in_or_app. right.
    apply in_or_app. right. now left.
Qed.

(** ** A run that fails *)


(** ** Angles that already match *)

Lemma checkAnglesFile_differ_run (env : Env) (a t : string) (s : State)
  (ti ai : ImageInfo) :
  image_of (fs s) t = Some ti ->
  image_of (fs s) a = Some ai ->
  ~ same_pixel_size ti ai ->
  checkAnglesFile env a t s
  = bind (mkstemp env None "angles" ".vrt")
      (fun vrt => bind (check_call env (reconcile_argv env ti a vrt))
                    (fun _ => ret vrt)) s.
Proof.
  intros Ht Ha G.
  assert (B : negb (Qeq_bool (xRes ti) (xRes ai))
              || negb (Qeq_bool (yRes ti) (yRes ai)) = true).
  { destruct (negb _ || negb _) eqn:E; [reflexivity|].
    apply grid_test in E. contradiction. }
  unfold checkAnglesFile.
  rewrite (bind_ok _ _ s s ti) by (unfold ImageInfo_open; now rewrite Ht).
  rewrite (bind_ok _ _ s s ai) by (unfold ImageInfo_open; now rewrite Ha).
  rewrite B. reflexivity.
Qed.

Lemma created_skipn (n : nat) (tr : list Event) :
  created tr = [] -> created (skipn n tr) = [].
Proof.
  revert n. induction tr as [|e tr IH]; intros n C; [now destruct n|].
  destruct n as [|n]; [exact C|]. cbn [skipn]. apply IH.
  destruct e; cbn [created] in C; solve [exact C | discriminate C].
Qed.

Lemma removed_skipn (n : nat) (tr : list Event) :
  removed tr = [] -> removed (skipn n tr) = [].
Proof.
  revert n. induction tr as [|e tr IH]; intros n C; [now destruct n|].
  destruct n as [|n]; [exact C|]. cbn [skipn]. apply IH.
  destruct e; cbn [removed] in C; solve [exact C | discriminate C].
Qed.

(** What a run added after a state it went through, or would have. *)
Lemma added_later (s sS s' : State) (trS tr : list Event) :
  extends s sS trS -> extends s s' tr ->
  added sS s' = skipn (List.length trS) tr.
Proof.
  unfold extends, added. intros -> ->. rewrite length_app.
  induction (trace s) as [|e l IH]; [reflexivity | exact IH].
Qed.

(** C3: when the angles raster and the reflectance raster have the
    same pixel size on both axes, [checkAnglesFile] returns the angles
    path it was given and does nothing else; and in every run of
    [mainRoutine] that comes to the check with such a pair, on
    supplied files or on files it built, nothing is created from
    there on and the only deletions are those of the final cleanup of
    a run that built its stack without retention: the angles file is
    never deleted as a reconciled derivative.  When the pixel size
    differs on either axis, a temporary name is asked for first.  If
    that fails, its error is the outcome.  If it gives a name, fresh
    and different from the path given, [gdalwarp] is run for a virtual
    raster of the angles at the pixel size and extent of the
    reflectance raster with nearest-neighbour resampling, and that
    name is returned exactly when the command succeeds. *)
Theorem checkAnglesFile_reconciles :
  forall (env : Env) (inputAnglesFile toafile : string) (s : State)
         (toaImgInfo anglesImgInfo : ImageInfo),
    image_of (fs s) toafile = Some toaImgInfo ->
    image_of (fs s) inputAnglesFile = Some anglesImgInfo ->
    (same_pixel_size toaImgInfo anglesImgInfo ->
     checkAnglesFile env inputAnglesFile toafile s = (Ok inputAnglesFile, s)
     /\ forall argv s0 c' r s',
          comes_to_check env argv s0 c' s ->
          anglesfile c' = Some inputAnglesFile ->
          toa c' = Some toafile ->
          mainRoutine env argv s0 = (r, s') ->
          created (added s s') = []
          /\ (forall p, In p (removed (added s s')) ->
                is_some (safedir argv) || is_some (granuledir argv) = true
                /\ keepintermediates c' = false
                /\ own_inputs c' p))
    /\ (~ same_pixel_size toaImgInfo anglesImgInfo ->
        (forall e s1,
           mkstemp env None "angles" ".vrt" s = (Raise e, s1) ->
           checkAnglesFile env inputAnglesFile toafile s = (Raise e, s1))
        /\ (forall vrtName s1,
              mkstemp env None "angles" ".vrt" s = (Ok vrtName, s1) ->
              let argv :=
                reconcile_argv env toaImgInfo inputAnglesFile vrtName in
              let code := exit_code env argv (fs s1) in
              vrtName <> inputAnglesFile
              /\ mem vrtName (files (fs s)) = false
              /\ fs s1 = mkFS (files (fs s) ++ [vrtName]) (images (fs s))
              /\ added s (snd (checkAnglesFile env inputAnglesFile toafile s))
                 = [EMkstemp None "angles" ".vrt" vrtName; ECheckCall argv]
              /\ fst (checkAnglesFile env inputAnglesFile toafile s)
                 = if Z.eqb code 0 then Ok vrtName
                   else Raise (CalledProcessError code argv))).
Proof.
  intros env a t s ti ai Ht Ha. split.
  - intro G. split; [exact (checkAnglesFile_same env a t s ti ai Ht Ha G)|].
    intros argv s0 c' r s' Reach Haf Htf H.
    pose proof (mainRoutine_inv env argv s0 s' r H) as INV.
    cbv zeta in INV.
    destruct INV as [(_ & tr & X & R & C) | [(T & e & _ & MSA) | INV]].
    + assert (XS : exists trS, extends s0 s trS).
      { destruct Reach as [(_ & _ & ->) | (_ & rs & MSA)].
        - exists []. apply extends_refl.
        - apply stack_any_facts in MSA. destruct MSA as (trS & XS & _).
          now exists trS. }
      destruct XS as (trS & XS). rewrite (added_later _ _ _ _ _ XS X).
      split; [now apply created_skipn|].
      intros p Hp. rewrite (removed_skipn _ _ R) in Hp. contradiction.
    + destruct Reach as [(F & _) | (_ & rs & MSA')]; [congruence|].
      rewrite MSA in MSA'. discriminate MSA'.
    + destruct INV as (c'' & sS & S1 & trR & trRest & XT & Same & TAIL).
      assert (E : c'' = c' /\ sS = s).
      { destruct Reach as [(F & -> & ->) | (T & rs & MSA')];
          destruct S1 as [(F' & -> & ->) | (T' & rs' & MSA)];
          try congruence; [now split|].
        rewrite MSA in MSA'. now injection MSA'. }
      destruct E as [-> ->].
      specialize (Same a t ti ai Haf Htf Ht Ha G). subst trR.
      destruct TAIL as [(_ & RF) | (a' & t' & vrt & k & ti' & _ & _ & _ & _
                                     & _ & E & _)]; [|discriminate E].
      cbn [app] in XT. rewrite (added_app _ _ _ XT).
      destruct RF as (C & RR & _). split; [exact C|].
      intros p Hp. destruct (RR p Hp) as [[]|Own]. exact Own.
  - intro G. rewrite (checkAnglesFile_differ_run env a t s ti ai Ht Ha G).
    split.
    + intros e s1 M. now apply bind_raise.
    + intros vrt s1 M. cbv zeta.
      rewrite (bind_ok _ _ _ _ _ M).
      apply mkstemp_inv in M.
      destruct M as [(p & Ep & X & F & Fs & Im & K) | (e' & Ep & _)];
        [|discriminate Ep].
      injection Ep as <-.
      split. { intros ->. apply image_of_exists in Ha. congruence. }
      split; [exact F|].
      split. { destruct (fs s1) as [fl im]. cbn in Fs, Im. now subst. }
      unfold bind, check_call, ret, exit_code.
      destruct (run_process env (reconcile_argv env ti a vrt) (fs s1))
        as [code f].
      cbn [fst]. destruct (Z.eqb code 0); cbn [fst snd].
      * split; [|reflexivity]. apply added_app. cbn [trace].
        rewrite X. now rewrite <- app_assoc.
      * split; [|reflexivity]. apply added_app. cbn [trace].
        rewrite X. now rewrite <- app_assoc.
Qed.

(** ** A run that succeeds *)


(** ** The archive of the scene *)

Lemma chooseResampleMethod_ignores_yRes_witness :
  image_of Scene.skewed "/in/square.jp2"
  = Some (mkImageInfo 20 20 0 0 1000 1000)
  /\ image_of Scene.skewed "/in/oblong.jp2"
     = Some (mkImageInfo 20 60 0 0 1000 3000)
  /\ fst (chooseResampleMethod 20 "/in/square.jp2" (Scene.start Scene.skewed))
     = fst (chooseResampleMethod 20 "/in/oblong.jp2" (Scene.start Scene.skewed))
  /\ fst (chooseResampleMethod 20 "/in/oblong.jp2" (Scene.start Scene.skewed))
     = Ok "near".
Proof.
  split; [reflexivity|]. split; [reflexivity|].
  destruct (chooseResampleMethod_ignores_yRes 20
              "/in/oblong.jp2" "/in/square.jp2"
              (Scene.start Scene.skewed) (Scene.start Scene.skewed)
              (mkImageInfo 20 60 0 0 1000 3000)
              (mkImageInfo 20 20 0 0 1000 1000)
              eq_refl eq_refl (Qeq_refl 20)) as [Same Near].
  split; [symmetry; exact Same|].
  apply Near. reflexivity.
Defined.

(** The archive with two granules stops at discovery, having touched
    nothing. *)
Lemma findGranuleDir_total_witness :
  mainRoutine Scene.env Scene.from_safedir
    (Scene.start Scene.disk_two_granules)
  = (Raise (FmaskFileError
              ("Found multiple GRANULE sub-directories: "
               ++ "/data/S2A.SAFE/GRANULE/L1C_T55HBV,"
               ++ "/data/S2A.SAFE/GRANULE/L1C_T55HBU")),
     mkState Scene.disk_two_granules 0
       [EGlob "/data/S2A.SAFE/GRANULE/L1C_*"
          ["/data/S2A.SAFE/GRANULE/L1C_T55HBV";
           "/data/S2A.SAFE/GRANULE/L1C_T55HBU"]]).
Proof.
  destruct (findGranuleDir_total Scene.env "/data/S2A.SAFE"
              (Scene.start Scene.disk_two_granules))
    as (_ & _ & Many & _ & Stop).
  destruct (Stop Scene.from_safedir eq_refl eq_refl eq_refl eq_refl)
    as (e & E & Run).
  - vm_compute. discriminate.
  - rewrite Many in E by (vm_compute; lia).
    injection E as <-. exact Run.
Defined.

(** A granule of the old layout: the one XML file is found by the
    search. *)
Lemma findGranuleXml_canonical_first_witness :
  exists_in Scene.env Scene.disk_old_layout (Scene.granule ++ "/MTD_TL.xml")
  = false
  /\ glob_glob Scene.env (Scene.granule ++ "/*.xml") Scene.disk_old_layout
     = [Scene.granule ++ "/S2A_OPER_MTD_L1C_TL.xml"]
  /\ fst (findGranuleXml Scene.env Scene.granule
            (Scene.start Scene.disk_old_layout))
     = Ok (Scene.granule ++ "/S2A_OPER_MTD_L1C_TL.xml").
Proof.
  split; [reflexivity|]. split; [reflexivity|].
  destruct (findGranuleXml_canonical_first Scene.env Scene.granule
              (Scene.start Scene.disk_old_layout)) as [_ Absent].
  destruct (Absent eq_refl) as (_ & One & _).
  apply One. reflexivity.
Defined.

(** The current layout: [MTD_TL.xml] is taken without a search. *)
Example findGranuleXml_current_layout :
  findGranuleXml Scene.env Scene.granule (Scene.start Scene.disk)
  = (Ok (Scene.granule ++ "/MTD_TL.xml"), Scene.start Scene.disk).
Proof. reflexivity. Qed.

(** ** Angles supplied by the caller *)

(** Supplied angles on the grid of the stack are returned as they
    are and the run deletes nothing; supplied angles on the coarse
    grid of the metadata are warped to a fresh virtual raster, which
    is what is returned. *)
Lemma checkAnglesFile_reconciles_witness :
  image_of Scene.supplied "/in/toa.img" = Some (Scene.grid 20)
  /\ image_of Scene.supplied "/in/angles.img" = Some (Scene.grid 20)
  /\ checkAnglesFile Scene.env "/in/angles.img" "/in/toa.img"
       (Scene.start Scene.supplied)
     = (Ok "/in/angles.img", Scene.start Scene.supplied)
  /\ removed (added (Scene.start Scene.supplied)
                (snd (mainRoutine Scene.env Scene.from_files
                        (Scene.start Scene.supplied)))) = []
  /\ image_of Scene.supplied_coarse "/in/angles.img"
     = Some (Scene.grid 5000)
  /\ fst (checkAnglesFile Scene.env "/in/angles.img" "/in/toa.img"
            (Scene.start Scene.supplied_coarse))
     = Ok "/tmp/angles0.vrt"
  /\ added (Scene.start Scene.supplied_coarse)
       (snd (checkAnglesFile Scene.env "/in/angles.img" "/in/toa.img"
               (Scene.start Scene.supplied_coarse)))
     = [EMkstemp None "angles" ".vrt" "/tmp/angles0.vrt";
        ECheckCall (reconcile_argv Scene.env (Scene.grid 20)
                      "/in/angles.img" "/tmp/angles0.vrt")].
Proof.
  split; [reflexivity|]. split; [reflexivity|].
  destruct (checkAnglesFile_reconciles Scene.env "/in/angles.img"
              "/in/toa.img" (Scene.start Scene.supplied)
              (Scene.grid 20) (Scene.grid 20) eq_refl eq_refl) as [Same _].
  destruct Same as [Unchanged Kept]; [split; reflexivity|].
  split; [exact Unchanged|].
  split.
  { destruct (Kept Scene.from_files (Scene.start Scene.supplied)
                Scene.from_files
                (fst (mainRoutine Scene.env Scene.from_files
                        (Scene.start Scene.supplied)))
                (snd (mainRoutine Scene.env Scene.from_files
                        (Scene.start Scene.supplied))))
      as [_ R].
    - left. now repeat split.
    - reflexivity.
    - reflexivity.
    - vm_compute. reflexivity.
    - apply In_nil_eq. intros p Hp. destruct (R p Hp) as [T _].
      discriminate T. }
  split; [reflexivity|].
  destruct (checkAnglesFile_reconciles Scene.env "/in/angles.img"
              "/in/toa.img" (Scene.start Scene.supplied_coarse)
              (Scene.grid 20) (Scene.grid 5000) eq_refl eq_refl)
    as [_ Differ].
  destruct Differ as [_ Named].
  { intros [X _]. vm_compute in X. discriminate X. }
  destruct (Named "/tmp/angles0.vrt"
              (snd (mkstemp Scene.env None "angles" ".vrt"
                      (Scene.start Scene.supplied_coarse))))
    as (_ & _ & _ & A & R); [vm_compute; reflexivity|].
  split; [exact R | exact A].
Defined.

(** Angles on the coarse grid of the metadata are resampled with
    nearest neighbour to the grid of the stack, and the virtual raster
    is what is returned. *)
Example checkAnglesFile_coarse :
  let run := checkAnglesFile Scene.env "/in/angles.img" "/in/toa.img"
               (Scene.start Scene.supplied_coarse) in
  fst run = Ok "/tmp/angles0.vrt"
  /\ calls (trace (snd run))
     = [["/usr/bin/gdalwarp"; "-q"; "-of"; "VRT"; "-tr"; "20"; "20";
         "-te"; "0"; "0"; "109800"; "109800"; "-r"; "near";
         "/in/angles.img"; "/tmp/angles0.vrt"]].
Proof. vm_compute. split; reflexivity. Qed.

(** ** Runs on the archive of the scene *)



(** Two files match the pattern of band B02: the error says that the
    band cannot be found, and says nothing of several matches. *)
Lemma two_matches_plain_message :
  let run := makeStackAndAngles Scene.env Scene.from_safedir
               (Scene.start Scene.disk_two_B02) in
  glob_glob Scene.env (bandPattern (Scene.granule ++ "/IMG_DATA") "B02")
    Scene.disk_two_B02
  = [Scene.band_file "B02"; Scene.band_file "copy_B02"]
  /\ fst run = Raise (FmaskFileError "Cannot find input band B02")
  /\ contains "multiple matches" "Cannot find input band B02" = false.
Proof. vm_compute. repeat split. Qed.

Lemma band_search_must_find_one_witness :
  let s := Scene.start Scene.disk_two_B02 in
  let run := makeStackAndAngles Scene.env Scene.from_safedir s in
  let found := [Scene.band_file "B02"; Scene.band_file "copy_B02"] in
  In "B02" bandList
  /\ In (EGlob (bandPattern (Scene.granule ++ "/IMG_DATA") "B02") found)
        (added s (snd run))
  /\ List.length found <> 1%nat
  /\ fst run = Raise (FmaskFileError ("Cannot find input band " ++ "B02"))
  /\ (forall d p, ~ In (EMkstemp d "tmp_allbands_" ".img" p)
                    (added s (snd run))).
Proof.
  cbv zeta.
  assert (B : In "B02" bandList) by (right; now left).
  assert (G : In (EGlob (bandPattern (Scene.granule ++ "/IMG_DATA") "B02")
                    [Scene.band_file "B02"; Scene.band_file "copy_B02"])
                 (added (Scene.start Scene.disk_two_B02)
                    (snd (makeStackAndAngles Scene.env Scene.from_safedir
                            (Scene.start Scene.disk_two_B02)))))
    by (vm_compute; tauto).
  assert (L : List.length [Scene.band_file "B02"; Scene.band_file "copy_B02"]
              <> 1%nat) by discriminate.
  split; [exact B|]. split; [exact G|]. split; [exact L|].
  destruct (band_search_must_find_one Scene.env Scene.from_safedir
              (Scene.start Scene.disk_two_B02)
              (snd (makeStackAndAngles Scene.env Scene.from_safedir
                      (Scene.start Scene.disk_two_B02)))
              (fst (makeStackAndAngles Scene.env Scene.from_safedir
                      (Scene.start Scene.disk_two_B02)))
              (Scene.granule ++ "/IMG_DATA") "B02" _
              (surjective_pairing _) B G L) as (E & NoStack & _).
  split; [exact E | exact NoStack].
Defined.


Lemma stack_follows_bandList_witness :
  Scene.built = (Ok (Scene.built_bands, Scene.built_args), snd Scene.built)
  /\ nth_error bandList 8 = Some "B8A"
  /\ exists merge stack,
       last (calls (added (Scene.start Scene.disk) (snd Scene.built))) []
       = merge_argv Scene.env merge stack Scene.built_bands
       /\ nth_error Scene.built_bands 8 = Some "/scratch/run1/tmp_B8A_9.vrt".
Proof.
  assert (Run : makeStackAndAngles Scene.env Scene.from_safedir
                  (Scene.start Scene.disk)
                = (Ok (Scene.built_bands, Scene.built_args), snd Scene.built))
    by (vm_compute; reflexivity).
  split; [exact Run|]. split; [reflexivity|].
  destruct (stack_follows_bandList Scene.env Scene.from_safedir _ _ _ _ Run)
    as (imgDir & merge & stack & _ & _ & Last & _).
  exists merge, stack. split; [exact Last | reflexivity].
Defined.

(** The same archive listed in the opposite order gives the same
    order of bands to the merge. *)
Example stack_order_reversed_listing :
  let run := makeStackAndAngles Scene.env Scene.from_safedir
               (Scene.start (mkFS (rev (files Scene.disk))
                               (images Scene.disk))) in
  match fst run with
  | Ok (bands, _) => bands = Scene.built_bands
  | Raise _ => False
  end.
Proof. vm_compute. reflexivity. Qed.

(** ** Where the reconciled angles are put *)

(** C9 at a run whose temporary directory is [/scratch/run1]: the
    angles file, the thirteen intermediates and the stack are created
    there, but the reconciled angles are created by a [mkstemp] that
    is given no directory, and land in the default temporary directory
    of the system. *)
Theorem reconciled_angles_leave_tempdir :
  let run := mainRoutine Scene.env Scene.from_safedir
               (Scene.start Scene.disk) in
  tempdir Scene.from_safedir = "/scratch/run1"
  /\ fst run = Ok tt
  /\ In (EMkstemp None "angles" ".vrt" "/tmp/angles15.vrt") (trace (snd run))
  /\ String.prefix "/scratch/run1" "/tmp/angles15.vrt" = false
  /\ List.length
       (filter (fun e => match e with
                         | EMkstemp (Some "/scratch/run1") _ _ _ => true
                         | _ => false
                         end)
          (created (trace (snd run)))) = 15%nat
  /\ List.length (created (trace (snd run))) = 16%nat.
Proof. vm_compute. repeat split. tauto. Qed.

(** * Further properties of the script *)

(** ** The checks on the command line *)

(** X1: [getCmdargs] accepts a namespace exactly when an output is
    named and exactly one of the three ways to name the input is used
    ([--safedir], [--granuledir], or [--toa] together with
    [--anglesfile]); it then returns the namespace as it is and does
    nothing.  Every other namespace ends the process with status 1,
    the files untouched. *)
Theorem getCmdargs_accepts_one_mode :
  forall (argv : Cmdargs) (s : State),
    (is_some (output argv) = true /\ input_modes argv = 1%nat ->
     getCmdargs argv s = (Ok argv, s))
    /\ (~ (is_some (output argv) = true /\ input_modes argv = 1%nat) ->
        fst (getCmdargs argv s) = Raise (SystemExit 1)
        /\ fs (snd (getCmdargs argv s)) = fs s
        /\ rng (snd (getCmdargs argv s)) = rng s).
Proof.
  intros argv s. unfold getCmdargs, input_modes.
  destruct (safedir argv), (granuledir argv), (toa argv), (anglesfile argv),
    (output argv); cbn [is_some andb orb negb Nat.add];
    (split;
     [ intros [O N]; solve [reflexivity | discriminate O | discriminate N]
     | intro N; try (exfalso; apply N; split; reflexivity);
       repeat split ]).
Qed.

Lemma getCmdargs_files (argv : Cmdargs) (t a : string) (s : State) :
  safedir argv = None -> granuledir argv = None ->
  toa argv = Some t -> anglesfile argv = Some a ->
  is_some (output argv) = true ->
  getCmdargs argv s = (Ok argv, s).
Proof.
  intros Hs Hg Ht Ha Ho. unfold getCmdargs.
  rewrite Hs, Hg, Ht, Ha, Ho. reflexivity.
Qed.

(** ** Building the stack: a missing tool, and the namespace *)

(** X4: when [gdal_merge.py] cannot be located, [makeStackAndAngles]
    fails before it creates any temporary file or runs any command,
    and leaves the files as they were.  The error is
    [FmaskInstallationError], unless the search for the granule had to
    be made and has already failed. *)
Theorem makeStackAndAngles_needs_gdal_merge :
  forall (env : Env) (c : Cmdargs) (s : State),
    find_executable env "gdal_merge.py" = None ->
    exists e,
      fst (makeStackAndAngles env c s) = Raise e
      /\ (e = FmaskInstallationError
               "Unable to find gdal_merge.py command. Check installation of GDAL package. "
          \/ (granuledir c = None /\ exists sd msg,
                safedir c = Some sd
                /\ fst (findGranuleDir env sd s) = Raise (FmaskFileError msg)
                /\ e = FmaskFileError msg))
      /\ fs (snd (makeStackAndAngles env c s)) = fs s
      /\ created (trace (snd (makeStackAndAngles env c s)))
         = created (trace s)
      /\ calls (trace (snd (makeStackAndAngles env c s))) = calls (trace s).
Proof.
  intros env c s F.
  set (msg := "Unable to find gdal_merge.py command. Check installation of GDAL package. ").
  assert (TOOL : forall s1 (k : string -> M (list string * Cmdargs)),
             bind match find_executable env "gdal_merge.py" with
                  | Some p => ret p
                  | None => raise (FmaskInstallationError msg)
                  end k s1
             = (Raise (FmaskInstallationError msg), s1)).
  { intros s1 k. apply bind_raise. now rewrite F. }
  destruct (granuledir c) as [g|] eqn:G; [|destruct (safedir c) as [sd|] eqn:S].
  - assert (R : makeStackAndAngles env c s
                = (Raise (FmaskInstallationError msg), s)).
    { unfold makeStackAndAngles. rewrite G.
      rewrite (bind_ok _ _ s s c) by reflexivity.
      apply TOOL. }
    rewrite R. cbn [fst snd]. eexists. split; [reflexivity|].
    split; [now left|]. now repeat split.
  - pose proof (findGranuleDir_run env sd s) as D.
    destruct (glob_glob env (sd ++ "/GRANULE/L1C_*") (fs s))
      as [|g [|g' l]] eqn:E.
    + assert (R : exists m,
                 makeStackAndAngles env c s
                 = (Raise (FmaskFileError m), snd (findGranuleDir env sd s))
                 /\ fst (findGranuleDir env sd s) = Raise (FmaskFileError m)).
      { eexists. split; [|rewrite D; reflexivity].
        unfold makeStackAndAngles. rewrite G, S. rewrite D. cbn [snd].
        apply bind_raise. apply bind_raise. exact D. }
      destruct R as [m [R R']]. rewrite R, D.
      cbn [fst snd fs trace]. eexists. split; [reflexivity|].
      split.
      * right. split; [reflexivity|]. exists sd, m. now repeat split.
      * rewrite created_app, calls_app. cbn [created calls].
        now rewrite !app_nil_r.
    + assert (R : makeStackAndAngles env c s
                  = (Raise (FmaskInstallationError msg),
                     snd (findGranuleDir env sd s))).
      { unfold makeStackAndAngles. rewrite G, S.
        rewrite (bind_ok _ _ s (snd (findGranuleDir env sd s))
                   (set_granuledir c (Some g))).
        - apply TOOL.
        - rewrite D. cbn [snd]. rewrite (bind_ok _ _ _ _ _ D). reflexivity. }
      rewrite R, D. cbn [fst snd fs trace]. eexists. split; [reflexivity|].
      split; [now left|].
      rewrite created_app, calls_app. cbn [created calls].
      now rewrite !app_nil_r.
    + assert (R : exists m,
                 makeStackAndAngles env c s
                 = (Raise (FmaskFileError m), snd (findGranuleDir env sd s))
                 /\ fst (findGranuleDir env sd s) = Raise (FmaskFileError m)).
      { eexists. split; [|rewrite D; reflexivity].
        unfold makeStackAndAngles. rewrite G, S. rewrite D. cbn [snd].
        apply bind_raise. apply bind_raise. exact D. }
      destruct R as [m [R R']]. rewrite R, D.
      cbn [fst snd fs trace]. eexists. split; [reflexivity|].
      split.
      * right. split; [reflexivity|]. exists sd, m. now repeat split.
      * rewrite created_app, calls_app. cbn [created calls].
        now rewrite !app_nil_r.
  - assert (R : makeStackAndAngles env c s
                = (Raise (FmaskInstallationError msg), s)).
    { unfold makeStackAndAngles. rewrite G, S.
      rewrite (bind_ok _ _ s s c) by reflexivity.
      apply TOOL. }
    rewrite R. cbn [fst snd]. eexists. split; [reflexivity|].
    split; [now left|]. now repeat split.
Qed.

(** X5: when [makeStackAndAngles] returns, the namespace it returns
    names the angles file and the stack that it created, in that
    order, as [anglesfile] and [toa]; a granule directory given by the
    caller is kept; and no other option of the namespace is changed. *)
Theorem makeStackAndAngles_frame :
  forall (env : Env) (c c' : Cmdargs) (s s' : State) (bands : list string),
    makeStackAndAngles env c s = (Ok (bands, c'), s') ->
    same_options c c'
    /\ (exists angles stack,
          anglesfile c' = Some angles /\ toa c' = Some stack
          /\ In (EMkstemp (Some (tempdir c)) "angles_tmp_" ".img" angles)
                (added s s')
          /\ In (EMkstemp (Some (tempdir c)) "tmp_allbands_" ".img" stack)
                (added s s'))
    /\ (forall g, granuledir c = Some g -> granuledir c' = Some g)
    /\ is_some (granuledir c') = is_some (granuledir c) || is_some (safedir c).
Proof.
  intros env c c' s s' bands H.
  assert (GR : (forall g, granuledir c = Some g -> granuledir c' = Some g)
               /\ is_some (granuledir c')
                  = is_some (granuledir c) || is_some (safedir c)).
  { unfold makeStackAndAngles in H. step H.
    assert (C1 : (forall g, granuledir c = Some g -> granuledir a = Some g)
                 /\ is_some (granuledir a)
                    = is_some (granuledir c) || is_some (safedir c)).
    { destruct (granuledir c) as [g|] eqn:G;
        [|destruct (safedir c) as [sd|] eqn:S].
      - unfold ret in Hm. injection Hm as <- _. rewrite G. now split.
      - step Hm. unfold ret in Hm. injection Hm as <- _.
        split; [intros g E; discriminate E | reflexivity].
      - unfold ret in Hm. injection Hm as <- _. rewrite G.
        split; [intros g E; discriminate E | reflexivity]. }
    clear Hm. repeat (step H).
    unfold ret in H. injection H as _ <- _.
    exact C1. }
  pose proof (stack_success_facts _ _ _ _ _ _ H) as SF.
  apply makeStackAndAngles_inv in H.
  destruct H as (c1 & trA & C1 & FA & H).
  destruct H as [(e & E & _) | (angles & ka & trL & rl & K & InA & OnlyA
                                 & LF & H)]; [discriminate E|].
  destruct H as [(e & _ & E & _) | (rs' & trP & -> & FP & H)];
    [discriminate E|].
  destruct H as [(e & E & _) | (stack & ks & merge & done & Ks & X & _ & R)];
    [discriminate E|].
  destruct (R _ eq_refl) as [-> E]. injection E as -> ->.
  split.
  { destruct C1 as [->|[g ->]]; unfold same_options; now repeat split. }
  split; [|exact GR].
  exists angles, stack. split; [reflexivity|]. split; [reflexivity|].
  rewrite (added_app _ _ _ X). split.
  - apply in_or_app. left. exact InA.
  - apply in_or_app. right. apply in_or_app. right.
    apply in_or_app. right. apply in_or_app. left. now left.
Qed.

(** ** The logic of traces *)

Lemma hoare_ret {A} (P : Event -> Prop) (Q : A -> Prop) (a : A) :
  Q a -> hoare P (ret a) Q.
Proof.
  intros HQ s r s' H. unfold ret in H. injection H as <- <-. split.
  - exists []. split; [apply extends_refl | constructor].
  - intros b E. now injection E as <-.
Qed.

Lemma hoare_raise {A} (P : Event -> Prop) (Q : A -> Prop) (e : Exn) :
  hoare P (raise e) Q.
Proof.
  intros s r s' H. unfold raise in H. injection H as <- <-. split.
  - exists []. split; [apply extends_refl | constructor].
  - intros b E. discriminate E.
Qed.

Lemma hoare_bind {A B} (P : Event -> Prop) (m : M A) (k : A -> M B)
  (Q1 : A -> Prop) (Q2 : B -> Prop) :
  hoare P m Q1 -> (forall a, Q1 a -> hoare P (k a) Q2) ->
  hoare P (bind m k) Q2.
Proof.
  intros Hm Hk s r s' H. apply bind_inv in H.
  destruct H as [(a & s1 & E1 & E2) | (e & E1 & ->)].
  - destruct (Hm _ _ _ E1) as [(t1 & X1 & F1) QA].
    destruct (Hk a (QA a eq_refl) _ _ _ E2) as [(t2 & X2 & F2) QB].
    split; [|exact QB]. exists (t1 ++ t2)%list. split.
    + exact (extends_trans _ _ _ _ _ X1 X2).
    + apply Forall_app. now split.
  - destruct (Hm _ _ _ E1) as [X _]. split; [exact X|].
    intros b E. discriminate E.
Qed.

Lemma hoare_conseq {A} (P P' : Event -> Prop) (m : M A) (Q Q' : A -> Prop) :
  (forall e, P e -> P' e) -> (forall a, Q a -> Q' a) ->
  hoare P m Q -> hoare P' m Q'.
Proof.
  intros HP HQ Hm s r s' H. destruct (Hm _ _ _ H) as [(tr & X & F) QA].
  split.
  - exists tr. split; [exact X|]. revert F. apply Forall_impl. exact HP.
  - intros a E. apply HQ. now apply QA.
Qed.

Lemma hoare_and {A} (P : Event -> Prop) (m : M A) (Q Q' : A -> Prop) :
  hoare P m Q -> (forall s a s', m s = (Ok a, s') -> Q' a) ->
  hoare P m (fun a => Q a /\ Q' a).
Proof.
  intros Hm HQ s r s' H. destruct (Hm _ _ _ H) as [X QA].
  split; [exact X|]. intros a E. subst r. split.
  - now apply QA.
  - exact (HQ _ _ _ H).
Qed.

Lemma hoare_when (P : Event -> Prop) (b : bool) (m : M unit) :
  hoare P m (fun _ => True) -> hoare P (when b m) (fun _ => True).
Proof.
  intro Hm. destruct b; cbn [when]; [exact Hm | now apply hoare_ret].
Qed.

Lemma hoare_when_if (P : Event -> Prop) (b : bool) (m : M unit) :
  (b = true -> hoare P m (fun _ => True)) ->
  hoare P (when b m) (fun _ => True).
Proof.
  intro Hm. destruct b; cbn [when]; [now apply Hm | now apply hoare_ret].
Qed.

Lemma hoare_log (P : Event -> Prop) (e : Event) :
  P e -> hoare P (log e) (fun _ => True).
Proof.
  intros HP s r s' H. unfold log in H. injection H as <- <-. split.
  - exists [e]. split; [reflexivity | now constructor].
  - trivial.
Qed.

Lemma hoare_silent {A} (P : Event -> Prop) (m : M A) :
  (forall s r s', m s = (r, s') -> s' = s) ->
  hoare P m (fun _ => True).
Proof.
  intros Hm s r s' H. rewrite (Hm _ _ _ H). split.
  - exists []. split; [apply extends_refl | constructor].
  - trivial.
Qed.

Lemma hoare_event {A} (P : Event -> Prop) (m : M A) (e : Event) :
  (forall s r s', m s = (r, s') -> extends s s' [e]) ->
  P e -> hoare P m (fun _ => True).
Proof.
  intros Hm HP s r s' H. split.
  - exists [e]. split; [exact (Hm _ _ _ H) | now constructor].
  - trivial.
Qed.

Section TraceLogic.

Variable env : Env.
Variable P : Event -> Prop.

Lemma hoare_glob (pattern : string) :
  (forall found, P (EGlob pattern found)) ->
  hoare P (glob env pattern) (fun _ => True).
Proof.
  intros HP s r s' H. rewrite glob_run in H. injection H as <- <-. split.
  - eexists [_]. split; [reflexivity | constructor; [apply HP | constructor]].
  - trivial.
Qed.

Lemma hoare_path_exists (path : string) :
  hoare P (path_exists env path) (fun _ => True).
Proof.
  apply hoare_silent. intros s r s' H. unfold path_exists in H.
  now injection H.
Qed.

Lemma hoare_ImageInfo_open (path : string) :
  hoare P (ImageInfo_open path) (fun _ => True).
Proof.
  apply hoare_silent. intros s r s' H.
  now apply ImageInfo_open_inv in H.
Qed.

Lemma hoare_os_remove (path : string) :
  P (ERemove path) -> hoare P (os_remove env path) (fun _ => True).
Proof.
  intros HP s r s' H. apply os_remove_inv in H.
  destruct H as [(_ & X & _) | (e & _ & ->)]; (split; [|trivial]).
  - exists [ERemove path]. split; [exact X | now constructor].
  - exists []. split; [apply extends_refl | constructor].
Qed.

Lemma hoare_mkstemp (dir : option string) (pre suf : string) :
  (forall k, P (EMkstemp dir pre suf
                  (temp_path env (temp_root env dir) pre suf k))) ->
  hoare P (mkstemp env dir pre suf)
    (fun p => exists k, p = temp_path env (temp_root env dir) pre suf k).
Proof.
  intros HP s r s' H. apply mkstemp_inv in H.
  destruct H as [(p & -> & X & _ & _ & _ & k & K) | (e & -> & X & _)].
  - split.
    + exists [EMkstemp dir pre suf p]. split; [exact X|].
      constructor; [|constructor]. rewrite K. apply HP.
    + intros a E. injection E as <-. now exists k.
  - split.
    + exists []. split; [exact X | constructor].
    + intros a E. discriminate E.
Qed.

Lemma hoare_check_call (argv : list string) :
  P (ECheckCall argv) -> hoare P (check_call env argv) (fun _ => True).
Proof.
  apply hoare_event. intros s r s' H. now apply check_call_inv in H.
Qed.

Lemma hoare_call_makeAngles (xmlfile out : string) :
  P (EMakeAngles xmlfile out) ->
  hoare P (call_makeAngles env xmlfile out) (fun _ => True).
Proof.
  apply hoare_event. intros s r s' H. now apply call_makeAngles_inv in H.
Qed.

Lemma hoare_print (line : string) :
  P (EPrint line) -> hoare P (print line) (fun _ => True).
Proof. apply hoare_log. Qed.

Lemma hoare_chooseResampleMethod (outpixsize : Z) (inBandImg : string) :
  hoare P (chooseResampleMethod outpixsize inBandImg) (fun _ => True).
Proof.
  unfold chooseResampleMethod.
  apply (hoare_bind _ _ _ (fun _ => True)); [apply hoare_ImageInfo_open|].
  intros i _. now apply hoare_ret.
Qed.

Lemma hoare_findGranuleDir (safedir : string) :
  (forall pat found, P (EGlob pat found)) ->
  hoare P (findGranuleDir env safedir) (fun _ => True).
Proof.
  intro HP. unfold findGranuleDir.
  apply (hoare_bind _ _ _ (fun _ => True)); [now apply hoare_glob|].
  intros [|g [|g' l]] _;
    [apply hoare_raise | now apply hoare_ret | apply hoare_raise].
Qed.

Lemma hoare_findGranuleXml (granuleDir : string) :
  (forall pat found, P (EGlob pat found)) ->
  hoare P (findGranuleXml env granuleDir) (fun _ => True).
Proof.
  intro HP. unfold findGranuleXml.
  apply (hoare_bind _ _ _ (fun _ => True)); [apply hoare_path_exists|].
  intros present _. destruct (negb present); [|now apply hoare_ret].
  apply (hoare_bind _ _ _ (fun _ => True)); [now apply hoare_glob|].
  intros [|g [|g' l]] _;
    [apply hoare_raise | now apply hoare_ret | apply hoare_raise].
Qed.

Lemma hoare_removeEach (l : list string) :
  (forall p, In p l -> P (ERemove p)) ->
  hoare P (removeEach env l) (fun _ => True).
Proof.
  induction l as [|fn rest IH]; intro HP; cbn [removeEach].
  - now apply hoare_ret.
  - apply (hoare_bind _ _ _ (fun _ => True)).
    + apply hoare_os_remove. apply HP. now left.
    + intros _ _. apply IH. intros p I. apply HP. now right.
Qed.

Lemma hoare_removeExisting (l : list string) :
  (forall p, In p l -> P (ERemove p)) ->
  hoare P (removeExisting env l) (fun _ => True).
Proof.
  induction l as [|fn rest IH]; intro HP; cbn [removeExisting].
  - now apply hoare_ret.
  - apply (hoare_bind _ _ _ (fun _ => True)); [apply hoare_path_exists|].
    intros present _.
    apply (hoare_bind _ _ _ (fun _ => True)).
    + apply hoare_when. apply hoare_os_remove. apply HP. now left.
    + intros _ _. apply IH. intros p I. apply HP. now right.
Qed.

End TraceLogic.

(** ** The events of [makeStackAndAngles] *)

Section StackEvents.

Variable env : Env.
Variable c0 : Cmdargs.

Lemma hoare_resampleBand (c : Cmdargs) (imgDir band : string) :
  tempdir c = tempdir c0 -> pixsize c = pixsize c0 -> In band bandList ->
  hoare (stack_event env c0) (resampleBand env c imgDir band)
    (band_temp env c0).
Proof.
  intros T X B. unfold resampleBand. rewrite T.
  eapply hoare_bind.
  { apply hoare_mkstemp. intro k. cbn [stack_event temp_root].
    split; [reflexivity | now exists k]. }
  cbv beta. intros tmpBand [k K]. cbn [temp_root] in K.
  apply (hoare_bind _ _ _ (fun _ => True)).
  { apply hoare_glob. intro found. exact I. }
  intros [|img [|img' l]] _; try apply hoare_raise.
  apply (hoare_bind _ _ _ (fun _ => True));
    [apply hoare_chooseResampleMethod|].
  intros m _.
  apply (hoare_bind _ _ _ (fun _ => True)).
  { apply hoare_check_call. cbn [stack_event]. left.
    exists m, img, tmpBand. unfold warp_argv. now rewrite X. }
  intros _ _. apply hoare_ret. now exists band, k.
Qed.

Lemma hoare_resampleBands (c : Cmdargs) (imgDir : string)
  (bands acc : list string) :
  tempdir c = tempdir c0 -> pixsize c = pixsize c0 ->
  (forall band, In band bands -> In band bandList) ->
  Forall (band_temp env c0) acc ->
  hoare (stack_event env c0) (resampleBands env c imgDir bands acc)
    (Forall (band_temp env c0)).
Proof.
  intros T X. revert acc.
  induction bands as [|band rest IH]; intros acc B A; cbn [resampleBands].
  - now apply hoare_ret.
  - eapply hoare_bind.
    + apply (hoare_resampleBand c imgDir band T X). apply B. now left.
    + cbv beta. intros tmpBand K. apply IH.
      * intros b Hb. apply B. now right.
      * apply Forall_app. split; [exact A | now constructor].
Qed.

Lemma hoare_makeStackAndAngles :
  hoare (stack_event env c0) (makeStackAndAngles env c0) (fun _ => True).
Proof.
  unfold makeStackAndAngles.
  apply (hoare_bind _ _ _
           (fun c => tempdir c = tempdir c0 /\ pixsize c = pixsize c0
                     /\ verbose c = verbose c0)).
  { destruct (granuledir c0); [now apply hoare_ret|].
    destruct (safedir c0) as [sd|]; [|now apply hoare_ret].
    apply (hoare_bind _ _ _ (fun _ => True)).
    - apply hoare_findGranuleDir. intros pat found. exact I.
    - intros g _. now apply hoare_ret. }
  intros c (T & X & V).
  apply (hoare_bind _ _ _
           (fun m => find_executable env "gdal_merge.py" = Some m)).
  { destruct (find_executable env "gdal_merge.py") as [m|];
      [now apply hoare_ret | apply hoare_raise]. }
  intros merge F. rewrite T.
  eapply hoare_bind.
  { apply hoare_mkstemp. intro k. cbn [stack_event temp_root].
    split; [reflexivity | now exists k]. }
  cbv beta. intros angles _.
  apply (hoare_bind _ _ _ (fun _ => True)).
  { apply hoare_findGranuleXml. intros pat found. exact I. }
  intros xmlfile _.
  apply (hoare_bind _ _ _ (fun _ => True)).
  { apply hoare_when_if. intro B. apply hoare_print. cbn [stack_event].
    split; [now rewrite <- V | now left]. }
  intros _ _.
  apply (hoare_bind _ _ _ (fun _ => True)).
  { apply hoare_call_makeAngles. exact I. }
  intros _ _. cbv zeta.
  eapply hoare_bind.
  { apply hoare_resampleBands; [exact T | exact X | auto | constructor]. }
  cbv beta. intros rs RS.
  apply (hoare_bind _ _ _ (fun _ => True)).
  { apply hoare_when_if. intro B. apply hoare_print. cbn [stack_event].
    split; [now rewrite <- V | right].
    change (pixsize (set_anglesfile c (Some angles))) with (pixsize c).
    now rewrite X. }
  intros _ _.
  change (tempdir (set_anglesfile c (Some angles))) with (tempdir c).
  rewrite T.
  eapply hoare_bind.
  { apply hoare_mkstemp. intro k. cbn [stack_event temp_root].
    split; [reflexivity | now exists k]. }
  cbv beta. intros stack _.
  apply (hoare_bind _ _ _ (fun _ => True)).
  { apply hoare_check_call. cbn [stack_event]. right.
    exists merge, stack, rs. split; [exact F | reflexivity]. }
  intros _ _.
  apply (hoare_bind _ _ _ (fun _ => True)).
  { apply hoare_removeEach. intros p Hp. cbn [stack_event].
    rewrite Forall_forall in RS. now apply RS. }
  intros _ _. now apply hoare_ret.
Qed.

End StackEvents.

(** X6: whatever its outcome, [makeStackAndAngles] creates its
    temporary files in the temporary directory of the run; the only
    commands it runs are the [gdalwarp] of one band and the merge
    through the [gdal_merge.py] that was located; the only files it
    deletes carry the temporary name of the intermediate of a band;
    it prints nothing unless [--verbose] is given, and then only its
    two progress lines; and it neither calls the algorithm nor prints
    the usage text. *)
Theorem makeStackAndAngles_events :
  forall (env : Env) (c : Cmdargs) (s : State),
    let s' := snd (makeStackAndAngles env c s) in
    trace s' = (trace s ++ added s s')%list
    /\ (forall d pre suf p,
          In (EMkstemp d pre suf p) (added s s') ->
          d = Some (tempdir c)
          /\ exists k, p = temp_path env (tempdir c) pre suf k)
    /\ (forall argv,
          In (ECheckCall argv) (added s s') -> stack_command env c argv)
    /\ (forall p, In (ERemove p) (added s s') -> band_temp env c p)
    /\ (forall line,
          In (EPrint line) (added s s') ->
          verbose c = true
          /\ (line = "Making angles image"
              \/ line = "Making stack of all bands, at "
                        ++ str_int (pixsize c) ++ "m pixel size"))
    /\ (forall fn cfg, ~ In (EDoFmask fn cfg) (added s s'))
    /\ ~ In EPrintHelp (added s s').
Proof.
  intros env c s s'.
  destruct (makeStackAndAngles env c s) as [r s1] eqn:H.
  destruct (hoare_makeStackAndAngles env c _ _ _ H) as [(tr & X & F) _].
  subst s'. cbn [snd]. rewrite (added_app _ _ _ X).
  rewrite Forall_forall in F.
  split; [exact X|]. split; [|split; [|split; [|split; [|split]]]].
  - intros d pre suf p Hin. exact (F _ Hin).
  - intros argv Hin. exact (F _ Hin).
  - intros p Hin. exact (F _ Hin).
  - intros line Hin. exact (F _ Hin).
  - intros fn cfg Hin. exact (F _ Hin).
  - intro Hin. exact (F _ Hin).
Qed.

(** ** The two parts of a run *)

Lemma two_phase_bind {A B} (P : Event -> Prop) (R : list Event -> Prop)
  (m : M A) (k : A -> M B) (Q : A -> Prop) :
  hoare P m Q -> (forall a, Q a -> two_phase P R (k a)) ->
  two_phase P R (bind m k).
Proof.
  intros Hm Hk s r s' H. apply bind_inv in H.
  destruct H as [(a & s1 & E1 & E2) | (e & E1 & ->)].
  - destruct (Hm _ _ _ E1) as [(t1 & X1 & F1) QA].
    destruct (Hk a (QA a eq_refl) _ _ _ E2) as (b & af & X2 & F2 & R2 & N).
    exists (t1 ++ b)%list, af. split.
    + rewrite <- app_assoc. exact (extends_trans _ _ _ _ _ X1 X2).
    + split; [apply Forall_app; now split|]. now split.
  - destruct (Hm _ _ _ E1) as [(t1 & X1 & F1) _].
    exists t1, []. split; [rewrite app_nil_r; exact X1|].
    split; [exact F1|]. split; [now left|].
    intros a E. discriminate E.
Qed.

Lemma two_phase_call (env : Env) (P : Event -> Prop) (argv : Cmdargs)
  (fn : FmaskFilenames) (cfg : FmaskConfig) (rest : M unit) :
  algorithm_input argv fn cfg ->
  hoare is_removal rest (fun _ => True) ->
  two_phase P (algorithm_phase argv)
    (bind (call_doFmask env fn cfg) (fun _ => rest)).
Proof.
  intros AI Hr s r s' H. apply bind_inv in H.
  destruct H as [(a & s1 & E1 & E2) | (e & E1 & ->)].
  - apply call_doFmask_inv in E1.
    destruct (Hr _ _ _ E2) as [(tr & X & F) _].
    exists [], (EDoFmask fn cfg :: tr). split.
    + exact (extends_trans _ _ _ _ _ E1 X).
    + split; [constructor|]. split.
      * right. now exists fn, cfg, tr.
      * intros _ _ E. discriminate E.
  - apply call_doFmask_inv in E1.
    exists [], [EDoFmask fn cfg]. split; [exact E1|].
    split; [constructor|]. split.
    + right. exists fn, cfg, []. split; [reflexivity|].
      split; [exact AI | constructor].
    + intros _ _ E. discriminate E.
Qed.

Lemma hoare_getCmdargs (P : Event -> Prop) (argv : Cmdargs) :
  P EPrintHelp -> (forall line, P (EPrint line)) ->
  hoare P (getCmdargs argv) (fun c => c = argv).
Proof.
  intros PH PP. unfold getCmdargs.
  destruct (is_some (granuledir argv) && is_some (safedir argv)).
  - apply (hoare_bind _ _ _ (fun _ => True)); [now apply hoare_print|].
    intros _ _.
    apply (hoare_bind _ _ _ (fun _ => True)); [now apply hoare_print|].
    intros _ _. apply hoare_raise.
  - match goal with |- hoare _ (if ?b then _ else _) _ => destruct b end.
    + apply (hoare_bind _ _ _ (fun _ => True)); [now apply hoare_log|].
      intros _ _. apply hoare_raise.
    + now apply hoare_ret.
Qed.

Lemma hoare_the (P : Event -> Prop) (o : option string) :
  hoare P (the o) (fun p => o = Some p).
Proof.
  destruct o as [q|]; cbn [the]; [now apply hoare_ret | apply hoare_raise].
Qed.

Lemma hoare_int_div (P : Event -> Prop) (a : PyFloat) (b : Q) :
  hoare P (int_div a b)
    (fun z => ~ (b == 0)%Q /\ int_of_float (fdiv a b) = Ok z).
Proof.
  unfold int_div. destruct (Qeq_bool b 0) eqn:E; [apply hoare_raise|].
  intros s r s' H. injection H as <- <-. split.
  - exists []. split; [apply extends_refl | constructor].
  - intros z Ez. split; [|exact Ez].
    intro Z. apply Qeq_bool_iff in Z. congruence.
Qed.

Lemma hoare_checkAnglesFile (env : Env) (P : Event -> Prop)
  (a t : string) :
  (forall k, P (EMkstemp None "angles" ".vrt"
                  (temp_path env (gettempdir env) "angles" ".vrt" k))) ->
  (forall ti vrt, P (ECheckCall (reconcile_argv env ti a vrt))) ->
  hoare P (checkAnglesFile env a t) (fun _ => True).
Proof.
  intros PM PC. unfold checkAnglesFile.
  apply (hoare_bind _ _ _ (fun _ => True)); [apply hoare_ImageInfo_open|].
  intros ti _.
  apply (hoare_bind _ _ _ (fun _ => True)); [apply hoare_ImageInfo_open|].
  intros ai _.
  match goal with |- hoare _ (if ?b then _ else _) _ => destruct b end;
    [|now apply hoare_ret].
  eapply hoare_bind; [apply hoare_mkstemp; exact PM|].
  cbv beta. intros vrt _.
  apply (hoare_bind _ _ _ (fun _ => True)).
  { apply hoare_check_call. exact (PC ti vrt). }
  intros _ _. now apply hoare_ret.
Qed.

Lemma same_options_refl (c : Cmdargs) : same_options c c.
Proof. unfold same_options. now repeat split. Qed.

Lemma makeStackAndAngles_same_options (env : Env) (c c' : Cmdargs)
  (s s' : State) (bands : list string) :
  makeStackAndAngles env c s = (Ok (bands, c'), s') -> same_options c c'.
Proof.
  intro H. apply makeStackAndAngles_inv in H.
  destruct H as (c1 & trA & C1 & FA & H).
  destruct H as [(e & E & _) | (angles & ka & trL & rl & K & InA & OnlyA
                                 & LF & H)]; [discriminate E|].
  destruct H as [(e & _ & E & _) | (rs' & trP & -> & FP & H)];
    [discriminate E|].
  destruct H as [(e & E & _) | (stack & ks & merge & done & Ks & X & _ & R)];
    [discriminate E|].
  destruct (R _ eq_refl) as [-> E]. injection E as -> ->.
  destruct C1 as [-> | [g ->]]; unfold same_options; now repeat split.
Qed.

Lemma stack_before_event (env : Env) (c : Cmdargs) (e : Event) :
  stack_event env c e -> before_event env c e.
Proof.
  destruct e as [pat found | d pre suf p | p | argv | x o | fn cfg | line | ];
    cbn [stack_event before_event]; try tauto.
  destruct d as [d|]; [tauto|]. intros [E _]. discriminate E.
Qed.

Lemma two_phase_mainRoutine (env : Env) (argv : Cmdargs) :
  two_phase (before_event env argv) (algorithm_phase argv)
    (mainRoutine env argv).
Proof.
  unfold mainRoutine.
  apply (two_phase_bind _ _ _ _ (fun c => c = argv)).
  { apply hoare_getCmdargs; [exact I | intro line; exact I]. }
  intros c ->. cbv zeta.
  set (tempStack := is_some (safedir argv) || is_some (granuledir argv)).
  apply (two_phase_bind _ _ _ _
           (fun c' => same_options argv c'
                      /\ (tempStack = false -> c' = argv))).
  { destruct tempStack eqn:TS.
    - apply (hoare_bind _ _ _ (fun r => same_options argv (snd r))).
      + apply (hoare_conseq (stack_event env argv) _ _
                 (fun r => True /\ same_options argv (snd r))).
        * apply stack_before_event.
        * intros a [_ S]. exact S.
        * apply hoare_and; [apply hoare_makeStackAndAngles|].
          intros s [rs c'] s' H. cbn [snd].
          exact (makeStackAndAngles_same_options _ _ _ _ _ _ H).
      + intros r S. apply hoare_ret. split; [exact S | discriminate].
    - apply hoare_ret. split; [apply same_options_refl | reflexivity]. }
  intros c' [SO PB].
  eapply two_phase_bind; [apply hoare_the|].
  cbv beta. intros inputAngles EA.
  eapply two_phase_bind; [apply hoare_the|].
  cbv beta. intros toafile ET.
  apply (two_phase_bind _ _ _ _ (fun _ => True)).
  { apply hoare_checkAnglesFile.
    - intro k. cbn [before_event].
      split; [reflexivity|]. split; [reflexivity | now exists k].
    - intros ti vrt. cbn [before_event]. right.
      now exists ti, inputAngles, vrt. }
  intros anglesfile' _.
  apply (two_phase_bind _ _ _ _ (fun _ => True));
    [apply hoare_ImageInfo_open|].
  intros toaImgInfo _.
  eapply two_phase_bind; [apply hoare_int_div|].
  cbv beta. intros cloudBuf [NZ EC].
  eapply two_phase_bind; [apply hoare_int_div|].
  cbv beta. intros shadowBuf [_ ES].
  apply two_phase_call.
  - destruct SO as (S1 & S2 & S3 & S4 & S5 & S6 & S7 & S8 & S9 & S10
                    & S11 & S12 & S13).
    unfold algorithm_input.
    cbn [toaRef outputMask anglesInfo keepIntermediates cfgVerbose
         cfgTempDir TOARefScaling minCloudSize Eqn17CloudProbThresh
         Eqn20NirSnowThresh Eqn20GreenSnowThresh sen2displacementTest
         cloudBufferSize shadowBufferSize].
    split.
    { intros Hs Hg. rewrite PB; [reflexivity|].
      unfold tempStack. now rewrite Hs, Hg. }
    repeat (split; [congruence|]).
    split; [now exists anglesfile'|].
    exists (xRes toaImgInfo). split; [exact NZ|]. rewrite <- S8, <- S9.
    now split.
  - apply (hoare_bind _ _ _ (fun _ => True)).
    + apply hoare_when. apply hoare_os_remove. now exists anglesfile'.
    + intros _ _. apply hoare_when. apply hoare_removeExisting.
      intros p _. now exists p.
Qed.

(** X7: a run of [mainRoutine], whatever its outcome, falls in two
    parts.  In the first the algorithm is not called, and only
    intermediates of bands are deleted; the temporary files are those
    of [makeStackAndAngles] and the reconciled angles, the commands
    those of [makeStackAndAngles] and the reconciliation.  The second
    part is empty, or it is one call of the algorithm on what lines
    296-317 derive from the command line, followed by deletions and
    nothing else.  A run that returns has called the algorithm. *)
Theorem mainRoutine_calls_algorithm_once :
  forall (env : Env) (argv : Cmdargs) (s : State),
    exists before after,
      trace (snd (mainRoutine env argv s))
      = (trace s ++ before ++ after)%list
      /\ Forall (before_event env argv) before
      /\ (forall fn cfg, ~ In (EDoFmask fn cfg) before)
      /\ (forall p, In (ERemove p) before -> band_temp env argv p)
      /\ (after = []
          \/ exists fn cfg rest,
               after = EDoFmask fn cfg :: rest
               /\ algorithm_input argv fn cfg
               /\ Forall is_removal rest)
      /\ (fst (mainRoutine env argv s) = Ok tt -> after <> []).
Proof.
  intros env argv s.
  destruct (mainRoutine env argv s) as [r s'] eqn:H. cbn [fst snd].
  destruct (two_phase_mainRoutine env argv _ _ _ H)
    as (before & after & X & F & R & N).
  exists before, after. split; [exact X|]. split; [exact F|].
  rewrite Forall_forall in F.
  split; [intros fn cfg Hin; exact (F _ Hin)|].
  split; [intros p Hin; exact (F _ Hin)|].
  split; [exact R|]. intro E. exact (N tt E).
Qed.

(** ** A run on supplied files *)

Lemma ImageInfo_open_run (path : string) (s : State) (i : ImageInfo) :
  image_of (fs s) path = Some i -> ImageInfo_open path s = (Ok i, s).
Proof. intro E. unfold ImageInfo_open. now rewrite E. Qed.

Ltac supplied_prefix argv s t a Hs Hg Ht Ha O It Ia G :=
  unfold mainRoutine; cbv zeta;
  rewrite (bind_ok _ _ _ _ _ (getCmdargs_files _ t a s Hs Hg Ht Ha O));
  rewrite Hs, Hg; cbn [is_some orb];
  rewrite (bind_ok _ _ s s argv) by reflexivity;
  rewrite Ha, Ht; cbn [the];
  rewrite (bind_ok _ _ s s a) by reflexivity;
  rewrite (bind_ok _ _ s s t) by reflexivity;
  rewrite (bind_ok _ _ _ _ _ (checkAnglesFile_same _ a t s _ _ It Ia G));
  rewrite (bind_ok _ _ s s _ (ImageInfo_open_run t s _ It)).


(** X11: on supplied files as in X8, a cloud buffer distance whose
    quotient by the pixel width has no integer part (the distance is
    infinite or NaN, or the quotient overflows) ends the run in
    [int()] at line 316, with [OverflowError] for an infinity and
    [ValueError] for a NaN: the algorithm is not called and nothing is
    created, run or deleted. *)
Theorem mainRoutine_buffer_not_finite :
  forall (env : Env) (argv : Cmdargs) (s : State) (t a o : string)
         (ti ai : ImageInfo),
    safedir argv = None -> granuledir argv = None ->
    toa argv = Some t -> anglesfile argv = Some a ->
    output argv = Some o ->
    image_of (fs s) t = Some ti -> image_of (fs s) a = Some ai ->
    same_pixel_size ti ai ->
    ~ (xRes ti == 0)%Q ->
    (forall z, fdiv (cloudbufferdistance argv) (xRes ti)
               <> Finite z) ->
    mainRoutine env argv s
    = (Raise (match fdiv (cloudbufferdistance argv) (xRes ti) with
              | NaN => ValueError
              | _ => OverflowError
              end), s).
Proof.
  intros env argv s t a o ti ai Hs Hg Ht Ha Ho It Ia G NZ NF.
  assert (O : is_some (output argv) = true) by now rewrite Ho.
  supplied_prefix argv s t a Hs Hg Ht Ha O It Ia G.
  assert (Z0 : Qeq_bool (xRes ti) 0 = false).
  { destruct (Qeq_bool (xRes ti) 0) eqn:E; [|reflexivity].
    apply Qeq_bool_iff in E. contradiction. }
  apply bind_raise. unfold int_div. rewrite Z0.
  destruct (fdiv (cloudbufferdistance argv) (xRes ti)) as [z|neg|];
    [now contradiction (NF z) | reflexivity | reflexivity].
Qed.

(** X9: on a supplied stack whose pixel width is zero the run ends
    with [ZeroDivisionError] in the computation of the cloud buffer
    (line 316): the algorithm is not called and nothing is created,
    run or deleted. *)
Theorem mainRoutine_zero_pixel_width :
  forall (env : Env) (argv : Cmdargs) (s : State) (t a o : string)
         (ti ai : ImageInfo),
    safedir argv = None -> granuledir argv = None ->
    toa argv = Some t -> anglesfile argv = Some a ->
    output argv = Some o ->
    image_of (fs s) t = Some ti -> image_of (fs s) a = Some ai ->
    same_pixel_size ti ai ->
    (xRes ti == 0)%Q ->
    mainRoutine env argv s = (Raise ZeroDivisionError, s).
Proof.
  intros env argv s t a o ti ai Hs Hg Ht Ha Ho It Ia G Z0.
  assert (O : is_some (output argv) = true) by now rewrite Ho.
  supplied_prefix argv s t a Hs Hg Ht Ha O It Ia G.
  apply bind_raise. unfold int_div.
  apply Qeq_bool_iff in Z0. now rewrite Z0.
Qed.

(** ** A command line that is not accepted *)

Lemma getCmdargs_rejects (argv : Cmdargs) (s : State) :
  ~ (is_some (output argv) = true /\ input_modes argv = 1%nat) ->
  exists tr,
    getCmdargs argv s
    = (Raise (SystemExit 1), mkState (fs s) (rng s) (trace s ++ tr)%list)
    /\ Forall is_message tr.
Proof.
  unfold getCmdargs, input_modes, is_message.
  destruct (safedir argv), (granuledir argv), (toa argv), (anglesfile argv),
    (output argv); cbn [is_some andb orb negb Nat.add]; intro N;
    try (exfalso; apply N; split; reflexivity);
    unfold bind, print, log, raise; cbn [fs rng trace];
    rewrite <- ?app_assoc;
    (eexists; split; [reflexivity|]);
    repeat (constructor; [solve [now left | right; now eexists]|]);
    constructor.
Qed.

(** X10: a command line that [getCmdargs] does not accept ends
    [mainRoutine] with exit status 1 after messages on the terminal
    and nothing else: no file is searched for, created or deleted, no
    command is run, and the algorithm is not called. *)
Theorem mainRoutine_rejected_command_line :
  forall (env : Env) (argv : Cmdargs) (s : State),
    ~ (is_some (output argv) = true /\ input_modes argv = 1%nat) ->
    fst (mainRoutine env argv s) = Raise (SystemExit 1)
    /\ fs (snd (mainRoutine env argv s)) = fs s
    /\ trace (snd (mainRoutine env argv s))
       = (trace s ++ added s (snd (mainRoutine env argv s)))%list
    /\ added s (snd (mainRoutine env argv s)) <> []
    /\ Forall is_message (added s (snd (mainRoutine env argv s))).
Proof.
  intros env argv s N.
  destruct (getCmdargs_rejects argv s N) as (tr & R & F).
  assert (NE : tr <> []).
  { intros ->. revert R. unfold getCmdargs.
    destruct (is_some (granuledir argv) && is_some (safedir argv));
      [|match goal with |- context [if ?b then _ else _] => destruct b end];
      unfold bind, print, log, raise, ret; cbn [fs rng trace];
      intro R; injection R as R; try discriminate.
    all: rewrite <- ?app_assoc in R; apply app_inv_head in R;
      discriminate R. }
  unfold mainRoutine. rewrite (bind_raise _ _ _ _ _ R). cbn [fst snd fs].
  assert (X : extends s (mkState (fs s) (rng s) (trace s ++ tr)) tr)
    by reflexivity.
  rewrite (added_app _ _ _ X). cbn [trace]. now repeat split.
Qed.

(** ** The further properties on the scene *)

(** Without [gdal_merge.py] the archive of the scene is not touched. *)
Lemma makeStackAndAngles_needs_gdal_merge_witness :
  find_executable Scene.env_without_merge "gdal_merge.py" = None
  /\ exists e,
       fst (makeStackAndAngles Scene.env_without_merge Scene.from_safedir
              (Scene.start Scene.disk)) = Raise e
       /\ fs (snd (makeStackAndAngles Scene.env_without_merge
                     Scene.from_safedir (Scene.start Scene.disk)))
          = Scene.disk.
Proof.
  split; [reflexivity|].
  destruct (makeStackAndAngles_needs_gdal_merge Scene.env_without_merge
              Scene.from_safedir (Scene.start Scene.disk) eq_refl)
    as (e & E & _ & F & _).
  exists e. split; [exact E | exact F].
Defined.

(** The namespace after the stack of the scene is built. *)
Lemma makeStackAndAngles_frame_witness :
  Scene.built = (Ok (Scene.built_bands, Scene.built_args), snd Scene.built)
  /\ same_options Scene.from_safedir Scene.built_args
  /\ granuledir Scene.built_args = Some Scene.granule.
Proof.
  assert (Run : makeStackAndAngles Scene.env Scene.from_safedir
                  (Scene.start Scene.disk)
                = (Ok (Scene.built_bands, Scene.built_args),
                   snd Scene.built))
    by (vm_compute; reflexivity).
  split; [exact Run|].
  destruct (makeStackAndAngles_frame _ _ _ _ _ _ Run) as (S & _).
  split; [exact S | reflexivity].
Defined.


(** Supplied files without a geotransform. *)
Lemma mainRoutine_zero_pixel_width_witness :
  mainRoutine Scene.env Scene.from_files (Scene.start Scene.supplied_flat)
  = (Raise ZeroDivisionError, Scene.start Scene.supplied_flat).
Proof.
  apply (mainRoutine_zero_pixel_width Scene.env Scene.from_files
           (Scene.start Scene.supplied_flat) "/in/toa.img" "/in/angles.img"
           "/out/cloud.img" (Scene.grid 0) (Scene.grid 0));
    try reflexivity.
  split; reflexivity.
Defined.

(** An archive and a stack at once: the usage text, and status 1. *)
Lemma mainRoutine_rejected_command_line_witness :
  input_modes Scene.from_both = 2%nat
  /\ fst (mainRoutine Scene.env Scene.from_both (Scene.start Scene.disk))
     = Raise (SystemExit 1)
  /\ fs (snd (mainRoutine Scene.env Scene.from_both
                (Scene.start Scene.disk))) = Scene.disk
  /\ Forall is_message
       (added (Scene.start Scene.disk)
          (snd (mainRoutine Scene.env Scene.from_both
                  (Scene.start Scene.disk)))).
Proof.
  split; [reflexivity|].
  destruct (mainRoutine_rejected_command_line Scene.env Scene.from_both
              (Scene.start Scene.disk)) as (E & F & _ & _ & M).
  - intros [_ N]. discriminate N.
  - split; [exact E|]. split; [exact F | exact M].
Defined.
